(** * MarkDash backend: keyspace, handlers and session tokens

    A shallow embedding of the data-access and identity-scoping layer of the
    MarkDash API (src/utils/kv.ts, src/utils/crypto.ts, src/utils/response.ts,
    src/middleware/authMiddleware.ts and the route files auth.ts, boards.ts,
    logs.ts, notify.ts), of the rate limiter of
    src/middleware/securityMiddleware.ts and of the download names of
    src/routes/export.ts, followed by the properties of the specification.

    Conventions of the embedding:
    - a Deno KV key is the list of its string parts; the store is the list of
      its entries in key order; [kv.list] with a prefix selects the entries
      whose key starts with the parts of the prefix, part by part;
    - every [async] function that reaches the store is a computation in the
      state monad [M] over the store and the trace of store calls issued;
    - a JSON request body is a record of optional fields ([None] is an absent
      or null field); fields destructured by the handlers are strings, as the
      interfaces of src/types.ts declare them;
    - a string is held as the bytes of its UTF-8 encoding, the form in which
      it comes in a request and lies in a key of the store; where the code
      works on the UTF-16 code units of a string ([length], [replace] with a
      pattern), [code_units] gives them;
    - [generateId()], [new Date()] and the bcrypt salt are inputs of the
      handlers that use them. *)

From Stdlib Require Import String Ascii List ZArith Lia Bool Arith.
Import ListNotations.
Open Scope string_scope.

Set Implicit Arguments.

(** ** JavaScript values used by the handlers *)

(** Truthiness of a string-valued expression that may be [undefined]. *)
Definition truthy (v : option string) : bool :=
  match v with
  | Some s => negb (s =? "")
  | None => false
  end.

(** The string a truthy [v] holds: a test [if (!v) return ...] continues with
    it. *)
Definition present (v : option string) : option string :=
  match v with
  | Some s => if s =? "" then None else Some s
  | None => None
  end.

(** [v || d] for a string-valued [v]. *)
Definition or_default (v : option string) (d : string) : string :=
  match v with
  | Some s => if s =? "" then d else s
  | None => d
  end.

(** The UTF-16 code units of a string, as far as the code tells them apart:
    a code unit below 128, with its character, or any other one. *)
Inductive CodeUnit :=
| Basic (c : ascii)
| Other.

(** A byte that continues a character begun by an earlier byte. *)
Definition is_continuation (c : ascii) : bool :=
  let n := nat_of_ascii c in ((128 <=? n) && (n <? 192))%nat.

(** The code units of the string a sequence of bytes encodes: a character
    encoded in one, two or three bytes is one code unit and a character
    encoded in four bytes is the two code units of a surrogate pair.
    [pending] is the number of bytes the character being read still has to
    come; a byte that belongs to no character counts as one code unit. *)
Fixpoint code_units_from (pending : nat) (s : string) : list CodeUnit :=
  match s with
  | EmptyString => []
  | String c rest =>
      let n := nat_of_ascii c in
      if (n <? 128)%nat then Basic c :: code_units_from 0 rest
      else if (n <? 192)%nat then
        match pending with
        | S p => code_units_from p rest
        | O => Other :: code_units_from 0 rest
        end
      else if (n <? 224)%nat then Other :: code_units_from 1 rest
      else if (n <? 240)%nat then Other :: code_units_from 2 rest
      else if (n <? 248)%nat then
        match rest with
        | String c' _ =>
            if is_continuation c'
            then Other :: Other :: code_units_from 3 rest
            else Other :: code_units_from 0 rest
        | EmptyString => [Other]
        end
      else Other :: code_units_from 0 rest
  end.

Definition code_units (s : string) : list CodeUnit := code_units_from 0 s.

(** [s.length]: the number of UTF-16 code units of [s]. *)
Definition js_length (s : string) : nat := List.length (code_units s).

(** A plain object whose fields are strings, in insertion order. *)
Definition JsObject := list (string * string).

Fixpoint obj_get (f : string) (o : JsObject) : option string :=
  match o with
  | [] => None
  | (g, v) :: o' => if g =? f then Some v else obj_get f o'
  end.

(** [const { f: _, ...rest } = o]: the object without its field [f]. *)
Fixpoint obj_omit (f : string) (o : JsObject) : JsObject :=
  match o with
  | [] => []
  | (g, v) :: o' => if g =? f then obj_omit f o' else (g, v) :: obj_omit f o'
  end.

(** ** src/types.ts *)

Module User.
Record t := mk {
  id : string;
  username : string;
  passwordHash : string;
  createdAt : string
}.

(** The stored value seen as an object with its four fields. *)
Definition to_object (u : t) : JsObject :=
  [("id", id u); ("username", username u);
   ("passwordHash", passwordHash u); ("createdAt", createdAt u)].
End User.

Module Board.
Record t := mk {
  id : string;
  userId : string;
  title : string;
  markdown : string;
  visibility : string;
  schedule : string;
  resetTime : string;
  createdAt : string;
  updatedAt : string
}.
End Board.

Module LogAction.
Record t := mk {
  type : string;
  task : option string;
  time : string
}.
End LogAction.

Module Log.
Record t := mk {
  id : string;
  boardId : string;
  userId : string;
  date : string;
  completedAt : string;
  actions : list LogAction.t
}.
End Log.

Module Notification.
Record t := mk {
  id : string;
  boardId : string;
  userId : string;
  message : string;
  time : string;
  dismissed : bool
}.
End Notification.

Record JWTPayload := mkPayload {
  userId : string;
  username : string;
  exp : Z
}.

(** ** The key-value store (Deno KV) *)

Definition KvKey := list string.

(** Values the application stores: a user, the id a username points to, a
    board, a log or a notification. *)
Inductive Value :=
| VUser (u : User.t)
| VString (s : string)
| VBoard (b : Board.t)
| VLog (l : Log.t)
| VNotification (n : Notification.t).

Definition Entry := (KvKey * Value)%type.
Definition Store := list Entry.

(** Keys are ordered part by part, a shorter key before its extensions. *)
Fixpoint key_compare (a b : KvKey) : comparison :=
  match a, b with
  | [], [] => Eq
  | [], _ :: _ => Lt
  | _ :: _, [] => Gt
  | x :: a', y :: b' =>
      match String.compare x y with
      | Eq => key_compare a' b'
      | c => c
      end
  end.

Definition key_eqb (a b : KvKey) : bool :=
  match key_compare a b with Eq => true | _ => false end.

(** [starts_with p k]: the key [k] has the parts of [p] as its first parts
    and at least one more part. *)
Fixpoint starts_with (p k : KvKey) : bool :=
  match p, k with
  | [], [] => false
  | [], _ :: _ => true
  | _ :: _, [] => false
  | x :: p', y :: k' => (x =? y) && starts_with p' k'
  end.

Fixpoint store_get (k : KvKey) (s : Store) : option Value :=
  match s with
  | [] => None
  | (k', v) :: s' => if key_eqb k k' then Some v else store_get k s'
  end.

Definition store_delete (k : KvKey) (s : Store) : Store :=
  filter (fun e => negb (key_eqb k (fst e))) s.

Fixpoint store_insert (k : KvKey) (v : Value) (s : Store) : Store :=
  match s with
  | [] => [(k, v)]
  | (k', v') :: s' =>
      match key_compare k k' with
      | Gt => (k', v') :: store_insert k v s'
      | _ => (k, v) :: s
      end
  end.

(** [set] overwrites: an earlier entry at the key is dropped and the new one
    takes its place in key order. *)
Definition store_set (k : KvKey) (v : Value) (s : Store) : Store :=
  store_insert k v (store_delete k s).

Definition store_list (prefix : KvKey) (s : Store) : list Entry :=
  filter (fun e => starts_with prefix (fst e)) s.

(** Number of entries stored at a key. *)
Definition store_count (k : KvKey) (s : Store) : nat :=
  List.length (filter (fun e => key_eqb k (fst e)) s).

(** ** The monad of store computations *)

Inductive KvCall :=
| CallGet (k : KvKey)
| CallSet (k : KvKey) (v : Value)
| CallDelete (k : KvKey)
| CallList (prefix : KvKey).

Record World := mkWorld {
  kv : Store;
  calls : list KvCall
}.

Definition M (A : Type) : Type := World -> A * World.

Definition ret {A} (a : A) : M A := fun w => (a, w).

Definition bind {A B} (m : M A) (f : A -> M B) : M B :=
  fun w => let (a, w') := m w in f a w'.

Declare Scope kv_scope.
Delimit Scope kv_scope with kv.
Notation "x <- m ;; k" := (bind m (fun x => k))
  (at level 61, m at next level, right associativity) : kv_scope.
Notation "m ;;; k" := (bind m (fun _ => k))
  (at level 61, right associativity) : kv_scope.
Open Scope kv_scope.

Definition kv_get (k : KvKey) : M (option Value) :=
  fun w => (store_get k (kv w),
            mkWorld (kv w) (calls w ++ [CallGet k])).

Definition kv_set (k : KvKey) (v : Value) : M unit :=
  fun w => (tt, mkWorld (store_set k v (kv w)) (calls w ++ [CallSet k v])).

Definition kv_delete (k : KvKey) : M unit :=
  fun w => (tt, mkWorld (store_delete k (kv w)) (calls w ++ [CallDelete k])).

Definition kv_list (prefix : KvKey) : M (list Entry) :=
  fun w => (store_list prefix (kv w),
            mkWorld (kv w) (calls w ++ [CallList prefix])).

(** Running a computation from a store with an empty trace. *)
Definition run {A} (m : M A) (s : Store) : A * World := m (mkWorld s []).


(** ** src/utils/kv.ts

    The accessors return [result.value] and the handlers cast it to the
    interface they expect; the cast is the [as_*] reading of the value.  The
    handlers store under each kind of key only values of that kind, so a
    value of another kind is read as an absent one. *)

Definition as_user (v : option Value) : option User.t :=
  match v with Some (VUser u) => Some u | _ => None end.

Definition as_board (v : option Value) : option Board.t :=
  match v with Some (VBoard b) => Some b | _ => None end.

Definition as_log (v : option Value) : option Log.t :=
  match v with Some (VLog l) => Some l | _ => None end.

Definition as_notification (v : option Value) : option Notification.t :=
  match v with Some (VNotification n) => Some n | _ => None end.

(** The values of a scan, each read at the expected kind. *)
Fixpoint values_as {A} (f : option Value -> option A) (es : list Entry)
  : list A :=
  match es with
  | [] => []
  | (_, v) :: es' =>
      match f (Some v) with
      | Some a => a :: values_as f es'
      | None => values_as f es'
      end
  end.

Definition getUserById (id : string) : M (option User.t) :=
  result <- kv_get ["user"; id] ;;
  ret (as_user result).

Definition getUserByUsername (username : string) : M (option User.t) :=
  result <- kv_get ["user_by_username"; username] ;;
  match result with
  | Some (VString id) => if id =? "" then ret None else getUserById id
  | _ => ret None
  end.

Definition setUser (id : string) (user : User.t) : M unit :=
  kv_set ["user"; id] (VUser user) ;;;
  kv_set ["user_by_username"; User.username user] (VString id).

Definition getBoard (userId boardId : string) : M (option Board.t) :=
  result <- kv_get ["board"; userId; boardId] ;;
  ret (as_board result).

Definition getBoardsByUserId (userId : string) : M (list Board.t) :=
  iter <- kv_list ["board"; userId] ;;
  ret (values_as as_board iter).

Definition setBoard (userId boardId : string) (board : Board.t) : M unit :=
  kv_set ["board"; userId; boardId] (VBoard board).

Definition deleteBoard (userId boardId : string) : M unit :=
  kv_delete ["board"; userId; boardId].

(** The loop of [getPublicBoard] over the entries of the scan. *)
Fixpoint find_public (boardId : string) (iter : list Entry)
  : option Board.t :=
  match iter with
  | [] => None
  | (_, v) :: iter' =>
      match v with
      | VBoard board =>
          if (Board.id board =? boardId)
             && (Board.visibility board =? "public")
          then Some board
          else find_public boardId iter'
      | _ => find_public boardId iter'
      end
  end.

Definition getPublicBoard (boardId : string) : M (option Board.t) :=
  iter <- kv_list ["board"] ;;
  ret (find_public boardId iter).

Definition getLog (boardId date : string) : M (option Log.t) :=
  result <- kv_get ["log"; boardId; date] ;;
  ret (as_log result).

Definition getLogsByBoardId (boardId : string) : M (list Log.t) :=
  iter <- kv_list ["log"; boardId] ;;
  ret (values_as as_log iter).

Definition setLog (boardId date : string) (log : Log.t) : M unit :=
  kv_set ["log"; boardId; date] (VLog log).

Definition deleteLog (boardId date : string) : M unit :=
  kv_delete ["log"; boardId; date].

Definition getNotification (boardId notifId : string)
  : M (option Notification.t) :=
  result <- kv_get ["notif"; boardId; notifId] ;;
  ret (as_notification result).

Definition getNotificationsByBoardId (boardId : string)
  : M (list Notification.t) :=
  iter <- kv_list ["notif"; boardId] ;;
  ret (values_as as_notification iter).

Definition setNotification (boardId notifId : string)
  (notif : Notification.t) : M unit :=
  kv_set ["notif"; boardId; notifId] (VNotification notif).

Definition deleteNotification (boardId notifId : string) : M unit :=
  kv_delete ["notif"; boardId; notifId].

(** What [getBoard], [getLog] and [getNotification] read, as functions of
    the store. *)
Definition board_at (s : Store) (userId boardId : string) : option Board.t :=
  as_board (store_get ["board"; userId; boardId] s).

Definition log_at (s : Store) (boardId date : string) : option Log.t :=
  as_log (store_get ["log"; boardId; date] s).

Definition notification_at (s : Store) (boardId notifId : string)
  : option Notification.t :=
  as_notification (store_get ["notif"; boardId; notifId] s).

Definition user_at (s : Store) (id : string) : option User.t :=
  as_user (store_get ["user"; id] s).

(** What [getUserByUsername] reads: the user the index entry points to. *)
Definition user_by_username (s : Store) (username : string)
  : option User.t :=
  match store_get ["user_by_username"; username] s with
  | Some (VString id) => if id =? "" then None else user_at s id
  | _ => None
  end.

(** ** src/utils/response.ts *)

(** What a handler puts in the [data] field of a success envelope. *)
Inductive Data :=
| DBoard (board : Board.t)
| DBoards (boards : list Board.t)
| DLog (log : Log.t)
| DLogs (logs : list Log.t)
| DNotification (notif : Notification.t)
| DNotifications (notifs : list Notification.t)
| DUser (user : JsObject)
| DRegistered (message : string) (user : JsObject)
| DSession (token : string) (user : JsObject).

Record ApiResponse := mkApi {
  api_success : bool;
  api_data : option Data;
  api_error : option string
}.

(** The part of [ctx.response] the handlers write. *)
Record Response := mkResponse {
  status : Z;
  body : option ApiResponse
}.

Definition success_with (data : Data) (status : Z) : Response :=
  mkResponse status (Some (mkApi true (Some data) None)).

Definition success (data : Data) : Response := success_with data 200.

Definition error_with (message : string) (status : Z) : Response :=
  mkResponse status (Some (mkApi false None (Some message))).

Definition error (message : string) : Response := error_with message 400.

Definition created (data : Data) : Response := success_with data 201.

Definition noContent : Response := mkResponse 204 None.

Definition unauthorized (message : string) : Response :=
  error_with message 401.

Definition forbidden (message : string) : Response := error_with message 403.

Definition notFound (message : string) : Response := error_with message 404.

(** The user object of a response of the auth routes, when it has one. *)
Definition response_user (r : Response) : option JsObject :=
  match body r with
  | Some (mkApi true (Some (DUser user)) _) => Some user
  | Some (mkApi true (Some (DRegistered _ user)) _) => Some user
  | Some (mkApi true (Some (DSession _ user)) _) => Some user
  | _ => None
  end.

(** The [data] field of the envelope of a response, when it has one. *)
Definition api_data_of (r : Response) : option Data :=
  match body r with
  | Some a => api_data a
  | None => None
  end.

(** ** External libraries

    bcrypt, djwt and the Web Crypto key import are not part of the
    repository.  They are the operations of the class [Lib]; a call that can
    reject or throw returns an [Outcome].  [djwt_decode] and [signature_ok]
    are djwt's own view of a token (its payload when it is well formed, and
    whether its signature part verifies under a key); [DjwtContract] below
    states [verify] and [create] in their terms. *)

Inductive Outcome (A : Type) : Type :=
| Returned (a : A)
| Thrown (message : string).

Arguments Returned {A} a.
Arguments Thrown {A} message.

Class Lib := {
  CryptoKey : Type;
  env_JWT_SECRET : option string;
  importKey : string -> Outcome CryptoKey;
  bcrypt_hashSync : string -> string -> string;
  bcrypt_compareSync : string -> string -> bool;
  djwt_create : string * string -> JWTPayload -> CryptoKey -> Outcome string;
  djwt_verify : string -> CryptoKey -> Z -> Outcome JWTPayload;
  djwt_decode : string -> Outcome JWTPayload;
  signature_ok : string -> CryptoKey -> bool
}.

(** ** src/utils/crypto.ts *)

Section Crypto.
Context {L : Lib}.

Definition JWT_SECRET : string :=
  or_default env_JWT_SECRET "your-secret-key-change-in-production".

Definition getKey : Outcome CryptoKey := importKey JWT_SECRET.

(** [salt] is the salt bcrypt draws for this call. *)
Definition hashPassword (salt password : string) : string :=
  bcrypt_hashSync salt password.

Definition verifyPassword (password hash : string) : bool :=
  bcrypt_compareSync password hash.

(** [now] is [Date.now()], in milliseconds. *)
Definition generateToken (now : Z) (userId username : string)
  : Outcome string :=
  match getKey with
  | Thrown m => Thrown m
  | Returned key =>
      let payload :=
        mkPayload userId username (now / 1000 + 60 * 60 * 24) in
      djwt_create ("HS256", "JWT") payload key
  end.

(** The body of the [try] block of [verifyToken]. *)
Definition verifyToken_try (now : Z) (token : string) : Outcome JWTPayload :=
  match getKey with
  | Thrown m => Thrown m
  | Returned key => djwt_verify token key now
  end.

(** [try { ... } catch (_error) { return null; }] *)
Definition verifyToken (now : Z) (token : string)
  : Outcome (option JWTPayload) :=
  match verifyToken_try now token with
  | Returned payload => Returned (Some payload)
  | Thrown _ => Returned None
  end.

(** ** src/middleware/authMiddleware.ts

    [authHeader] is [ctx.request.headers.get("Authorization")]; [next] runs
    the route handler with the [userId] and [username] put in [ctx.state].
    An exception leaving the middleware reaches the error handler of
    src/main.ts. *)

Definition internal_error : Response :=
  error_with "Internal server error" 500.

Definition authMiddleware (now : Z) (authHeader : option string)
  (next : string -> string -> M Response) : M Response :=
  match present authHeader with
  | None => ret (unauthorized "Missing or invalid authorization header")
  | Some h =>
      if negb (String.prefix "Bearer " h)
      then ret (unauthorized "Missing or invalid authorization header")
      else
        let token := substring 7 (String.length h - 7) h in
        match verifyToken now token with
        | Thrown _ => ret internal_error
        | Returned None => ret (unauthorized "Invalid or expired token")
        | Returned (Some payload) => next (userId payload) (username payload)
        end
  end.

(** ** src/routes/auth.ts *)

Record Credentials := mkCredentials {
  cred_username : option string;
  cred_password : option string
}.

(** [const { passwordHash: _, ...userWithoutPassword } = user] *)
Definition userWithoutPassword (user : User.t) : JsObject :=
  obj_omit "passwordHash" (User.to_object user).

Definition post_api_register (id salt now : string) (b : Credentials)
  : M Response :=
  match present (cred_username b), present (cred_password b) with
  | Some username, Some password =>
      if (js_length password <? 6)%nat
      then ret (error "Password must be at least 6 characters")
      else
        existingUser <- getUserByUsername username ;;
        match existingUser with
        | Some _ => ret (error_with "Username already exists" 409)
        | None =>
            let userId := id in
            let passwordHash := hashPassword salt password in
            let newUser := User.mk userId username passwordHash now in
            setUser userId newUser ;;;
            ret (created (DRegistered "User created successfully"
                            (userWithoutPassword newUser)))
        end
  | _, _ => ret (error "Username and password are required")
  end.

Definition post_api_login (now : Z) (b : Credentials) : M Response :=
  match present (cred_username b), present (cred_password b) with
  | Some username, Some password =>
      user <- getUserByUsername username ;;
      match user with
      | None => ret (error_with "Invalid username or password" 401)
      | Some user =>
          if negb (verifyPassword password (User.passwordHash user))
          then ret (error_with "Invalid username or password" 401)
          else
            match generateToken now (User.id user) (User.username user) with
            | Thrown m => ret (error_with ("Login failed: " ++ m) 500)
            | Returned token =>
                ret (success (DSession token (userWithoutPassword user)))
            end
      end
  | _, _ => ret (error "Username and password are required")
  end.

Definition get_api_me (userId : string) : M Response :=
  user <- getUserById userId ;;
  match user with
  | None => ret (error_with "User not found" 404)
  | Some user => ret (success (DUser (userWithoutPassword user)))
  end.

Definition post_api_logout : M Response := ret noContent.

End Crypto.

(** ** src/routes/boards.ts *)

Record BoardFields := mkBoardFields {
  bf_title : option string;
  bf_markdown : option string;
  bf_visibility : option string;
  bf_schedule : option string;
  bf_resetTime : option string
}.

Definition get_api_boards (userId : string) : M Response :=
  boards <- getBoardsByUserId userId ;;
  ret (success (DBoards boards)).

Definition get_api_boards_id (userId boardId : string) : M Response :=
  board <- getBoard userId boardId ;;
  match board with
  | None => ret (notFound "Board not found")
  | Some board => ret (success (DBoard board))
  end.

(** [id] is the result of [generateId()], [now] of
    [new Date().toISOString()]. *)
Definition post_api_boards (id now : string) (userId : string)
  (b : BoardFields) : M Response :=
  match present (bf_title b), present (bf_markdown b) with
  | Some title, Some markdown =>
      let boardId := id in
      let newBoard :=
        Board.mk boardId userId title markdown
          (or_default (bf_visibility b) "private")
          (or_default (bf_schedule b) "daily")
          (or_default (bf_resetTime b) "00:00")
          now now in
      setBoard userId boardId newBoard ;;;
      ret (created (DBoard newBoard))
  | _, _ => ret (error "Title and markdown are required")
  end.

(** [{ ...board, ...(title && { title }), ..., updatedAt }] *)
Definition updatedBoard (board : Board.t) (b : BoardFields) (now : string)
  : Board.t :=
  Board.mk (Board.id board) (Board.userId board)
    (or_default (bf_title b) (Board.title board))
    (or_default (bf_markdown b) (Board.markdown board))
    (or_default (bf_visibility b) (Board.visibility board))
    (or_default (bf_schedule b) (Board.schedule board))
    (or_default (bf_resetTime b) (Board.resetTime board))
    (Board.createdAt board)
    now.

Definition put_api_boards_id (now : string) (userId boardId : string)
  (b : BoardFields) : M Response :=
  board <- getBoard userId boardId ;;
  match board with
  | None => ret (notFound "Board not found")
  | Some board =>
      let updated := updatedBoard board b now in
      setBoard userId boardId updated ;;;
      ret (success (DBoard updated))
  end.

Definition delete_api_boards_id (userId boardId : string) : M Response :=
  board <- getBoard userId boardId ;;
  match board with
  | None => ret (notFound "Board not found")
  | Some _ =>
      deleteBoard userId boardId ;;;
      ret noContent
  end.

Definition get_api_public_boardId (boardId : string) : M Response :=
  board <- getPublicBoard boardId ;;
  match board with
  | None => ret (notFound "Public board not found")
  | Some board => ret (success (DBoard board))
  end.

(** ** src/routes/logs.ts *)

Record LogFields := mkLogFields {
  lf_boardId : option string;
  lf_actions : option (list LogAction.t);
  lf_date : option string
}.

(** [iso.split("T")[0]] *)
Fixpoint before_T (iso : string) : string :=
  match iso with
  | EmptyString => EmptyString
  | String c rest =>
      if Ascii.eqb c "T" then EmptyString else String c (before_T rest)
  end.

(** [date || new Date().toISOString().split("T")[0]] *)
Definition logDate (date : option string) (now : string) : string :=
  or_default date (before_T now).

Definition get_api_logs_boardId (userId boardId : string) : M Response :=
  board <- getBoard userId boardId ;;
  match board with
  | None => ret (forbidden "Access denied")
  | Some _ =>
      logs <- getLogsByBoardId boardId ;;
      ret (success (DLogs logs))
  end.

Definition get_api_logs_boardId_date (userId boardId date : string)
  : M Response :=
  board <- getBoard userId boardId ;;
  match board with
  | None => ret (forbidden "Access denied")
  | Some _ =>
      log <- getLog boardId date ;;
      match log with
      | None => ret (notFound "Log not found for this date")
      | Some log => ret (success (DLog log))
      end
  end.

(** The record written when a log exists for the date. *)
Definition updatedLog (existingLog : Log.t) (actions : list LogAction.t)
  (now : string) : Log.t :=
  Log.mk (Log.id existingLog) (Log.boardId existingLog)
    (Log.userId existingLog) (Log.date existingLog)
    now
    (Log.actions existingLog ++ actions).

(** [id] is the result of [generateId()]; [now1] and [now2] are the two
    readings of the clock, for the default date and for [completedAt]. *)
Definition post_api_logs (id now1 now2 : string) (userId : string)
  (b : LogFields) : M Response :=
  match present (lf_boardId b), lf_actions b with
  | Some boardId, Some actions =>
      board <- getBoard userId boardId ;;
      match board with
      | None => ret (forbidden "Access denied")
      | Some _ =>
          let date := logDate (lf_date b) now1 in
          existingLog <- getLog boardId date ;;
          match existingLog with
          | Some existingLog =>
              let updated := updatedLog existingLog actions now2 in
              setLog boardId date updated ;;;
              ret (success (DLog updated))
          | None =>
              let newLog := Log.mk id boardId userId date now2 actions in
              setLog boardId date newLog ;;;
              ret (created (DLog newLog))
          end
      end
  | _, _ => ret (error "boardId and actions are required")
  end.

Definition delete_api_logs_id (userId logId : string) : M Response :=
  allBoards <- getBoard userId "" ;;
  logs <- getLogsByBoardId logId ;;
  match find (fun log => Log.id log =? logId) logs with
  | None => ret (notFound "Log not found")
  | Some foundLog =>
      let foundBoardId := Log.boardId foundLog in
      let foundDate := Log.date foundLog in
      board <- getBoard userId foundBoardId ;;
      match board with
      | None => ret (forbidden "Access denied")
      | Some _ =>
          deleteLog foundBoardId foundDate ;;;
          ret noContent
      end
  end.

(** ** src/routes/notify.ts *)

Record NotifyFields := mkNotifyFields {
  nf_boardId : option string;
  nf_message : option string;
  nf_time : option string
}.

Definition get_api_notify_boardId (userId boardId : string) : M Response :=
  board <- getBoard userId boardId ;;
  match board with
  | None => ret (forbidden "Access denied")
  | Some _ =>
      notifications <- getNotificationsByBoardId boardId ;;
      ret (success (DNotifications
             (filter (fun n => negb (Notification.dismissed n))
                     notifications)))
  end.

Definition post_api_notify (id : string) (userId : string)
  (b : NotifyFields) : M Response :=
  match present (nf_boardId b), present (nf_message b),
        present (nf_time b) with
  | Some boardId, Some message, Some time =>
      board <- getBoard userId boardId ;;
      match board with
      | None => ret (forbidden "Access denied")
      | Some _ =>
          let notifId := id in
          let newNotification :=
            Notification.mk notifId boardId userId message time false in
          setNotification boardId notifId newNotification ;;;
          ret (created (DNotification newNotification))
      end
  | _, _, _ => ret (error "boardId, message, and time are required")
  end.

(** The search loop shared by the dismiss and delete handlers: the first
    notification of the scan with the id and the owner asked for. *)
Definition find_notification (notifId userId : string)
  (allNotifications : list Notification.t) : option Notification.t :=
  find (fun n => (Notification.id n =? notifId)
                 && (Notification.userId n =? userId))
       allNotifications.

Definition dismiss (n : Notification.t) : Notification.t :=
  Notification.mk (Notification.id n) (Notification.boardId n)
    (Notification.userId n) (Notification.message n)
    (Notification.time n) true.

Definition patch_api_notify_id_dismiss (userId notifId : string)
  : M Response :=
  allNotifications <- getNotificationsByBoardId "" ;;
  match find_notification notifId userId allNotifications with
  | None => ret (notFound "Notification not found")
  | Some foundNotif =>
      let foundBoardId := Notification.boardId foundNotif in
      let updatedNotif := dismiss foundNotif in
      setNotification foundBoardId notifId updatedNotif ;;;
      ret (success (DNotification updatedNotif))
  end.

Definition delete_api_notify_id (userId notifId : string) : M Response :=
  allNotifications <- getNotificationsByBoardId "" ;;
  match find_notification notifId userId allNotifications with
  | None => ret (notFound "Notification not found")
  | Some foundNotif =>
      let foundBoardId := Notification.boardId foundNotif in
      deleteNotification foundBoardId notifId ;;;
      ret noContent
  end.

(** ** The routes of src/main.ts

    The routes of the auth, boards, logs and notify routers, which answer
    with the envelope of src/utils/response.ts; the export router, whose
    routes answer files, is not among them.  A request names its endpoint
    with the path parameters and the parsed body, and carries its
    [Authorization] header.  [Env] holds what the handler reads from outside
    during the request. *)

Inductive Endpoint :=
| POST_register (b : Credentials)
| POST_login (b : Credentials)
| GET_me
| POST_logout
| GET_boards
| GET_boards_id (id : string)
| POST_boards (b : BoardFields)
| PUT_boards_id (id : string) (b : BoardFields)
| DELETE_boards_id (id : string)
| GET_public (boardId : string)
| GET_logs (boardId : string)
| GET_logs_date (boardId date : string)
| POST_logs (b : LogFields)
| DELETE_logs_id (id : string)
| GET_notify (boardId : string)
| POST_notify (b : NotifyFields)
| PATCH_notify_dismiss (id : string)
| DELETE_notify_id (id : string).

Record Request := mkRequest {
  authorization : option string;
  endpoint : Endpoint
}.

Record Env := mkEnv {
  date_now : Z;
  new_id : string;
  iso_now1 : string;
  iso_now2 : string;
  salt : string
}.

(** The endpoints registered with [authMiddleware]. *)
Definition owner_scoped (e : Endpoint) : bool :=
  match e with
  | POST_register _ | POST_login _ | GET_public _ => false
  | _ => true
  end.

Section Router.
Context {L : Lib}.

Definition handle (env : Env) (req : Request) : M Response :=
  let auth := authMiddleware (date_now env) (authorization req) in
  match endpoint req with
  | POST_register b =>
      post_api_register (new_id env) (salt env) (iso_now1 env) b
  | POST_login b => post_api_login (date_now env) b
  | GET_me => auth (fun userId _ => get_api_me userId)
  | POST_logout => auth (fun _ _ => post_api_logout)
  | GET_boards => auth (fun userId _ => get_api_boards userId)
  | GET_boards_id id => auth (fun userId _ => get_api_boards_id userId id)
  | POST_boards b =>
      auth (fun userId _ =>
              post_api_boards (new_id env) (iso_now1 env) userId b)
  | PUT_boards_id id b =>
      auth (fun userId _ => put_api_boards_id (iso_now1 env) userId id b)
  | DELETE_boards_id id =>
      auth (fun userId _ => delete_api_boards_id userId id)
  | GET_public boardId => get_api_public_boardId boardId
  | GET_logs boardId => auth (fun userId _ => get_api_logs_boardId userId boardId)
  | GET_logs_date boardId date =>
      auth (fun userId _ => get_api_logs_boardId_date userId boardId date)
  | POST_logs b =>
      auth (fun userId _ =>
              post_api_logs (new_id env) (iso_now1 env) (iso_now2 env)
                userId b)
  | DELETE_logs_id id => auth (fun userId _ => delete_api_logs_id userId id)
  | GET_notify boardId =>
      auth (fun userId _ => get_api_notify_boardId userId boardId)
  | POST_notify b => auth (fun userId _ => post_api_notify (new_id env) userId b)
  | PATCH_notify_dismiss id =>
      auth (fun userId _ => patch_api_notify_id_dismiss userId id)
  | DELETE_notify_id id => auth (fun userId _ => delete_api_notify_id userId id)
  end.

End Router.

(** What the library documents of [verify] and [create]: [verify] throws on
    a token that does not decode, on one whose signature does not verify
    under the key and on one whose [exp] (in seconds) is in the past at
    [now] (in milliseconds), returns the payload otherwise, and [create]
    yields a well-formed token signed with the key. *)
Class DjwtContract (L : Lib) : Prop := {
  verify_malformed : forall tok k now m,
    djwt_decode tok = Thrown m -> exists m', djwt_verify tok k now = Thrown m';
  verify_forged : forall tok k now,
    signature_ok tok k = false -> exists m', djwt_verify tok k now = Thrown m';
  verify_expired : forall tok k now p,
    djwt_decode tok = Returned p -> (exp p * 1000 < now)%Z ->
    exists m', djwt_verify tok k now = Thrown m';
  verify_valid : forall tok k now p,
    djwt_decode tok = Returned p -> signature_ok tok k = true ->
    (now <= exp p * 1000)%Z ->
    djwt_verify tok k now = Returned p;
  create_valid : forall h p k tok,
    djwt_create h p k = Returned tok ->
    djwt_decode tok = Returned p /\ signature_ok tok k = true
}.

(** ** src/middleware/securityMiddleware.ts: rate limiting

    [rateLimitStore] is the module's [Map] from keys to entries, here the
    list of its pairs; an entry is shared with the map, so the increment of
    its count is seen by the next request.  The middleware reads the clock
    once, as [now]; the three [X-RateLimit-*] headers are the fields
    [limit], [remaining] and [reset] of the answer, the last one before its
    formatting as a date.  That formatting,
    [new Date(entry.resetTime).toISOString()], throws a [RangeError] when
    the reset time is no time a [Date] holds; the exception leaves the
    middleware after the count is incremented and the first two headers are
    set, before the limit is looked at and before [next()].

    Times, counts and the numbers of the options are whole numbers: the
    clock gives whole milliseconds, and the options are a count of
    milliseconds and a count of requests.  Within the range of [Date] the
    sums and differences the middleware takes of them are exact. *)

Module RateLimitEntry.
Record t := mk {
  count : Z;
  resetTime : Z
}.
End RateLimitEntry.

Definition RateLimitStore := list (string * RateLimitEntry.t).

Fixpoint map_get (key : string) (m : RateLimitStore)
  : option RateLimitEntry.t :=
  match m with
  | [] => None
  | (k, e) :: m' => if k =? key then Some e else map_get key m'
  end.

Fixpoint map_set (key : string) (e : RateLimitEntry.t) (m : RateLimitStore)
  : RateLimitStore :=
  match m with
  | [] => [(key, e)]
  | (k, e') :: m' =>
      if k =? key then (key, e) :: m' else (k, e') :: map_set key e m'
  end.

(** The periodic sweep: entries whose window is over are deleted. *)
Definition cleanup (now : Z) (m : RateLimitStore) : RateLimitStore :=
  filter (fun p => negb (RateLimitEntry.resetTime (snd p) <? now)%Z) m.

Record RateLimitOptions := mkRateLimitOptions {
  opt_windowMs : option Z;
  opt_maxRequests : option Z;
  opt_message : option string
}.

(** [v || d] for a number: zero is falsy. *)
Definition or_default_Z (v : option Z) (d : Z) : Z :=
  match v with
  | Some n => if (n =? 0)%Z then d else n
  | None => d
  end.

Definition windowMs (options : option RateLimitOptions) : Z :=
  or_default_Z (match options with
                | Some o => opt_windowMs o
                | None => None
                end) (15 * 60 * 1000).

Definition maxRequests (options : option RateLimitOptions) : Z :=
  or_default_Z (match options with
                | Some o => opt_maxRequests o
                | None => None
                end) 100.

Definition limitMessage (options : option RateLimitOptions) : string :=
  or_default (match options with
              | Some o => opt_message o
              | None => None
              end) "Too many requests, please try again later".

(** The address fields of a request the limiter looks at. *)
Record Client := mkClient {
  ip : option string;
  x_forwarded_for : option string;
  x_real_ip : option string
}.

Definition clientId (c : Client) : string :=
  match present (ip c), present (x_forwarded_for c),
        present (x_real_ip c) with
  | Some a, _, _ => a
  | None, Some a, _ => a
  | None, None, Some a => a
  | None, None, None => "unknown"
  end.

(** [Math.ceil(x / 1000)] for an integer [x]. *)
Definition ceil_seconds (x : Z) : Z := (- ((- x) / 1000))%Z.

(** The time values a [Date] holds, in milliseconds: [new Date(t)] is an
    invalid date for any other [t], and [toISOString] throws on it. *)
Definition valid_time (t : Z) : bool :=
  (Z.abs t <=? 8640000000000000)%Z.

Inductive Verdict :=
| Passed
| Limited (message : string) (retryAfter : Z)
| RangeError (message : string).

Record RateLimitAnswer := mkRateLimitAnswer {
  rl_store : RateLimitStore;
  rl_limit : Z;
  rl_remaining : Z;
  rl_reset : option Z;
  rl_verdict : Verdict
}.

(** [Passed] stands for [await next()], [Limited] for the 429 answer and
    [RangeError] for the exception of [toISOString], with which no
    [X-RateLimit-Reset] header is set. *)
Definition rateLimitMiddleware (options : option RateLimitOptions)
  (store : RateLimitStore) (now : Z) (c : Client) : RateLimitAnswer :=
  let key := "ratelimit:" ++ clientId c in
  let entry :=
    match map_get key store with
    | Some entry =>
        if (RateLimitEntry.resetTime entry <? now)%Z
        then RateLimitEntry.mk 0 (now + windowMs options)
        else entry
    | None => RateLimitEntry.mk 0 (now + windowMs options)
    end in
  let entry :=
    RateLimitEntry.mk (RateLimitEntry.count entry + 1)
      (RateLimitEntry.resetTime entry) in
  mkRateLimitAnswer
    (map_set key entry store)
    (maxRequests options)
    (Z.max 0 (maxRequests options - RateLimitEntry.count entry))
    (if valid_time (RateLimitEntry.resetTime entry)
     then Some (RateLimitEntry.resetTime entry)
     else None)
    (if valid_time (RateLimitEntry.resetTime entry)
     then
       if (maxRequests options <? RateLimitEntry.count entry)%Z
       then Limited (limitMessage options)
              (ceil_seconds (RateLimitEntry.resetTime entry - now))
       else Passed
     else RangeError "Invalid time value").

Definition authRateLimitMiddleware : RateLimitStore -> Z -> Client
                                     -> RateLimitAnswer :=
  rateLimitMiddleware
    (Some (mkRateLimitOptions (Some (15 * 60 * 1000)%Z) (Some 5%Z)
             (Some "Too many authentication attempts, please try again later"))).

(** The requests of one client at the given times, one after the other. *)
Fixpoint serve (options : option RateLimitOptions) (store : RateLimitStore)
  (c : Client) (times : list Z) : list Verdict * RateLimitStore :=
  match times with
  | [] => ([], store)
  | now :: later =>
      let a := rateLimitMiddleware options store now c in
      let (vs, store') := serve options (rl_store a) c later in
      (rl_verdict a :: vs, store')
  end.

Definition is_passed (v : Verdict) : bool :=
  match v with
  | Passed => true
  | Limited _ _ => false
  | RangeError _ => false
  end.

(** ** src/routes/export.ts: the name of the download

    [title.replace(/[^a-z0-9]/gi, "_")]: the pattern has no [u] flag, so
    the replacement goes by UTF-16 code unit, and every code unit that is
    not one of a-z, A-Z, 0-9 becomes an underscore (no code unit of 128 or
    more is matched by the case-insensitive range). *)

Definition is_alnum (c : ascii) : bool :=
  let n := nat_of_ascii c in
  ((48 <=? n) && (n <=? 57) || (65 <=? n) && (n <=? 90)
   || (97 <=? n) && (n <=? 122))%nat.

Definition replace_unit (u : CodeUnit) : ascii :=
  match u with
  | Basic c => if is_alnum c then c else "_"%char
  | Other => "_"%char
  end.

Definition replace_non_alnum (title : string) : string :=
  string_of_list_ascii (map replace_unit (code_units title)).

Definition markdown_filename (title : string) : string :=
  replace_non_alnum title ++ ".md".

Definition csv_filename (title : string) : string :=
  replace_non_alnum title ++ "_logs.csv".

(** ** Vocabulary of the properties *)

(** What a client reads in an answer: the status with the envelope of a
    success and its data, or the status with the envelope of an error and
    its message. *)
Definition answers_data (r : Response) (code : Z) (d : Data) : Prop :=
  status r = code /\ body r = Some (mkApi true (Some d) None).

Definition answers_error (r : Response) (code : Z) (message : string)
  : Prop :=
  status r = code /\ body r = Some (mkApi false None (Some message)).

(** A request the middleware turns away: no [Authorization] header, one without
    the [Bearer ] prefix, or one whose token [verifyToken] rejects. *)
Definition turned_away {L : Lib} (now : Z) (authHeader : option string)
  : Prop :=
  authHeader = None
  \/ (exists h, authHeader = Some h /\ String.prefix "Bearer " h = false)
  \/ (exists h, authHeader = Some h /\
        verifyToken now (substring 7 (String.length h - 7) h)
        = Returned None).

(** The boards a scan of the whole board keyspace yields, every owner
    included. *)
Definition stored_boards (s : Store) : list Board.t :=
  values_as as_board (store_list ["board"] s).

(** No two stored boards share an id. *)
Definition unique_board_ids (s : Store) : Prop :=
  forall b1 b2,
    In b1 (stored_boards s) -> In b2 (stored_boards s) ->
    Board.id b1 = Board.id b2 -> b1 = b2.

Definition is_public (boardId : string) (b : Board.t) : bool :=
  (Board.id b =? boardId) && (Board.visibility b =? "public").

(** The notifications the bare-id handlers search: those of the scan with
    the empty string as board id. *)
Definition searched_notifications (s : Store) : list Notification.t :=
  values_as as_notification (store_list ["notif"; ""] s).

(** The stores the server can be in: the empty one, and the store after any
    request handled, from the start of its handler to its end, from a store
    it can be in. *)
Inductive reachable {L : Lib} : Store -> Prop :=
| reachable_empty : reachable []
| reachable_step s env req :
    reachable s -> reachable (kv (snd (run (handle env req) s))).

(** An id that no stored board has, as [generateId()] yields. *)
Definition fresh_board_id (s : Store) (id : string) : Prop :=
  forall b, In b (stored_boards s) -> Board.id b <> id.

(** The stores the server can be in when the ids it generates are fresh. *)
Inductive reachable_fresh {L : Lib} : Store -> Prop :=
| reachable_fresh_empty : reachable_fresh []
| reachable_fresh_step s env req :
    reachable_fresh s ->
    fresh_board_id s (new_id env) ->
    reachable_fresh (kv (snd (run (handle env req) s))).

(** Well-formedness of the board keyspace: keys are not repeated, an entry
    under ["board"] is a board stored under its owner and its id, and no two
    such entries share a board id. *)
Definition under_board (k : KvKey) : Prop := starts_with ["board"] k = true.

Definition board_key (b : Board.t) : KvKey :=
  ["board"; Board.userId b; Board.id b].

Record boards_wf (s : Store) : Prop := mk_boards_wf {
  wf_keys : NoDup (map fst s);
  wf_entries : forall k v,
    In (k, v) s -> under_board k -> exists b, v = VBoard b /\ k = board_key b;
  wf_ids : forall k1 b1 k2 b2,
    In (k1, VBoard b1) s -> In (k2, VBoard b2) s ->
    under_board k1 -> under_board k2 ->
    Board.id b1 = Board.id b2 -> k1 = k2
}.

(** The endpoints that only read: the GET routes, login and logout. *)
Definition read_only (e : Endpoint) : bool :=
  match e with
  | POST_login _ | GET_me | POST_logout | GET_boards | GET_boards_id _
  | GET_public _ | GET_logs _ | GET_logs_date _ _ | GET_notify _ => true
  | _ => false
  end.

Definition is_read_call (c : KvCall) : bool :=
  match c with
  | CallGet _ | CallList _ => true
  | _ => false
  end.

(** The envelope of a response agrees with its status: no body with 204,
    [success: true] with [data] and no [error] under 200 or 201,
    [success: false] with [error] and no [data] under a status from 400. *)
Definition envelope_ok (r : Response) : bool :=
  match body r with
  | None => (status r =? 204)%Z
  | Some (mkApi true (Some _) None) =>
      ((status r =? 200) || (status r =? 201))%Z
  | Some (mkApi false None (Some _)) => (400 <=? status r)%Z
  | _ => false
  end.

(** The identity [authMiddleware] puts in [ctx.state] for a request, if it
    lets the request through. *)
Definition identity {L : Lib} (now : Z) (authHeader : option string)
  : option string :=
  match present authHeader with
  | None => None
  | Some h =>
      if String.prefix "Bearer " h
      then match verifyToken now (substring 7 (String.length h - 7) h) with
           | Returned (Some payload) => Some (userId payload)
           | _ => None
           end
      else None
  end.

(** The changes a request can make to the store: [effect actor nid s s']
    when [s'] is [s], or [s] after a registration (the new user and its
    username index entry), or [s] after one write made for the identity
    [actor], with [nid] the id drawn for the request. *)
Inductive effect (actor : option string) (nid : string) (s : Store)
  : Store -> Prop :=
| eff_none : effect actor nid s s
| eff_register u :
    User.id u = nid ->
    User.username u <> "" ->
    user_by_username s (User.username u) = None ->
    effect actor nid s
      (store_set ["user_by_username"; User.username u] (VString nid)
         (store_set ["user"; nid] (VUser u) s))
| eff_board_create owner b :
    actor = Some owner ->
    Board.id b = nid -> Board.userId b = owner ->
    effect actor nid s (store_set ["board"; owner; nid] (VBoard b) s)
| eff_board_update owner id old b :
    actor = Some owner ->
    board_at s owner id = Some old ->
    Board.id b = Board.id old -> Board.userId b = Board.userId old ->
    Board.createdAt b = Board.createdAt old ->
    effect actor nid s (store_set ["board"; owner; id] (VBoard b) s)
| eff_board_delete owner id old :
    actor = Some owner ->
    board_at s owner id = Some old ->
    effect actor nid s (store_delete ["board"; owner; id] s)
| eff_log_create owner board b d l :
    actor = Some owner ->
    board_at s owner b = Some board -> b <> "" ->
    log_at s b d = None ->
    Log.id l = nid -> Log.boardId l = b -> Log.userId l = owner ->
    Log.date l = d ->
    effect actor nid s (store_set ["log"; b; d] (VLog l) s)
| eff_log_update owner board b d old l :
    actor = Some owner ->
    board_at s owner b = Some board -> b <> "" ->
    log_at s b d = Some old ->
    Log.id l = Log.id old -> Log.boardId l = Log.boardId old ->
    Log.userId l = Log.userId old -> Log.date l = Log.date old ->
    effect actor nid s (store_set ["log"; b; d] (VLog l) s)
| eff_log_delete owner board l :
    actor = Some owner ->
    board_at s owner (Log.boardId l) = Some board ->
    effect actor nid s
      (store_delete ["log"; Log.boardId l; Log.date l] s)
| eff_notif_create owner board b n :
    actor = Some owner ->
    board_at s owner b = Some board -> b <> "" ->
    Notification.id n = nid -> Notification.boardId n = b ->
    Notification.userId n = owner -> Notification.dismissed n = false ->
    effect actor nid s (store_set ["notif"; b; nid] (VNotification n) s)
| eff_notif_dismiss owner n :
    actor = Some owner ->
    In n (searched_notifications s) -> Notification.userId n = owner ->
    effect actor nid s
      (store_set ["notif"; Notification.boardId n; Notification.id n]
         (VNotification (dismiss n)) s)
| eff_notif_delete owner n :
    actor = Some owner ->
    In n (searched_notifications s) -> Notification.userId n = owner ->
    effect actor nid s
      (store_delete ["notif"; Notification.boardId n; Notification.id n] s).

(** The identity a request acts for. *)
Definition actor_of {L : Lib} (env : Env) (req : Request) : option string :=
  if owner_scoped (endpoint req)
  then identity (date_now env) (authorization req)
  else None.

(** An id that no stored user has, as [generateId()] yields. *)
Definition fresh_user_id (s : Store) (id : string) : Prop :=
  id <> "" /\ store_get ["user"; id] s = None.

(** The stores the server can be in when it handles its requests one after
    the other, each handler run from its start to its end before the next
    one starts, and the ids it generates are fresh among users. *)
Inductive reachable_users {L : Lib} : Store -> Prop :=
| reachable_users_empty : reachable_users []
| reachable_users_step s env req :
    reachable_users s ->
    fresh_user_id s (new_id env) ->
    reachable_users (kv (snd (run (handle env req) s))).

(** Consistency of users and the username index: an index entry names the
    id of a stored user with that username, and every stored user is the
    one its username is indexed to. *)
Record users_wf (s : Store) : Prop := mk_users_wf {
  index_points : forall name v,
    store_get ["user_by_username"; name] s = Some v ->
    exists u, v = VString (User.id u) /\ User.id u <> "" /\
              store_get ["user"; User.id u] s = Some (VUser u) /\
              User.username u = name;
  users_indexed : forall id v,
    store_get ["user"; id] s = Some v ->
    exists u, v = VUser u /\ User.id u = id /\
              store_get ["user_by_username"; User.username u] s
              = Some (VString id)
}.

(** Logs and notifications lie under the keys their own fields name. *)
Definition entries_keyed (s : Store) : Prop :=
  (forall boardId date log,
     log_at s boardId date = Some log ->
     Log.boardId log = boardId /\ Log.date log = date) /\
  (forall boardId notifId n,
     notification_at s boardId notifId = Some n ->
     Notification.boardId n = boardId /\ Notification.id n = notifId).

(** ** A small instance of the libraries

    Tokens are [userId.username.bits.key] with [exp] in binary digits and the
    key in place of the signature; password hashes are the password behind a
    fixed tag.  The instance serves to run the handlers on concrete
    requests. *)

Module Toy.

Fixpoint no_dot (s : string) : bool :=
  match s with
  | EmptyString => true
  | String c r => negb (Ascii.eqb c ".") && no_dot r
  end.

Fixpoint split_dot (s : string) : option (string * string) :=
  match s with
  | EmptyString => None
  | String c r =>
      if Ascii.eqb c "." then Some (EmptyString, r)
      else match split_dot r with
           | Some (a, b) => Some (String c a, b)
           | None => None
           end
  end.

Fixpoint bits (p : positive) : string :=
  match p with
  | xH => EmptyString
  | xO q => String "0" (bits q)
  | xI q => String "1" (bits q)
  end.

Fixpoint unbits (s : string) : option positive :=
  match s with
  | EmptyString => Some xH
  | String c r =>
      match unbits r with
      | None => None
      | Some q =>
          if Ascii.eqb c "0" then Some (xO q)
          else if Ascii.eqb c "1" then Some (xI q)
          else None
      end
  end.

Definition encode (p : JWTPayload) (k : string) : string :=
  userId p ++ "." ++ username p ++ "." ++ bits (Z.to_pos (exp p + 1))
    ++ "." ++ k.

Definition parse (tok : string) : option (JWTPayload * string) :=
  match split_dot tok with
  | None => None
  | Some (u, r1) =>
      match split_dot r1 with
      | None => None
      | Some (n, r2) =>
          match split_dot r2 with
          | None => None
          | Some (e, k) =>
              match unbits e with
              | Some q => Some (mkPayload u n (Z.pos q - 1), k)
              | None => None
              end
          end
      end
  end.

Definition create (h : string * string) (p : JWTPayload) (k : string)
  : Outcome string :=
  if no_dot (userId p) && no_dot (username p) && (0 <=? exp p)%Z
  then Returned (encode p k)
  else Thrown "unsupported payload".

Definition decode (tok : string) : Outcome JWTPayload :=
  match parse tok with
  | Some (p, _) => Returned p
  | None => Thrown "The serialization of the jwt is invalid."
  end.

Definition sig_ok (tok k : string) : bool :=
  match parse tok with
  | Some (_, k') => k' =? k
  | None => false
  end.

Definition verify (tok k : string) (now : Z) : Outcome JWTPayload :=
  match parse tok with
  | None => Thrown "The serialization of the jwt is invalid."
  | Some (p, k') =>
      if (exp p * 1000 <? now)%Z then Thrown "The jwt is expired."
      else if k' =? k then Returned p
      else Thrown "The jwt's signature does not match."
  end.

Definition lib : Lib := {|
  CryptoKey := string;
  env_JWT_SECRET := None;
  importKey := fun raw => Returned raw;
  bcrypt_hashSync := fun _ password => "$2a$" ++ password;
  bcrypt_compareSync := fun password hash => hash =? "$2a$" ++ password;
  djwt_create := create;
  djwt_verify := verify;
  djwt_decode := decode;
  signature_ok := sig_ok
|}.

End Toy.

(** ** Concrete requests

    Two users, a board of the first one, and the stores reached from the
    empty store by the handlers. *)

Module Scenario.

Definition alice : string := "u-alice".
Definition bob : string := "u-bob".

Definition board_fields : BoardFields :=
  mkBoardFields (Some "Morning") (Some "- [ ] run") None None None.

(** Alice creates a board; its id is ["b-1"]. *)
Definition store1 : Store :=
  kv (snd (run (post_api_boards "b-1" "2024-05-01T08:00:00.000Z" alice
                  board_fields) [])).

Definition board1 : Board.t :=
  Board.mk "b-1" alice "Morning" "- [ ] run" "private" "daily" "00:00"
    "2024-05-01T08:00:00.000Z" "2024-05-01T08:00:00.000Z".

(** Alice adds a notification to the board; its id is ["n-1"]. *)
Definition store2 : Store :=
  kv (snd (run (post_api_notify "n-1" alice
                  (mkNotifyFields (Some "b-1") (Some "drink water")
                     (Some "09:00"))) store1)).

Definition check_run : LogAction.t :=
  LogAction.mk "check" (Some "run") "2024-05-01T08:05:00.000Z".

Definition done_all : LogAction.t :=
  LogAction.mk "done" None "2024-05-01T08:30:00.000Z".

(** Alice posts a first log for the board on 2024-05-01; its id is
    ["l-1"]. *)
Definition store3 : Store :=
  kv (snd (run (post_api_logs "l-1" "2024-05-01T08:05:01.000Z"
                  "2024-05-01T08:05:02.000Z" alice
                  (mkLogFields (Some "b-1") (Some [check_run])
                     (Some "2024-05-01"))) store2)).

(** Alice makes the board public. *)
Definition store1_public : Store :=
  kv (snd (run (put_api_boards_id "2024-05-02T10:00:00.000Z" alice "b-1"
                  (mkBoardFields None None (Some "public") None None))
             store1)).

Definition board1_public : Board.t :=
  Board.mk "b-1" alice "Morning" "- [ ] run" "public" "daily" "00:00"
    "2024-05-01T08:00:00.000Z" "2024-05-02T10:00:00.000Z".

(** Alice registers with the libraries of [Toy]. *)
Definition alice_credentials : Credentials :=
  mkCredentials (Some "alice") (Some "correct horse").

Definition store_users : Store :=
  kv (snd (run (@post_api_register Toy.lib alice "salt-1"
                  "2024-04-30T20:00:00.000Z" alice_credentials) [])).

Definition alice_user : User.t :=
  User.mk alice "alice" "$2a$correct horse" "2024-04-30T20:00:00.000Z".

(** Bob creates a board of his own; its id is ["b-2"]. *)
Definition bob_fields : BoardFields :=
  mkBoardFields (Some "Evening") (Some "- [ ] read") (Some "public") None
    None.

Definition store_two : Store :=
  kv (snd (run (post_api_boards "b-2" "2024-05-01T19:00:00.000Z" bob
                  bob_fields) store1)).

Definition board2 : Board.t :=
  Board.mk "b-2" bob "Evening" "- [ ] read" "public" "daily" "00:00"
    "2024-05-01T19:00:00.000Z" "2024-05-01T19:00:00.000Z".

(** The token the login of Alice issues at [issued_at]. *)
Definition issued_at : Z := 1714550400000.

Definition alice_token : string :=
  match @generateToken Toy.lib issued_at alice "alice" with
  | Returned token => token
  | Thrown _ => ""
  end.

Definition bob_token : string :=
  match @generateToken Toy.lib issued_at bob "bob" with
  | Returned token => token
  | Thrown _ => ""
  end.

End Scenario.

(** * Properties *)

(** ** Code units *)

Lemma code_units_continuation c rest pending :
  is_continuation c = true ->
  code_units_from (S pending) (String c rest) = code_units_from pending rest.
Proof.
  unfold is_continuation. cbv zeta. intros H.
  apply andb_true_iff in H as [H1 H2]. apply Nat.leb_le in H1.
  cbn [code_units_from]. cbv zeta.
  assert ((nat_of_ascii c <? 128)%nat = false) as ->
    by (apply Nat.ltb_ge; exact H1).
  now rewrite H2.
Qed.

Lemma code_units_bound n :
  forall s pending,
    (String.length s <= n)%nat ->
    (List.length (code_units_from pending s) <= String.length s)%nat.
Proof.
  induction n as [|n IH]; intros s pending Hn.
  - destruct s; simpl in *; lia.
  - destruct s as [|c rest]; [simpl; lia|].
    cbn [String.length] in Hn.
    assert (forall k,
              (List.length (code_units_from k rest) <= String.length rest)%nat)
      as Rest by (intros k; apply IH; lia).
    cbn [code_units_from String.length]. cbv zeta.
    destruct (nat_of_ascii c <? 128)%nat;
      [cbn [List.length]; apply le_n_S, Rest|].
    destruct (nat_of_ascii c <? 192)%nat.
    { destruct pending; cbn [List.length];
        [apply le_n_S, Rest | apply Nat.le_le_succ_r, Rest]. }
    destruct (nat_of_ascii c <? 224)%nat;
      [cbn [List.length]; apply le_n_S, Rest|].
    destruct (nat_of_ascii c <? 240)%nat;
      [cbn [List.length]; apply le_n_S, Rest|].
    destruct (nat_of_ascii c <? 248)%nat;
      [|cbn [List.length]; apply le_n_S, Rest].
    destruct rest as [|c' r]; [simpl; lia|].
    destruct (is_continuation c') eqn:E;
      [|cbn [List.length]; apply le_n_S, Rest].
    rewrite (@code_units_continuation c' r 2 E).
    cbn [List.length String.length] in *.
    do 2 apply le_n_S. apply IH. lia.
Qed.

(** A string has no more code units than its encoding has bytes. *)
Lemma js_length_le s : (js_length s <= String.length s)%nat.
Proof.
  unfold js_length, code_units. now apply (@code_units_bound (String.length s)).
Qed.

(** ** The store *)

Lemma string_compare_refl (x : string) : String.compare x x = Eq.
Proof.
  pose proof (String.compare_antisym x x) as H.
  destruct (String.compare x x); simpl in H; congruence.
Qed.

Lemma key_compare_eq_iff (a b : KvKey) : key_compare a b = Eq <-> a = b.
Proof.
  revert b; induction a as [|x a IH]; intros [|y b]; simpl;
    try (split; [discriminate | discriminate]); [tauto|].
  destruct (String.compare x y) eqn:E.
  - apply String.compare_eq_iff in E; subst y.
    rewrite IH; split; [intros ->; reflexivity | intros H; now inversion H].
  - split; [discriminate|]. intros H; inversion H; subst.
    rewrite string_compare_refl in E. discriminate.
  - split; [discriminate|]. intros H; inversion H; subst.
    rewrite string_compare_refl in E. discriminate.
Qed.

Lemma key_eqb_eq (a b : KvKey) : key_eqb a b = true <-> a = b.
Proof.
  unfold key_eqb. rewrite <- key_compare_eq_iff.
  destruct (key_compare a b); split; congruence.
Qed.

Lemma key_eqb_refl (a : KvKey) : key_eqb a a = true.
Proof. now apply key_eqb_eq. Qed.

Lemma key_eqb_neq (a b : KvKey) : key_eqb a b = false <-> a <> b.
Proof.
  rewrite <- key_eqb_eq. destruct (key_eqb a b); split; congruence.
Qed.

Lemma key_compare_Gt_neq (a b : KvKey) : key_compare a b = Gt -> a <> b.
Proof.
  intros H E. apply key_compare_eq_iff in E. congruence.
Qed.

Lemma store_get_insert_same k v s : store_get k (store_insert k v s) = Some v.
Proof.
  induction s as [|[k' v'] s IH]; simpl.
  - now rewrite key_eqb_refl.
  - destruct (key_compare k k') eqn:E; simpl.
    + now rewrite key_eqb_refl.
    + now rewrite key_eqb_refl.
    + apply key_compare_Gt_neq, key_eqb_neq in E. now rewrite E.
Qed.

Lemma store_get_insert_other k k' v s :
  k <> k' -> store_get k' (store_insert k v s) = store_get k' s.
Proof.
  intros N. assert (key_eqb k' k = false) as F
    by (apply key_eqb_neq; congruence).
  induction s as [|[k1 v1] s IH]; simpl.
  - now rewrite F.
  - destruct (key_compare k k1); simpl; rewrite ?F; try reflexivity.
    now rewrite IH.
Qed.

Lemma store_get_delete_same k s : store_get k (store_delete k s) = None.
Proof.
  unfold store_delete.
  induction s as [|[k' v'] s IH]; simpl; [reflexivity|].
  destruct (key_eqb k k') eqn:E; simpl; [exact IH|].
  now rewrite E.
Qed.

Lemma store_get_delete_other k k' s :
  k <> k' -> store_get k' (store_delete k s) = store_get k' s.
Proof.
  intros N. unfold store_delete.
  induction s as [|[k1 v1] s IH]; simpl; [reflexivity|].
  destruct (key_eqb k k1) eqn:E; simpl.
  - apply key_eqb_eq in E; subst k1.
    assert (key_eqb k' k = false) as F by (apply key_eqb_neq; congruence).
    now rewrite F.
  - now rewrite IH.
Qed.

Lemma store_get_set_same k v s : store_get k (store_set k v s) = Some v.
Proof. apply store_get_insert_same. Qed.

Lemma store_get_set_other k k' v s :
  k <> k' -> store_get k' (store_set k v s) = store_get k' s.
Proof.
  intros N. unfold store_set.
  rewrite store_get_insert_other by assumption.
  now apply store_get_delete_other.
Qed.

Lemma store_count_insert k k' v s :
  store_count k' (store_insert k v s)
  = ((if key_eqb k' k then 1 else 0) + store_count k' s)%nat.
Proof.
  unfold store_count.
  induction s as [|[k1 v1] s IH]; simpl.
  - now destruct (key_eqb k' k).
  - destruct (key_compare k k1); simpl.
    + now destruct (key_eqb k' k), (key_eqb k' k1).
    + now destruct (key_eqb k' k), (key_eqb k' k1).
    + destruct (key_eqb k' k1); simpl; rewrite IH; lia.
Qed.

Lemma store_count_delete_same k s : store_count k (store_delete k s) = 0%nat.
Proof.
  unfold store_count, store_delete.
  induction s as [|[k1 v1] s IH]; simpl; [reflexivity|].
  destruct (key_eqb k k1) eqn:E; simpl; [exact IH|].
  now rewrite E.
Qed.

Lemma store_count_delete_other k k' s :
  k <> k' -> store_count k' (store_delete k s) = store_count k' s.
Proof.
  intros N. unfold store_count, store_delete.
  induction s as [|[k1 v1] s IH]; simpl; [reflexivity|].
  destruct (key_eqb k k1) eqn:E; simpl.
  - apply key_eqb_eq in E; subst k1.
    assert (key_eqb k' k = false) as F by (apply key_eqb_neq; congruence).
    now rewrite F.
  - destruct (key_eqb k' k1); simpl; now rewrite IH.
Qed.

(** After a [set] the key holds one entry, whatever it held before. *)
Lemma store_count_set_same k v s : store_count k (store_set k v s) = 1%nat.
Proof.
  unfold store_set.
  now rewrite store_count_insert, key_eqb_refl, store_count_delete_same.
Qed.

Lemma store_count_set_other k k' v s :
  k <> k' -> store_count k' (store_set k v s) = store_count k' s.
Proof.
  intros N. unfold store_set. rewrite store_count_insert.
  assert (key_eqb k' k = false) as F by (apply key_eqb_neq; congruence).
  rewrite F. now apply store_count_delete_other.
Qed.

Lemma store_get_In k v s : store_get k s = Some v -> In (k, v) s.
Proof.
  induction s as [|[k' v'] s IH]; simpl; [discriminate|].
  destruct (key_eqb k k') eqn:E.
  - apply key_eqb_eq in E; subst k'. intros H; inversion H; now left.
  - intros H; right; now apply IH.
Qed.

Lemma store_list_In p e s :
  In e (store_list p s) <-> In e s /\ starts_with p (fst e) = true.
Proof. unfold store_list. apply filter_In. Qed.

(** ** Running the accessors *)

Ltac run_kv :=
  unfold run, getUserById, getUserByUsername, setUser, getBoard,
    getBoardsByUserId, setBoard, deleteBoard, getPublicBoard, getLog,
    getLogsByBoardId, setLog, deleteLog, getNotification,
    getNotificationsByBoardId, setNotification, deleteNotification,
    bind, ret, kv_get, kv_set, kv_delete, kv_list; simpl.

Lemma present_truthy v : truthy v = true -> exists s, present v = Some s /\ v = Some s.
Proof.
  destruct v as [s|]; simpl; [|discriminate].
  destruct (s =? ""); simpl; [discriminate|]. intros _. now exists s.
Qed.

Lemma or_default_truthy v d s : present v = Some s -> or_default v d = s.
Proof.
  destruct v as [x|]; simpl; [|discriminate].
  destruct (x =? ""); [discriminate|]. now intros [= ->].
Qed.

Lemma or_default_falsy v d : truthy v = false -> or_default v d = d.
Proof.
  destruct v as [x|]; simpl; [|reflexivity].
  now destruct (x =? "").
Qed.

Lemma getBoard_run userId boardId w :
  getBoard userId boardId w
  = (board_at (kv w) userId boardId,
     mkWorld (kv w) (calls w ++ [CallGet ["board"; userId; boardId]])).
Proof. reflexivity. Qed.

(** ** Boards: creation, reading and update *)

(** C8. Creating a board from a payload with a title and a markdown body
    answers 201 with the new board as the data of the answer; its
    [createdAt] and [updatedAt] are the time of creation and it is the board
    stored for the owner under its id.  Reading it back by its id as the
    same owner answers 200 with, as the data of the answer, a board equal to
    the created one in every field, and the read leaves the store as it
    was. *)
Theorem board_create_get_roundtrip :
  forall (s : Store) (id now userId : string) (b : BoardFields),
    truthy (bf_title b) = true ->
    truthy (bf_markdown b) = true ->
    let made := run (post_api_boards id now userId b) s in
    exists board,
      fst made = created (DBoard board) /\
      Board.id board = id /\
      Board.userId board = userId /\
      bf_title b = Some (Board.title board) /\
      bf_markdown b = Some (Board.markdown board) /\
      Board.visibility board = or_default (bf_visibility b) "private" /\
      Board.schedule board = or_default (bf_schedule b) "daily" /\
      Board.resetTime board = or_default (bf_resetTime b) "00:00" /\
      Board.createdAt board = now /\
      Board.updatedAt board = now /\
      let read := run (get_api_boards_id userId (Board.id board))
                      (kv (snd made)) in
      fst read = success (DBoard board) /\
      kv (snd read) = kv (snd made) /\
      status (fst made) = 201%Z /\
      body (fst made) = Some (mkApi true (Some (DBoard board)) None) /\
      board_at (kv (snd made)) userId id = Some board /\
      status (fst read) = 200%Z /\
      body (fst read) = Some (mkApi true (Some (DBoard board)) None) /\
      forall board',
        api_data_of (fst read) = Some (DBoard board') ->
        board' = Board.mk id userId (Board.title board)
                   (Board.markdown board)
                   (or_default (bf_visibility b) "private")
                   (or_default (bf_schedule b) "daily")
                   (or_default (bf_resetTime b) "00:00") now now.
Proof.
  intros s id now uid b Ht Hm made.
  destruct (present_truthy _ Ht) as (title & Pt & Et).
  destruct (present_truthy _ Hm) as (markdown & Pm & Em).
  subst made. unfold post_api_boards. rewrite Pt, Pm.
  eexists. split; [run_kv; reflexivity|].
  repeat (split; [solve [reflexivity | assumption]|]).
  cbv zeta. unfold get_api_boards_id. run_kv.
  unfold board_at.
  rewrite store_get_set_same. simpl.
  repeat (split; [reflexivity|]).
  intros board' H. injection H as <-. reflexivity.
Qed.

(** The round trip on a concrete payload: the board Alice reads back. *)
Lemma board_create_get_roundtrip_witness :
  let made := run (post_api_boards "b-1" "2024-05-01T08:00:00.000Z"
                     Scenario.alice Scenario.board_fields) [] in
  let read := run (get_api_boards_id Scenario.alice "b-1") (kv (snd made)) in
  status (fst made) = 201%Z /\
  body (fst made) = Some (mkApi true (Some (DBoard Scenario.board1)) None) /\
  status (fst read) = 200%Z /\
  body (fst read) = Some (mkApi true (Some (DBoard Scenario.board1)) None).
Proof.
  intros made read.
  destruct (@board_create_get_roundtrip [] "b-1" "2024-05-01T08:00:00.000Z"
              Scenario.alice Scenario.board_fields eq_refl eq_refl)
    as (board & _ & Hid & _ & _ & _ & _ & _ & _ & _ & _ & _ & _ & H1 & H2
        & Hat & H3 & H4 & _).
  fold made in H1, H2, Hat, H3, H4. rewrite Hid in H3, H4. fold read in H3, H4.
  assert (board_at (kv (snd made)) Scenario.alice "b-1"
          = Some Scenario.board1) as E by (vm_compute; reflexivity).
  rewrite E in Hat. injection Hat as <-.
  repeat split; assumption.
Defined.

(** C9. Updating an existing board of the caller answers 200 with the
    stored board in which [id], [userId] and [createdAt] are those of the
    board before, every updatable field that is absent or falsy in the body
    keeps its value, every one that is present takes the value of the body,
    and [updatedAt] is the time of the update; the store holds that board
    under the same key. *)
Theorem board_update_frame :
  forall (s : Store) (now userId boardId : string) (b : BoardFields)
         (board : Board.t),
    board_at s userId boardId = Some board ->
    let upd := run (put_api_boards_id now userId boardId b) s in
    exists board',
      fst upd = success (DBoard board') /\
      board_at (kv (snd upd)) userId boardId = Some board' /\
      Board.id board' = Board.id board /\
      Board.userId board' = Board.userId board /\
      Board.createdAt board' = Board.createdAt board /\
      (truthy (bf_title b) = false ->
       Board.title board' = Board.title board) /\
      (truthy (bf_markdown b) = false ->
       Board.markdown board' = Board.markdown board) /\
      (truthy (bf_visibility b) = false ->
       Board.visibility board' = Board.visibility board) /\
      (truthy (bf_schedule b) = false ->
       Board.schedule board' = Board.schedule board) /\
      (truthy (bf_resetTime b) = false ->
       Board.resetTime board' = Board.resetTime board) /\
      (forall v, present (bf_title b) = Some v -> Board.title board' = v) /\
      (forall v, present (bf_markdown b) = Some v ->
                 Board.markdown board' = v) /\
      (forall v, present (bf_visibility b) = Some v ->
                 Board.visibility board' = v) /\
      (forall v, present (bf_schedule b) = Some v ->
                 Board.schedule board' = v) /\
      (forall v, present (bf_resetTime b) = Some v ->
                 Board.resetTime board' = v) /\
      Board.updatedAt board' = now.
Proof.
  intros s now uid bid b board Hb upd.
  exists (updatedBoard board b now). subst upd.
  unfold put_api_boards_id, run, bind. rewrite getBoard_run. simpl.
  rewrite Hb. split; [reflexivity|].
  split.
  { run_kv. unfold board_at. now rewrite store_get_set_same. }
  unfold updatedBoard; simpl.
  repeat split; auto using or_default_falsy, or_default_truthy.
Qed.

(** An update that sends only a new title, on the board of the scenario. *)
Lemma board_update_frame_witness :
  exists board',
    fst (run (put_api_boards_id "2024-05-02T10:00:00.000Z" Scenario.alice
                "b-1" (mkBoardFields (Some "Evening") None (Some "") None
                         None)) Scenario.store1)
    = success (DBoard board') /\
    Board.title board' = "Evening" /\
    Board.visibility board' = "private" /\
    Board.createdAt board' = "2024-05-01T08:00:00.000Z" /\
    Board.updatedAt board' = "2024-05-02T10:00:00.000Z".
Proof.
  destruct (@board_update_frame Scenario.store1 "2024-05-02T10:00:00.000Z"
              Scenario.alice "b-1"
              (mkBoardFields (Some "Evening") None (Some "") None None)
              Scenario.board1 eq_refl)
    as (board' & H1 & _ & _ & _ & Hc & _ & _ & Hv & _ & _ & Ht & _ & _ & _
        & _ & Hu).
  exists board'. split; [exact H1|].
  split; [exact (Ht "Evening" eq_refl)|].
  split; [exact (Hv eq_refl)|].
  split; [exact Hc | exact Hu].
Defined.

(** ** Logs: upsert by board and date *)

(** The store after a log upsert that passed the ownership check. *)
Lemma post_api_logs_store s id now1 now2 userId boardId actions date board :
  boardId <> "" ->
  board_at s userId boardId = Some board ->
  let d := logDate date now1 in
  let written :=
    match log_at s boardId d with
    | Some existingLog => updatedLog existingLog actions now2
    | None => Log.mk id boardId userId d now2 actions
    end in
  let r := run (post_api_logs id now1 now2 userId
                  (mkLogFields (Some boardId) (Some actions) date)) s in
  fst r = (match log_at s boardId d with
           | Some _ => success (DLog written)
           | None => created (DLog written)
           end) /\
  kv (snd r) = store_set ["log"; boardId; d] (VLog written) s.
Proof.
  intros Hne Hb d written r. subst r written.
  unfold post_api_logs, run, bind; simpl.
  apply String.eqb_neq in Hne. rewrite Hne. simpl.
  unfold board_at in Hb. rewrite Hb. simpl. unfold log_at. fold d.
  destruct (as_log (store_get ["log"; boardId; d] s)) as [old|];
    split; reflexivity.
Qed.

(** C1. For a board of the caller, the upsert is keyed by the board and the
    date of the request (the date of the day when the body has none).  If
    no log is stored for that pair the answer is 201 with a new log that has
    the fresh id and the given actions; if one is stored the answer is 200
    with that log, its actions followed by the given ones and [completedAt]
    the current time.  Either way the store then holds exactly one entry for
    the pair, the log of the answer, and every other key is untouched. *)
Theorem log_upsert_by_board_and_date :
  forall (s : Store) (id now1 now2 userId boardId : string)
         (actions : list LogAction.t) (date : option string)
         (board : Board.t),
    boardId <> "" ->
    board_at s userId boardId = Some board ->
    let d := logDate date now1 in
    let r := run (post_api_logs id now1 now2 userId
                    (mkLogFields (Some boardId) (Some actions) date)) s in
    (forall x, present date = Some x -> d = x) /\
    (log_at s boardId d = None ->
     let newLog := Log.mk id boardId userId d now2 actions in
     fst r = created (DLog newLog) /\ status (fst r) = 201%Z /\
     log_at (kv (snd r)) boardId d = Some newLog) /\
    (forall existingLog, log_at s boardId d = Some existingLog ->
     exists updated,
       fst r = success (DLog updated) /\ status (fst r) = 200%Z /\
       log_at (kv (snd r)) boardId d = Some updated /\
       Log.actions updated = (Log.actions existingLog ++ actions)%list /\
       Log.completedAt updated = now2 /\
       Log.id updated = Log.id existingLog /\
       Log.boardId updated = Log.boardId existingLog /\
       Log.userId updated = Log.userId existingLog /\
       Log.date updated = Log.date existingLog) /\
    store_count ["log"; boardId; d] (kv (snd r)) = 1%nat /\
    (forall k, k <> ["log"; boardId; d] ->
               store_get k (kv (snd r)) = store_get k s /\
               store_count k (kv (snd r)) = store_count k s).
Proof.
  intros s id now1 now2 uid bid actions date board Hne Hb d r.
  destruct (@post_api_logs_store s id now1 now2 uid bid actions date board
              Hne Hb) as [Hr Hs].
  fold d in Hr, Hs. fold r in Hr, Hs.
  split; [intros x Hx; apply or_default_truthy; exact Hx|].
  split.
  { intros Hnone newLog. rewrite Hnone in Hr, Hs.
    rewrite Hr, Hs. unfold log_at. rewrite store_get_set_same.
    repeat split. }
  split.
  { intros old Hold. rewrite Hold in Hr, Hs.
    exists (updatedLog old actions now2).
    rewrite Hr, Hs. unfold log_at. rewrite store_get_set_same.
    repeat split. }
  split.
  { rewrite Hs. apply store_count_set_same. }
  intros k Hk. rewrite Hs. split.
  - apply store_get_set_other; congruence.
  - apply store_count_set_other; congruence.
Qed.

(** X25. Two posts for one board and date merge: posting [[x]] and then
    [[y]] for the same board and date leaves one log, with the id of the
    first post, whose actions are [[x; y]]. *)
Lemma log_two_posts_merge s id id' t1 t2 t1' t2' userId boardId date board
  (x y : LogAction.t) :
  boardId <> "" ->
  present (Some date) = Some date ->
  board_at s userId boardId = Some board ->
  log_at s boardId date = None ->
  let post i a b acts st :=
    run (post_api_logs i a b userId
           (mkLogFields (Some boardId) (Some acts) (Some date))) st in
  let s1 := kv (snd (post id t1 t2 [x] s)) in
  let r2 := post id' t1' t2' [y] s1 in
  fst r2 = success (DLog (Log.mk id boardId userId date t2' [x; y])) /\
  log_at (kv (snd r2)) boardId date
  = Some (Log.mk id boardId userId date t2' [x; y]) /\
  store_count ["log"; boardId; date] (kv (snd r2)) = 1%nat /\
  answers_data (fst r2) 200
    (DLog (Log.mk id boardId userId date t2' [x; y])).
Proof.
  intros Hne Hd Hb Hnone post s1 r2.
  assert (logDate (Some date) t1 = date) as D1
    by (apply or_default_truthy; exact Hd).
  assert (logDate (Some date) t1' = date) as D2
    by (apply or_default_truthy; exact Hd).
  destruct (@post_api_logs_store s id t1 t2 userId boardId [x] (Some date)
              board Hne Hb) as [_ S1].
  rewrite D1, Hnone in S1. fold (post id t1 t2 [x] s) in S1. fold s1 in S1.
  assert (board_at s1 userId boardId = Some board) as Hb1.
  { rewrite S1. unfold board_at.
    rewrite store_get_set_other by discriminate. exact Hb. }
  assert (log_at s1 boardId date
          = Some (Log.mk id boardId userId date t2 [x])) as Hl1.
  { rewrite S1. unfold log_at. now rewrite store_get_set_same. }
  destruct (@post_api_logs_store s1 id' t1' t2' userId boardId [y]
              (Some date) board Hne Hb1) as [R2 S2].
  rewrite D2, Hl1 in R2, S2. fold (post id' t1' t2' [y] s1) in R2, S2.
  fold r2 in R2, S2.
  rewrite R2, S2. unfold log_at. rewrite store_get_set_same.
  split; [reflexivity|]. split; [reflexivity|].
  split; [apply store_count_set_same | split; reflexivity].
Qed.

(** Alice checks a task and later completes the board on the same day. *)
Lemma log_two_posts_merge_witness :
  let s1 := kv (snd (run (post_api_logs "l-1" "2024-05-01T08:05:01.000Z"
                            "2024-05-01T08:05:02.000Z" Scenario.alice
                            (mkLogFields (Some "b-1")
                               (Some [Scenario.check_run])
                               (Some "2024-05-01"))) Scenario.store1)) in
  let r2 := run (post_api_logs "l-2" "2024-05-01T08:30:01.000Z"
                   "2024-05-01T08:30:02.000Z" Scenario.alice
                   (mkLogFields (Some "b-1") (Some [Scenario.done_all])
                      (Some "2024-05-01"))) s1 in
  log_at (kv (snd r2)) "b-1" "2024-05-01"
  = Some (Log.mk "l-1" "b-1" Scenario.alice "2024-05-01"
            "2024-05-01T08:30:02.000Z"
            [Scenario.check_run; Scenario.done_all]).
Proof.
  intros s1 r2.
  assert ("b-1" <> "") as Hne by discriminate.
  destruct (@log_two_posts_merge Scenario.store1 "l-1" "l-2"
              "2024-05-01T08:05:01.000Z" "2024-05-01T08:05:02.000Z"
              "2024-05-01T08:30:01.000Z" "2024-05-01T08:30:02.000Z"
              Scenario.alice "b-1" "2024-05-01" Scenario.board1
              Scenario.check_run Scenario.done_all Hne eq_refl eq_refl
              eq_refl) as (_ & H & _).
  exact H.
Defined.

(** The scenario: a first post creates the log, a second one extends it. *)
Lemma log_upsert_by_board_and_date_witness :
  let post2 :=
    run (post_api_logs "l-2" "2024-05-01T08:30:01.000Z"
           "2024-05-01T08:30:02.000Z" Scenario.alice
           (mkLogFields (Some "b-1") (Some [Scenario.done_all])
              (Some "2024-05-01"))) Scenario.store3 in
  status (fst post2) = 200%Z /\
  log_at (kv (snd post2)) "b-1" "2024-05-01"
  = Some (Log.mk "l-1" "b-1" Scenario.alice "2024-05-01"
            "2024-05-01T08:30:02.000Z"
            [Scenario.check_run; Scenario.done_all]) /\
  store_count ["log"; "b-1"; "2024-05-01"] (kv (snd post2)) = 1%nat.
Proof.
  intros post2.
  assert ("b-1" <> "") as Hne by discriminate.
  destruct (@log_upsert_by_board_and_date Scenario.store3 "l-2"
              "2024-05-01T08:30:01.000Z" "2024-05-01T08:30:02.000Z"
              Scenario.alice "b-1" [Scenario.done_all] (Some "2024-05-01")
              Scenario.board1 Hne eq_refl)
    as (_ & _ & Happ & Hcount & _).
  destruct (Happ (Log.mk "l-1" "b-1" Scenario.alice "2024-05-01"
                    "2024-05-01T08:05:02.000Z" [Scenario.check_run])
              eq_refl)
    as (updated & _ & Hst & Hat & _).
  split; [exact Hst|]. split; [|exact Hcount].
  vm_compute. reflexivity.
Defined.

(** ** Users: registration, login and the current user *)

Lemma getUserByUsername_run username w :
  fst (getUserByUsername username w) = user_by_username (kv w) username /\
  kv (snd (getUserByUsername username w)) = kv w.
Proof.
  unfold getUserByUsername, user_by_username, bind, kv_get; simpl.
  destruct (store_get ["user_by_username"; username] (kv w)) as [[]|];
    try (split; reflexivity).
  destruct (s =? ""); split; reflexivity.
Qed.

Lemma bind_run {A B} (m : M A) (k : A -> M B) w :
  bind m k w = k (fst (m w)) (snd (m w)).
Proof. unfold bind. now destruct (m w). Qed.

(** A registration that answers 201 leaves the new user under both keys. *)
Lemma register_stores_user {L : Lib} s id salt now username password :
  id <> "" -> username <> "" -> (6 <= js_length password)%nat ->
  user_by_username s username = None ->
  let r := run (post_api_register id salt now
                  (mkCredentials (Some username) (Some password))) s in
  let newUser := User.mk id username (hashPassword salt password) now in
  status (fst r) = 201%Z /\
  store_get ["user"; id] (kv (snd r)) = Some (VUser newUser) /\
  store_get ["user_by_username"; username] (kv (snd r)) = Some (VString id) /\
  user_by_username (kv (snd r)) username = Some newUser /\
  fst r = created (DRegistered "User created successfully"
                     (userWithoutPassword newUser)).
Proof.
  intros Hid Hu Hp Hnone r newUser. subst r.
  unfold post_api_register, run. cbn [cred_username cred_password present].
  apply String.eqb_neq in Hu. rewrite Hu.
  assert ((password =? "") = false) as Hpw.
  { apply String.eqb_neq. intros ->. vm_compute in Hp. lia. }
  rewrite Hpw.
  assert ((js_length password <? 6)%nat = false) as Hlen
    by (apply Nat.ltb_ge; exact Hp).
  rewrite Hlen.
  rewrite bind_run.
  destruct (getUserByUsername_run username (mkWorld s [])) as [-> Hkv].
  set (w' := snd (getUserByUsername username (mkWorld s []))) in *.
  simpl in Hkv. cbn [kv]. rewrite Hnone. cbv zeta. fold newUser.
  run_kv. rewrite Hkv.
  assert (store_get ["user_by_username"; username]
            (store_set ["user_by_username"; username] (VString id)
               (store_set ["user"; id] (VUser newUser) s))
          = Some (VString id)) as Hidx by apply store_get_set_same.
  assert (store_get ["user"; id]
            (store_set ["user_by_username"; username] (VString id)
               (store_set ["user"; id] (VUser newUser) s))
          = Some (VUser newUser)) as Husr.
  { rewrite store_get_set_other by discriminate. apply store_get_set_same. }
  repeat split; try assumption.
  unfold user_by_username, user_at. rewrite Hidx.
  apply String.eqb_neq in Hid. rewrite Hid. now rewrite Husr.
Qed.

(** C6. While a user with the username exists, a registration with that
    username and an acceptable password (six or more UTF-16 code units, the
    [length] the handler tests before it looks the username up) is refused
    with 409 "Username already exists"; with a shorter password it is
    refused with 400.  Either way the store after the attempt is the store
    before it: the entry of the first user and the index entry of the
    username are as they were. *)
Theorem register_duplicate_username :
  forall (L : Lib) (s : Store) (id salt now username password : string)
         (first : User.t),
    user_by_username s username = Some first ->
    username <> "" ->
    let attempt p :=
      run (post_api_register id salt now
             (mkCredentials (Some username) p)) s in
    ((6 <= js_length password)%nat ->
     fst (attempt (Some password))
     = error_with "Username already exists" 409 /\
     status (fst (attempt (Some password))) = 409%Z /\
     body (fst (attempt (Some password)))
     = Some (mkApi false None (Some "Username already exists"))) /\
    ((js_length password < 6)%nat ->
     status (fst (attempt (Some password))) = 400%Z) /\
    (forall p,
       kv (snd (attempt p)) = s /\
       store_get ["user"; User.id first] (kv (snd (attempt p)))
       = store_get ["user"; User.id first] s /\
       store_get ["user_by_username"; username] (kv (snd (attempt p)))
       = store_get ["user_by_username"; username] s /\
       user_by_username (kv (snd (attempt p))) username = Some first).
Proof.
  intros L s id salt now username password first Hex Hu attempt.
  apply String.eqb_neq in Hu.
  assert (forall p, present p = None ->
            status (fst (attempt p)) = 400%Z /\ kv (snd (attempt p)) = s)
    as Absent.
  { intros p Hp. subst attempt. cbv beta. unfold post_api_register, run.
    cbn [cred_username cred_password]. rewrite Hp.
    cbn [present]. rewrite Hu. split; reflexivity. }
  assert (forall p w, present p = Some w ->
            ((js_length w <? 6)%nat = false ->
             fst (attempt p) = error_with "Username already exists" 409) /\
            ((js_length w <? 6)%nat = true ->
             status (fst (attempt p)) = 400%Z) /\
            kv (snd (attempt p)) = s) as Key.
  { intros p w Hp. subst attempt. cbv beta.
    unfold post_api_register, run.
    cbn [cred_username cred_password]. rewrite Hp.
    cbn [present]. rewrite Hu.
    destruct (js_length w <? 6)%nat.
    - split; [discriminate|]. split; reflexivity.
    - rewrite bind_run.
      destruct (getUserByUsername_run username (mkWorld s [])) as [-> Hkv].
      set (w' := snd (getUserByUsername username (mkWorld s []))) in *.
      simpl in Hkv. cbn [kv]. rewrite Hex. unfold ret; simpl.
      split; [reflexivity|]. split; [discriminate | exact Hkv]. }
  split; [|split].
  - intros Hlen.
    assert (present (Some password) = Some password) as Hp.
    { simpl. destruct (password =? "") eqn:E; [|reflexivity].
      apply String.eqb_eq in E; subst. vm_compute in Hlen. lia. }
    destruct (Key _ _ Hp) as [K _].
    rewrite K by (apply Nat.ltb_ge; exact Hlen). repeat split.
  - intros Hlen.
    destruct (present (Some password)) as [w|] eqn:Hp.
    + assert (w = password) as ->.
      { cbn [present] in Hp.
        destruct (password =? ""); [discriminate | now injection Hp]. }
      destruct (Key _ _ Hp) as (_ & K & _).
      apply K. apply Nat.ltb_lt. exact Hlen.
    + now destruct (Absent _ Hp).
  - intros p.
    assert (kv (snd (attempt p)) = s) as Hs.
    { destruct (present p) as [w|] eqn:Hp.
      - now destruct (Key _ _ Hp) as (_ & _ & K).
      - now destruct (Absent _ Hp). }
    rewrite Hs. repeat split; try reflexivity. exact Hex.
Qed.

(** A second registration of the name of the scenario: with a password of
    eight characters, with one of six characters that take eighteen bytes,
    and with one of three characters that take nine bytes. *)
Lemma register_duplicate_username_witness :
  let again p :=
    run (@post_api_register Toy.lib "u-eve" "salt-2"
           "2024-05-03T07:00:00.000Z"
           (mkCredentials (Some "alice") (Some p)))
        Scenario.store_users in
  status (fst (again "hunter22")) = 409%Z /\
  status (fst (again "日本語日本語")) = 409%Z /\
  status (fst (again "日本語")) = 400%Z /\
  kv (snd (again "hunter22")) = Scenario.store_users /\
  user_by_username (kv (snd (again "hunter22"))) "alice"
  = Some Scenario.alice_user.
Proof.
  intros again.
  assert ("alice" <> "") as Hne by discriminate.
  assert (forall p,
            ((6 <= js_length p)%nat -> status (fst (again p)) = 409%Z) /\
            ((js_length p < 6)%nat -> status (fst (again p)) = 400%Z) /\
            kv (snd (again p)) = Scenario.store_users /\
            user_by_username (kv (snd (again p))) "alice"
            = Some Scenario.alice_user) as H.
  { intros p.
    destruct (@register_duplicate_username Toy.lib Scenario.store_users
                "u-eve" "salt-2" "2024-05-03T07:00:00.000Z" "alice"
                p Scenario.alice_user eq_refl Hne) as (H1 & H2 & H3).
    destruct (H3 (Some p)) as (Hs & _ & _ & Hu).
    split; [intros Hlen; now destruct (H1 Hlen) as (_ & Hst & _)|].
    split; [exact H2|]. split; [exact Hs | exact Hu]. }
  split; [apply (H "hunter22"); vm_compute; lia|].
  split; [apply (H "日本語日本語"); vm_compute; lia|].
  split; [apply (H "日本語"); vm_compute; lia|].
  split; apply (H "hunter22").
Defined.

Lemma obj_get_omit_same f o : obj_get f (obj_omit f o) = None.
Proof.
  induction o as [|[g v] o IH]; simpl; [reflexivity|].
  destruct (g =? f) eqn:E; simpl; [exact IH|]. now rewrite E.
Qed.

Lemma obj_get_omit_other f g o :
  g <> f -> obj_get g (obj_omit f o) = obj_get g o.
Proof.
  intros N. induction o as [|[h v] o IH]; simpl; [reflexivity|].
  destruct (h =? f) eqn:E; simpl.
  - apply String.eqb_eq in E; subst h.
    assert ((f =? g) = false) as F by (apply String.eqb_neq; congruence).
    now rewrite F.
  - now rewrite IH.
Qed.

(** The object the auth routes send for a stored user. *)
Lemma userWithoutPassword_fields (stored : User.t) :
  userWithoutPassword stored
  = [("id", User.id stored); ("username", User.username stored);
     ("createdAt", User.createdAt stored)] /\
  obj_get "passwordHash" (userWithoutPassword stored) = None /\
  (forall f, f <> "passwordHash" ->
             obj_get f (userWithoutPassword stored)
             = obj_get f (User.to_object stored)).
Proof.
  split; [reflexivity|]. split.
  - apply obj_get_omit_same.
  - intros f Hf. now apply obj_get_omit_other.
Qed.

(** C10. A successful answer of the registration, login and current-user
    routes carries the stored user without its [passwordHash] field: the
    user object of the answer has no such field and agrees with the stored
    value on every other field. *)
Theorem password_hash_not_in_user_responses :
  forall (L : Lib) (s : Store),
    let redacted (r : Response) (stored : User.t) :=
      response_user r = Some (userWithoutPassword stored) /\
      obj_get "passwordHash" (userWithoutPassword stored) = None /\
      (forall f, f <> "passwordHash" ->
                 obj_get f (userWithoutPassword stored)
                 = obj_get f (User.to_object stored)) in
    (forall id salt now b,
       let r := run (post_api_register id salt now b) s in
       (200 <= status (fst r) < 300)%Z ->
       exists stored,
         user_at (kv (snd r)) id = Some stored /\ redacted (fst r) stored) /\
    (forall now b,
       let r := run (post_api_login now b) s in
       (200 <= status (fst r) < 300)%Z ->
       exists username stored,
         cred_username b = Some username /\
         user_by_username s username = Some stored /\
         redacted (fst r) stored) /\
    (forall userId,
       let r := run (get_api_me userId) s in
       (200 <= status (fst r) < 300)%Z ->
       exists stored,
         user_at s userId = Some stored /\ redacted (fst r) stored).
Proof.
  intros L s redacted.
  assert (forall r stored,
            response_user r = Some (userWithoutPassword stored) ->
            redacted r stored) as Red.
  { intros r stored H. split; [exact H|].
    apply userWithoutPassword_fields. }
  split; [|split].
  - intros id salt now b r. subst r.
    unfold post_api_register, run.
    destruct (present (cred_username b)) as [username|];
      [|simpl; lia].
    destruct (present (cred_password b)) as [password|];
      [|simpl; lia].
    destruct (js_length password <? 6)%nat; [simpl; lia|].
    rewrite bind_run.
    destruct (getUserByUsername_run username (mkWorld s [])) as [-> Hkv].
    set (w' := snd (getUserByUsername username (mkWorld s []))) in *.
    destruct (user_by_username (kv (mkWorld s [])) username);
      [simpl; lia|].
    intros _. cbv zeta.
    exists (User.mk id username (hashPassword salt password) now).
    split; [|apply Red; reflexivity].
    run_kv. unfold user_at.
    rewrite store_get_set_other by discriminate.
    now rewrite store_get_set_same.
  - intros now b r. subst r.
    unfold post_api_login, run.
    destruct (cred_username b) as [u0|] eqn:Eu; [|simpl; lia].
    cbn [present]. destruct (u0 =? ""); [simpl; lia|].
    destruct (present (cred_password b)) as [password|]; [|simpl; lia].
    rewrite bind_run.
    destruct (getUserByUsername_run u0 (mkWorld s [])) as [-> Hkv].
    set (w' := snd (getUserByUsername u0 (mkWorld s []))) in *.
    cbn [kv].
    destruct (user_by_username s u0) as [user|] eqn:Ex; [|simpl; lia].
    destruct (verifyPassword password (User.passwordHash user));
      [|simpl; lia].
    cbn [negb].
    destruct (generateToken now (User.id user) (User.username user));
      [|simpl; lia].
    intros _. exists u0, user.
    split; [reflexivity|]. split; [exact Ex|]. apply Red; reflexivity.
  - intros userId r. subst r.
    unfold get_api_me, run. rewrite bind_run. run_kv.
    fold (user_at s userId).
    destruct (user_at s userId) as [user|]; [|simpl; lia].
    intros _. exists user. split; [reflexivity|]. apply Red; reflexivity.
Qed.

(** Alice logs in and asks for her own record. *)
Lemma password_hash_not_in_user_responses_witness :
  response_user
    (fst (run (@post_api_login Toy.lib 1714550400000
                 Scenario.alice_credentials) Scenario.store_users))
  = Some [("id", "u-alice"); ("username", "alice");
          ("createdAt", "2024-04-30T20:00:00.000Z")] /\
  response_user
    (fst (run (get_api_me Scenario.alice) Scenario.store_users))
  = Some [("id", "u-alice"); ("username", "alice");
          ("createdAt", "2024-04-30T20:00:00.000Z")].
Proof.
  destruct (@password_hash_not_in_user_responses Toy.lib
              Scenario.store_users) as (_ & Hlogin & Hme).
  split.
  - assert (status (fst (run (@post_api_login Toy.lib 1714550400000
                               Scenario.alice_credentials)
                           Scenario.store_users)) = 200%Z) as E
      by (vm_compute; reflexivity).
    destruct (Hlogin 1714550400000%Z Scenario.alice_credentials
                ltac:(rewrite E; lia))
      as (username & stored & Hu & Hs & Hr & _).
    injection Hu as <-.
    assert (user_by_username Scenario.store_users "alice"
            = Some Scenario.alice_user) as E2 by (vm_compute; reflexivity).
    rewrite E2 in Hs. injection Hs as <-.
    exact Hr.
  - assert (status (fst (run (get_api_me Scenario.alice)
                           Scenario.store_users)) = 200%Z) as E
      by (vm_compute; reflexivity).
    destruct (Hme Scenario.alice ltac:(rewrite E; lia))
      as (stored & Hs & Hr & _).
    assert (user_at Scenario.store_users Scenario.alice
            = Some Scenario.alice_user) as E2 by (vm_compute; reflexivity).
    rewrite E2 in Hs. injection Hs as <-.
    exact Hr.
Defined.

(** ** Session tokens *)

Lemma split_dot_app a r :
  Toy.no_dot a = true -> Toy.split_dot (a ++ String "." r) = Some (a, r).
Proof.
  induction a as [|c a IH]; simpl; [reflexivity|].
  intros H. apply andb_true_iff in H as [Hc Ha].
  apply negb_true_iff in Hc. rewrite Hc. now rewrite IH.
Qed.

Lemma no_dot_bits q : Toy.no_dot (Toy.bits q) = true.
Proof. induction q; simpl; auto. Qed.

Lemma unbits_bits q : Toy.unbits (Toy.bits q) = Some q.
Proof. induction q; simpl; try rewrite IHq; reflexivity. Qed.

Lemma toy_parse_encode p k :
  Toy.no_dot (userId p) = true -> Toy.no_dot (username p) = true ->
  (0 <= exp p)%Z ->
  Toy.parse (Toy.encode p k) = Some (p, k).
Proof.
  intros Hu Hn He. unfold Toy.parse, Toy.encode. cbn [append].
  rewrite (@split_dot_app _ _ Hu), (@split_dot_app _ _ Hn),
    (@split_dot_app _ _ (no_dot_bits _)), unbits_bits.
  destruct p as [u n e]; cbn [userId username exp] in *.
  rewrite Z2Pos.id by lia.
  do 3 f_equal. lia.
Qed.

(** The instance of [Toy] meets the contract of the token library. *)
Lemma toy_contract : DjwtContract Toy.lib.
Proof.
  constructor; simpl; unfold Toy.verify, Toy.decode, Toy.sig_ok.
  - intros tok k now m. destruct (Toy.parse tok) as [[p k']|];
      [discriminate|]. intros _. eexists; reflexivity.
  - intros tok k now. destruct (Toy.parse tok) as [[p k']|].
    + intros ->. destruct (exp p * 1000 <? now)%Z; eexists; reflexivity.
    + intros _; eexists; reflexivity.
  - intros tok k now p. destruct (Toy.parse tok) as [[p' k']|];
      [|discriminate].
    intros [= ->] H. apply Z.ltb_lt in H. rewrite H. eexists; reflexivity.
  - intros tok k now p. destruct (Toy.parse tok) as [[p' k']|];
      [|discriminate].
    intros [= ->] -> H. apply Z.ltb_ge in H. now rewrite H.
  - intros h p k tok. unfold Toy.create.
    destruct (Toy.no_dot (userId p)) eqn:Hu; [|discriminate].
    destruct (Toy.no_dot (username p)) eqn:Hn; [|discriminate].
    destruct (0 <=? exp p)%Z eqn:He; [|discriminate].
    simpl. intros [= <-]. apply Z.leb_le in He.
    rewrite (@toy_parse_encode p k Hu Hn He). split; [reflexivity|].
    apply String.eqb_refl.
Qed.

(** [verifyToken] returns a value whatever the libraries do, and the value
    is [null] exactly when the key import or [verify] throws. *)
Lemma verifyToken_total {L : Lib} now token :
  exists r, verifyToken now token = Returned r.
Proof.
  unfold verifyToken. destruct (verifyToken_try now token); eexists;
    reflexivity.
Qed.

Lemma verifyToken_null_iff {L : Lib} now token :
  verifyToken now token = Returned None
  <-> exists m, verifyToken_try now token = Thrown m.
Proof.
  unfold verifyToken. destruct (verifyToken_try now token) as [p|m].
  - split; [discriminate | intros [m H]; discriminate].
  - split; [intros _; now exists m | reflexivity].
Qed.

Lemma verifyToken_payload_iff {L : Lib} now token payload :
  verifyToken now token = Returned (Some payload)
  <-> verifyToken_try now token = Returned payload.
Proof.
  unfold verifyToken. destruct (verifyToken_try now token) as [p|m].
  - split; [intros [= ->]; reflexivity | intros [= ->]; reflexivity].
  - split; discriminate.
Qed.

(** C5. [verifyToken] never throws: for every input it returns, and it
    returns [null] exactly when the key import or the library's [verify]
    throws.  With a token library that meets its contract, it returns
    [null] for a token that does not decode, for one whose signature does
    not verify under the server key and for one whose [exp] is in the past,
    whatever its signature; and for a token issued by [generateToken] whose
    [exp] is not yet past it returns the payload [{userId, username, exp}]
    of the issue. *)
Theorem verifyToken_never_throws :
  forall (L : Lib) (now : Z) (token : string),
    (exists r, verifyToken now token = Returned r) /\
    (verifyToken now token = Returned None
     <-> exists m, verifyToken_try now token = Thrown m) /\
    (DjwtContract L ->
     ((exists m, djwt_decode token = Thrown m) ->
      verifyToken now token = Returned None) /\
     ((forall key, getKey = Returned key ->
                   signature_ok token key = false) ->
      verifyToken now token = Returned None) /\
     (forall p, djwt_decode token = Returned p -> (exp p * 1000 < now)%Z ->
                verifyToken now token = Returned None) /\
     (forall issued userId username,
        generateToken issued userId username = Returned token ->
        (now <= (issued / 1000 + 86400) * 1000)%Z ->
        verifyToken now token
        = Returned
            (Some (mkPayload userId username (issued / 1000 + 86400))))).
Proof.
  intros L now token.
  split; [apply verifyToken_total|].
  split; [apply verifyToken_null_iff|].
  intros C. split; [|split; [|split]].
  - intros [m Hm]. apply verifyToken_null_iff. unfold verifyToken_try.
    destruct getKey as [key|m0]; [|now exists m0].
    eapply verify_malformed; eassumption.
  - intros Hsig. apply verifyToken_null_iff. unfold verifyToken_try.
    destruct getKey as [key|m0]; [|now exists m0].
    eapply verify_forged. apply Hsig. reflexivity.
  - intros p Hp Hexp. apply verifyToken_null_iff. unfold verifyToken_try.
    destruct getKey as [key|m0]; [|now exists m0].
    eapply verify_expired; eassumption.
  - intros issued uid uname Hgen Hnow.
    apply verifyToken_payload_iff. unfold verifyToken_try.
    unfold generateToken in Hgen.
    destruct getKey as [key|m0]; [|discriminate].
    cbv zeta in Hgen. apply create_valid in Hgen as [Hdec Hsig].
    change (60 * 60 * 24)%Z with 86400%Z in Hdec.
    eapply verify_valid; eassumption.
Qed.

(** The token of the scenario an hour after its issue, two days after it,
    with its key part altered, and a string that is no token. *)
Lemma verifyToken_never_throws_witness :
  @verifyToken Toy.lib (Scenario.issued_at + 3600000) Scenario.alice_token
  = Returned (Some (mkPayload Scenario.alice "alice" 1714636800)) /\
  @verifyToken Toy.lib (Scenario.issued_at + 172800000) Scenario.alice_token
  = Returned None /\
  @verifyToken Toy.lib (Scenario.issued_at + 3600000)
    "u-alice.alice.1.not-the-key"
  = Returned None /\
  @verifyToken Toy.lib (Scenario.issued_at + 3600000) "no token at all"
  = Returned None.
Proof.
  split; [|split; [|split]].
  - destruct (@verifyToken_never_throws Toy.lib
                (Scenario.issued_at + 3600000) Scenario.alice_token)
      as (_ & _ & Hc).
    destruct (Hc toy_contract) as (_ & _ & _ & Hok).
    apply (Hok Scenario.issued_at Scenario.alice "alice").
    + vm_compute; reflexivity.
    + vm_compute; discriminate.
  - destruct (@verifyToken_never_throws Toy.lib
                (Scenario.issued_at + 172800000) Scenario.alice_token)
      as (_ & _ & Hc).
    destruct (Hc toy_contract) as (_ & _ & Hexp & _).
    apply (Hexp (mkPayload Scenario.alice "alice" 1714636800)).
    + vm_compute; reflexivity.
    + vm_compute; reflexivity.
  - destruct (@verifyToken_never_throws Toy.lib
                (Scenario.issued_at + 3600000) "u-alice.alice.1.not-the-key")
      as (_ & _ & Hc).
    destruct (Hc toy_contract) as (_ & Hsig & _).
    apply Hsig. intros key Hk. vm_compute in Hk. injection Hk as <-.
    vm_compute; reflexivity.
  - destruct (@verifyToken_never_throws Toy.lib
                (Scenario.issued_at + 3600000) "no token at all")
      as (_ & _ & Hc).
    destruct (Hc toy_contract) as (Hbad & _).
    apply Hbad. eexists. vm_compute; reflexivity.
Defined.

(** ** The authorization middleware *)

(** The middleware answers 401 without running the handler and without
    changing the world. *)
Lemma authMiddleware_rejects {L : Lib} now authHeader next w :
  turned_away now authHeader ->
  exists message,
    authMiddleware now authHeader next w = (unauthorized message, w).
Proof.
  intros H. unfold authMiddleware, ret.
  destruct authHeader as [h|]; simpl.
  - destruct (h =? ""); [eexists; reflexivity|].
    destruct (String.prefix "Bearer " h) eqn:P; simpl;
      [|eexists; reflexivity].
    destruct H as [H | [(h' & E & F) | (h' & E & F)]].
    + discriminate.
    + injection E as <-. congruence.
    + injection E as <-. rewrite F. eexists; reflexivity.
  - eexists; reflexivity.
Qed.

(** With a header [Bearer <token>] whose token verifies, the middleware
    runs the handler for the identity of the token. *)
Lemma authMiddleware_accepts {L : Lib} now token payload next w :
  verifyToken now token = Returned (Some payload) ->
  authMiddleware now (Some ("Bearer " ++ token)) next w
  = next (userId payload) (username payload) w.
Proof.
  intros H. unfold authMiddleware. simpl.
  assert (String.prefix "" token = true) as P by now destruct token.
  rewrite P. simpl.
  assert (substring 0 (String.length token - 0) token = token) as S.
  { rewrite Nat.sub_0_r. clear. induction token; simpl; congruence. }
  rewrite S, H. reflexivity.
Qed.

(** C7. A request to an endpoint behind [authMiddleware] whose
    [Authorization] header is absent, lacks the [Bearer ] prefix or carries
    a token that [verifyToken] rejects is answered 401, and the request
    issues no call to the store: the trace of store calls is empty and the
    store is the one before the request. *)
Theorem unauthenticated_request_touches_no_store :
  forall (L : Lib) (env : Env) (req : Request) (s : Store),
    owner_scoped (endpoint req) = true ->
    turned_away (date_now env) (authorization req) ->
    let r := run (handle env req) s in
    status (fst r) = 401%Z /\
    calls (snd r) = [] /\
    kv (snd r) = s.
Proof.
  intros L env [hdr e] s Hscope Hbad r. subst r. simpl in *.
  unfold run, handle; simpl.
  destruct e; try discriminate Hscope;
    match goal with
    | |- context [authMiddleware ?n ?h ?k ?w] =>
        destruct (@authMiddleware_rejects L n h k w Hbad) as [m ->]
    end; repeat split.
Qed.

(** Requests of the scenario without a header, with a header of another
    scheme, and with the token of Alice two days after its issue. *)
Lemma unauthenticated_request_touches_no_store_witness :
  let env := mkEnv (Scenario.issued_at + 172800000) "b-2"
               "2024-05-03T08:00:00.000Z" "2024-05-03T08:00:01.000Z"
               "salt-3" in
  let answer hdr e := run (@handle Toy.lib env (mkRequest hdr e))
                        Scenario.store3 in
  (status (fst (answer None (DELETE_boards_id "b-1"))) = 401%Z /\
   calls (snd (answer None (DELETE_boards_id "b-1"))) = []) /\
  (status (fst (answer (Some "Basic YWxpY2U6eA==") GET_boards)) = 401%Z /\
   calls (snd (answer (Some "Basic YWxpY2U6eA==") GET_boards)) = []) /\
  (status (fst (answer (Some ("Bearer " ++ Scenario.alice_token))
                  (POST_boards Scenario.board_fields))) = 401%Z /\
   kv (snd (answer (Some ("Bearer " ++ Scenario.alice_token))
              (POST_boards Scenario.board_fields))) = Scenario.store3).
Proof.
  intros env answer. split; [|split].
  - destruct (@unauthenticated_request_touches_no_store Toy.lib env
                (mkRequest None (DELETE_boards_id "b-1")) Scenario.store3
                eq_refl (or_introl eq_refl)) as (H1 & H2 & _).
    split; assumption.
  - destruct (@unauthenticated_request_touches_no_store Toy.lib env
                (mkRequest (Some "Basic YWxpY2U6eA==") GET_boards)
                Scenario.store3 eq_refl
                (or_intror (or_introl
                   (ex_intro _ "Basic YWxpY2U6eA==" (conj eq_refl eq_refl)))))
      as (H1 & H2 & _).
    split; assumption.
  - assert (@turned_away Toy.lib (date_now env)
              (Some ("Bearer " ++ Scenario.alice_token))) as Hbad.
    { right; right. eexists. split; [reflexivity|].
      vm_compute; reflexivity. }
    destruct (@unauthenticated_request_touches_no_store Toy.lib env
                (mkRequest (Some ("Bearer " ++ Scenario.alice_token))
                   (POST_boards Scenario.board_fields))
                Scenario.store3 eq_refl Hbad) as (H1 & _ & H3).
    split; assumption.
Defined.

(** ** Public board lookup *)

Lemma find_public_find boardId es :
  find_public boardId es
  = find (is_public boardId) (values_as as_board es).
Proof.
  induction es as [|[k v] es IH]; simpl; [reflexivity|].
  destruct v; simpl; try exact IH.
  unfold is_public at 1. now rewrite IH.
Qed.

Lemma values_as_board_In k b es :
  In (k, VBoard b) es -> In b (values_as as_board es).
Proof.
  induction es as [|[k' v] es IH]; simpl; [tauto|].
  intros [E | H].
  - injection E as -> ->. simpl. now left.
  - destruct v; simpl; try right; now apply IH.
Qed.

(** A board under the key of any owner is met by the scan. *)
Lemma board_at_stored s owner boardId board :
  board_at s owner boardId = Some board -> In board (stored_boards s).
Proof.
  unfold board_at, stored_boards. intros H.
  destruct (store_get ["board"; owner; boardId] s) as [v|] eqn:G;
    [destruct v|]; try discriminate.
  injection H as ->. apply store_get_In in G.
  apply values_as_board_In with (k := ["board"; owner; boardId]).
  apply store_list_In. split; [exact G | reflexivity].
Qed.

Lemma is_public_true boardId b :
  is_public boardId b = true
  <-> Board.id b = boardId /\ Board.visibility b = "public".
Proof.
  unfold is_public. rewrite andb_true_iff, !String.eqb_eq. tauto.
Qed.

Lemma get_api_public_run boardId s :
  run (get_api_public_boardId boardId) s
  = (match find (is_public boardId) (stored_boards s) with
     | Some board => success (DBoard board)
     | None => notFound "Public board not found"
     end,
     mkWorld s [CallList ["board"]]).
Proof.
  unfold get_api_public_boardId. run_kv. rewrite find_public_find.
  fold (stored_boards s).
  now destruct (find (is_public boardId) (stored_boards s)).
Qed.

(** C4. The public lookup issues one scan, of the whole board keyspace,
    which meets the boards of every owner, and takes no credential.  It
    answers with a board only if that board is stored, has the id asked for
    and is public, and it does answer with one when such a board is stored.
    When board ids are unique: for a stored board whose visibility is not
    "public" the lookup by its id answers 404, and for a stored public board
    the lookup by its id answers 200 with that board. *)
Theorem public_board_lookup :
  forall (s : Store) (boardId : string),
    let r := run (get_api_public_boardId boardId) s in
    calls (snd r) = [CallList ["board"]] /\
    kv (snd r) = s /\
    (forall owner id board,
       board_at s owner id = Some board -> In board (stored_boards s)) /\
    (forall (L : Lib) env hdr,
       run (handle env (mkRequest hdr (GET_public boardId))) s = r) /\
    (forall board,
       fst r = success (DBoard board) ->
       In board (stored_boards s) /\ Board.id board = boardId /\
       Board.visibility board = "public") /\
    ((exists board, In board (stored_boards s) /\
                    Board.id board = boardId /\
                    Board.visibility board = "public") ->
     exists board, fst r = success (DBoard board)) /\
    (unique_board_ids s ->
     forall board,
       In board (stored_boards s) -> Board.id board = boardId ->
       (Board.visibility board <> "public" ->
        fst r = notFound "Public board not found" /\
        status (fst r) = 404%Z) /\
       (Board.visibility board = "public" ->
        fst r = success (DBoard board) /\ status (fst r) = 200%Z)).
Proof.
  intros s boardId r. subst r. rewrite get_api_public_run.
  simpl fst; simpl snd; simpl kv; simpl calls.
  split; [reflexivity|]. split; [reflexivity|].
  split; [intros owner id board; apply board_at_stored|].
  split; [intros L env hdr; apply get_api_public_run|].
  split.
  - intros board H.
    destruct (find (is_public boardId) (stored_boards s)) as [b|] eqn:F;
      [|discriminate].
    injection H as ->. apply find_some in F as [Hin Hp].
    apply is_public_true in Hp. tauto.
  - split.
    { intros (board & Hin & Hid & Hvis).
      destruct (find (is_public boardId) (stored_boards s)) as [b|] eqn:F;
        [now exists b|].
      pose proof (find_none _ _ F _ Hin) as N.
      assert (is_public boardId board = true) as T
        by (apply is_public_true; tauto).
      congruence. }
    intros Huniq board Hin Hid.
    destruct (find (is_public boardId) (stored_boards s)) as [b|] eqn:F.
    + apply find_some in F as [Hin' Hp]. apply is_public_true in Hp.
      destruct Hp as [Hid' Hvis'].
      assert (b = board) as -> by (apply Huniq; congruence).
      split; [intros N; contradiction | intros _; split; reflexivity].
    + split; [intros _; split; reflexivity|].
      intros Hvis. pose proof (find_none _ _ F _ Hin) as N.
      assert (is_public boardId board = true) as T
        by (apply is_public_true; tauto).
      congruence.
Qed.

Lemma unique_board_ids_single s b :
  stored_boards s = [b] -> unique_board_ids s.
Proof.
  intros E b1 b2. rewrite E. simpl. intuition congruence.
Qed.

(** The board of the scenario, private and then public. *)
Lemma public_board_lookup_witness :
  status (fst (run (get_api_public_boardId "b-1") Scenario.store1)) = 404%Z /\
  fst (run (get_api_public_boardId "b-1") Scenario.store1_public)
  = success (DBoard Scenario.board1_public).
Proof.
  split.
  - assert (unique_board_ids Scenario.store1) as U
      by (apply unique_board_ids_single with (b := Scenario.board1);
          vm_compute; reflexivity).
    destruct (@public_board_lookup Scenario.store1 "b-1")
      as (_ & _ & Hscan & _ & _ & _ & Hget).
    destruct (Hget U Scenario.board1
                (Hscan Scenario.alice "b-1" Scenario.board1 eq_refl)
                eq_refl) as [Hpriv _].
    apply Hpriv. discriminate.
  - assert (unique_board_ids Scenario.store1_public) as U
      by (apply unique_board_ids_single with (b := Scenario.board1_public);
          vm_compute; reflexivity).
    destruct (@public_board_lookup Scenario.store1_public "b-1")
      as (_ & _ & Hscan & _ & _ & _ & Hget).
    destruct (Hget U Scenario.board1_public
                (Hscan Scenario.alice "b-1" Scenario.board1_public eq_refl)
                eq_refl) as [_ Hpub].
    apply Hpub. reflexivity.
Defined.

(** ** Boards of another user *)

(** C3, as stated, fails: Bob asks for, updates and deletes the board of
    Alice by its id and is answered 404, not 403. *)
Lemma foreign_board_not_403 :
  Scenario.alice <> Scenario.bob /\
  board_at Scenario.store1 Scenario.alice "b-1" = Some Scenario.board1 /\
  status (fst (run (get_api_boards_id Scenario.bob "b-1") Scenario.store1))
  <> 403%Z /\
  status (fst (run (put_api_boards_id "2024-05-02T10:00:00.000Z"
                      Scenario.bob "b-1" Scenario.board_fields)
                 Scenario.store1))
  <> 403%Z /\
  status (fst (run (delete_api_boards_id Scenario.bob "b-1")
                 Scenario.store1))
  <> 403%Z.
Proof.
  split; [discriminate|]. split; [reflexivity|].
  repeat split; vm_compute; discriminate.
Qed.

Lemma find_notification_foreign notifId caller l :
  (forall n, In n l -> Notification.id n = notifId ->
             Notification.userId n <> caller) ->
  find_notification notifId caller l = None.
Proof.
  intros H. unfold find_notification.
  destruct (find _ l) as [n|] eqn:F; [|reflexivity].
  apply find_some in F as [Hin Hp].
  apply andb_true_iff in Hp as [Hi Hu].
  apply String.eqb_eq in Hi, Hu. exfalso. exact (H n Hin Hi Hu).
Qed.

(** C3, amended.  When a board with the id is stored for another user and
    the caller has none with that id, reading, updating and deleting it by
    id are each answered 404 "Board not found", the store is left as it was
    and the board stays with its owner.  The bare-id notification routes
    likewise answer 404 when every notification they search with that id
    belongs to another user. *)
Theorem foreign_board_is_not_found :
  forall (s : Store) (owner caller boardId : string) (board : Board.t),
    board_at s owner boardId = Some board ->
    board_at s caller boardId = None ->
    let get := run (get_api_boards_id caller boardId) s in
    let del := run (delete_api_boards_id caller boardId) s in
    (fst get = notFound "Board not found" /\ status (fst get) = 404%Z /\
     kv (snd get) = s) /\
    (forall now b,
       let put := run (put_api_boards_id now caller boardId b) s in
       fst put = notFound "Board not found" /\ status (fst put) = 404%Z /\
       kv (snd put) = s) /\
    (fst del = notFound "Board not found" /\ status (fst del) = 404%Z /\
     kv (snd del) = s /\
     board_at (kv (snd del)) owner boardId = Some board) /\
    (forall notifId,
       (forall n, In n (searched_notifications s) ->
                  Notification.id n = notifId ->
                  Notification.userId n <> caller) ->
       status (fst (run (patch_api_notify_id_dismiss caller notifId) s))
       = 404%Z /\
       status (fst (run (delete_api_notify_id caller notifId) s)) = 404%Z).
Proof.
  intros s owner caller boardId board Hown Hnone get del.
  subst get del.
  unfold get_api_boards_id, put_api_boards_id, delete_api_boards_id, run.
  rewrite !bind_run, !getBoard_run. cbn [fst snd kv]. rewrite Hnone.
  split; [repeat split|]. split.
  { intros now b. rewrite bind_run, getBoard_run. cbn [fst snd kv].
    rewrite Hnone. repeat split. }
  split; [repeat split; exact Hown|].
  intros notifId Hforeign.
  unfold patch_api_notify_id_dismiss, delete_api_notify_id.
  rewrite !bind_run. run_kv. fold (searched_notifications s).
  rewrite (find_notification_foreign _ Hforeign). split; reflexivity.
Qed.

(** Bob and the board of Alice. *)
Lemma foreign_board_is_not_found_witness :
  status (fst (run (get_api_boards_id Scenario.bob "b-1") Scenario.store1))
  = 404%Z /\
  kv (snd (run (delete_api_boards_id Scenario.bob "b-1") Scenario.store1))
  = Scenario.store1.
Proof.
  destruct (@foreign_board_is_not_found Scenario.store1 Scenario.alice
              Scenario.bob "b-1" Scenario.board1 eq_refl eq_refl)
    as ((_ & Hg & _) & _ & (_ & _ & Hd & _) & _).
  split; [exact Hg | exact Hd].
Defined.

(** X26. Where 403 is answered: the log and notification routes that name a
    board answer 403 "Access denied" when the caller has no board with that
    id, and leave the store as it was. *)
Lemma board_scoped_routes_forbidden s caller boardId :
  boardId <> "" ->
  board_at s caller boardId = None ->
  (let r := run (get_api_logs_boardId caller boardId) s in
   fst r = forbidden "Access denied" /\ kv (snd r) = s /\
   answers_error (fst r) 403 "Access denied") /\
  (forall date,
     let r := run (get_api_logs_boardId_date caller boardId date) s in
     fst r = forbidden "Access denied" /\ kv (snd r) = s /\
   answers_error (fst r) 403 "Access denied") /\
  (forall id now1 now2 actions date,
     let r := run (post_api_logs id now1 now2 caller
                     (mkLogFields (Some boardId) (Some actions) date)) s in
     fst r = forbidden "Access denied" /\ kv (snd r) = s /\
   answers_error (fst r) 403 "Access denied") /\
  (let r := run (get_api_notify_boardId caller boardId) s in
   fst r = forbidden "Access denied" /\ kv (snd r) = s /\
   answers_error (fst r) 403 "Access denied") /\
  (forall id message time,
     present (Some message) = Some message ->
     present (Some time) = Some time ->
     let r := run (post_api_notify id caller
                     (mkNotifyFields (Some boardId) (Some message)
                        (Some time))) s in
     fst r = forbidden "Access denied" /\ kv (snd r) = s /\
     answers_error (fst r) 403 "Access denied").
Proof.
  intros Hne Hnone. apply String.eqb_neq in Hne.
  unfold get_api_logs_boardId, get_api_logs_boardId_date, post_api_logs,
    get_api_notify_boardId, post_api_notify, run.
  cbn [lf_boardId lf_actions nf_boardId nf_message nf_time].
  cbn [present]. rewrite Hne.
  rewrite !bind_run, !getBoard_run. cbn [fst snd kv]. rewrite Hnone.
  split; [repeat split|].
  split; [intros date; rewrite bind_run, getBoard_run; cbn [fst snd kv];
          rewrite Hnone; repeat split|].
  split; [intros id now1 now2 actions date; rewrite bind_run, getBoard_run;
          cbn [fst snd kv]; rewrite Hnone; repeat split|].
  split; [repeat split|].
  intros id message time Hm Ht. cbn [present] in Hm, Ht.
  destruct (message =? ""); [discriminate|].
  destruct (time =? ""); [discriminate|].
  rewrite bind_run, getBoard_run; cbn [fst snd kv]. rewrite Hnone.
  repeat split.
Qed.

(** Bob asks for the logs of the board of Alice. *)
Lemma board_scoped_routes_forbidden_witness :
  let r := run (get_api_logs_boardId Scenario.bob "b-1") Scenario.store1 in
  answers_error (fst r) 403 "Access denied" /\
  kv (snd r) = Scenario.store1.
Proof.
  intros r.
  assert ("b-1" <> "") as Hne by discriminate.
  destruct (@board_scoped_routes_forbidden Scenario.store1 Scenario.bob
              "b-1" Hne eq_refl) as ((_ & H2 & H3) & _).
  split; [exact H3 | exact H2].
Defined.

(** ** Lookup of a notification or a log by its bare id *)

Lemma store_list_delete p k s :
  store_list p (store_delete k s) = store_delete k (store_list p s).
Proof.
  unfold store_list, store_delete.
  induction s as [|e s IH]; simpl; [reflexivity|].
  destruct (key_eqb k (fst e)) eqn:E, (starts_with p (fst e)) eqn:F; simpl;
    rewrite ?E, ?F, IH; reflexivity.
Qed.

Lemma store_list_insert_skip p k v s :
  starts_with p k = false ->
  store_list p (store_insert k v s) = store_list p s.
Proof.
  intros F. unfold store_list.
  induction s as [|[k' v'] s IH]; simpl.
  - now rewrite F.
  - destruct (key_compare k k'); simpl; rewrite ?F; try reflexivity.
    now rewrite IH.
Qed.

(** The invariant: no entry lies under the notification scope of the empty
    board id. *)
Lemma no_empty_scope_set k v s :
  starts_with ["notif"; ""] k = false ->
  store_list ["notif"; ""] s = [] ->
  store_list ["notif"; ""] (store_set k v s) = [].
Proof.
  intros F H. unfold store_set.
  rewrite store_list_insert_skip by exact F.
  now rewrite store_list_delete, H.
Qed.

Lemma no_empty_scope_delete k s :
  store_list ["notif"; ""] s = [] ->
  store_list ["notif"; ""] (store_delete k s) = [].
Proof. intros H. now rewrite store_list_delete, H. Qed.

Ltac split_matches :=
  repeat match goal with
         | |- context [match ?x with _ => _ end] => destruct x eqn:?; simpl
         end.

Ltac keep_scope :=
  repeat first
    [ assumption
    | apply no_empty_scope_delete
    | apply no_empty_scope_set; [reflexivity|] ].

(** The middleware either answers by itself, with an error and the world as it
    was, or runs the handler for some identity. *)
Lemma authMiddleware_cases {L : Lib} now authHeader next w :
  (exists message code,
     authMiddleware now authHeader next w = (error_with message code, w))
  \/ (exists userId username,
        authMiddleware now authHeader next w = next userId username w).
Proof.
  unfold authMiddleware, ret.
  destruct (present authHeader) as [h|];
    [|left; do 2 eexists; reflexivity].
  destruct (negb (String.prefix "Bearer " h));
    [left; do 2 eexists; reflexivity|].
  destruct (verifyToken now _) as [[p|]|m].
  - right. now exists (userId p), (username p).
  - left; do 2 eexists; reflexivity.
  - left; do 2 eexists; reflexivity.
Qed.

Lemma present_nonempty v s : present v = Some s -> s <> "".
Proof.
  destruct v as [x|]; cbn [present]; [|discriminate].
  destruct (x =? "") eqn:E; [discriminate|].
  intros [= <-]. now apply String.eqb_neq.
Qed.

(** Every request keeps the invariant. *)
Lemma handle_keeps_no_empty_scope {L : Lib} env req s :
  store_list ["notif"; ""] s = [] ->
  store_list ["notif"; ""] (kv (snd (run (handle env req) s))) = [].
Proof.
  intros H. destruct req as [hdr e]. unfold run, handle. simpl.
  destruct e;
    try match goal with
        | |- context [authMiddleware ?n ?h ?k ?w] =>
            destruct (@authMiddleware_cases L n h k w)
              as [(m & c & ->) | (uid & uname & ->)]; [exact H|]
        end.
  - (* register *)
    unfold post_api_register.
    destruct (present (cred_username b)) as [username|]; [|exact H].
    destruct (present (cred_password b)) as [password|]; [|exact H].
    destruct (js_length password <? 6)%nat; [exact H|].
    rewrite bind_run.
    destruct (getUserByUsername_run username (mkWorld s [])) as [-> Hkv].
    set (w' := snd (getUserByUsername username (mkWorld s []))) in *.
    simpl in Hkv.
    destruct (user_by_username _ username); cbv zeta; run_kv; rewrite Hkv;
      keep_scope.
  - (* login *)
    unfold post_api_login.
    destruct (present (cred_username b)) as [username|]; [|exact H].
    destruct (present (cred_password b)) as [password|]; [|exact H].
    rewrite bind_run.
    destruct (getUserByUsername_run username (mkWorld s [])) as [-> Hkv].
    set (w' := snd (getUserByUsername username (mkWorld s []))) in *.
    simpl in Hkv.
    destruct (user_by_username _ username) as [user|];
      [|simpl; now rewrite Hkv].
    destruct (negb _); [simpl; now rewrite Hkv|].
    destruct (generateToken _ _ _); simpl; now rewrite Hkv.
  - unfold get_api_me. run_kv. split_matches; keep_scope.
  - exact H.
  - unfold get_api_boards. run_kv. exact H.
  - unfold get_api_boards_id. run_kv. split_matches; keep_scope.
  - unfold post_api_boards. run_kv. split_matches; keep_scope.
  - unfold put_api_boards_id. run_kv. split_matches; keep_scope.
  - unfold delete_api_boards_id. run_kv. split_matches; keep_scope.
  - unfold get_api_public_boardId. run_kv. split_matches; keep_scope.
  - unfold get_api_logs_boardId. run_kv. split_matches; keep_scope.
  - unfold get_api_logs_boardId_date. run_kv. split_matches; keep_scope.
  - unfold post_api_logs. run_kv. split_matches; keep_scope.
  - unfold delete_api_logs_id. run_kv. split_matches; keep_scope.
  - unfold get_api_notify_boardId. run_kv. split_matches; keep_scope.
  - (* create notification: the board id of the body is not empty *)
    unfold post_api_notify.
    destruct (present (nf_boardId b)) as [boardId|] eqn:Hb; [|exact H].
    destruct (present (nf_message b)); [|exact H].
    destruct (present (nf_time b)); [|exact H].
    run_kv. split_matches; [|exact H].
    apply no_empty_scope_set; [|exact H].
    pose proof (present_nonempty _ Hb) as Hne.
    destruct boardId; [contradiction | reflexivity].
  - (* dismiss: the search is over an empty scan *)
    unfold patch_api_notify_id_dismiss. run_kv. rewrite H. simpl. exact H.
  - unfold delete_api_notify_id. run_kv. rewrite H. simpl. exact H.
Qed.

Lemma reachable_no_empty_scope {L : Lib} s :
  reachable s -> store_list ["notif"; ""] s = [].
Proof.
  induction 1 as [|s env req _ IH]; [reflexivity|].
  now apply handle_keeps_no_empty_scope.
Qed.

(** C2, on the code.  In every store the server can be in, dismissing or
    deleting a notification by its bare id scans the scope of the empty
    board id, under which nothing is stored, and answers 404 for every id
    and every caller: a notification of the caller stored under its board is
    not found and stays as it was. *)
Theorem bare_id_notification_never_found :
  forall (L : Lib) (s : Store),
    reachable s ->
    forall caller notifId : string,
      let dis := run (patch_api_notify_id_dismiss caller notifId) s in
      let del := run (delete_api_notify_id caller notifId) s in
      searched_notifications s = [] /\
      calls (snd dis) = [CallList ["notif"; ""]] /\
      fst dis = notFound "Notification not found" /\
      kv (snd dis) = s /\
      calls (snd del) = [CallList ["notif"; ""]] /\
      fst del = notFound "Notification not found" /\
      kv (snd del) = s.
Proof.
  intros L s Hreach caller notifId dis del. subst dis del.
  pose proof (reachable_no_empty_scope Hreach) as H.
  unfold searched_notifications, patch_api_notify_id_dismiss,
    delete_api_notify_id.
  run_kv. rewrite H. simpl. repeat split.
Qed.

(** The store of the scenario is reached by two requests of Alice. *)
Lemma scenario_store2_reachable : @reachable Toy.lib Scenario.store2.
Proof.
  pose (hdr := Some ("Bearer " ++ Scenario.alice_token)).
  pose (env1 := mkEnv (Scenario.issued_at + 3600000) "b-1"
                  "2024-05-01T08:00:00.000Z" "2024-05-01T08:00:00.000Z"
                  "salt").
  pose (env2 := mkEnv (Scenario.issued_at + 3600000) "n-1"
                  "2024-05-01T08:01:00.000Z" "2024-05-01T08:01:00.000Z"
                  "salt").
  pose (req1 := mkRequest hdr (POST_boards Scenario.board_fields)).
  pose (req2 := mkRequest hdr
                  (POST_notify (mkNotifyFields (Some "b-1")
                     (Some "drink water") (Some "09:00")))).
  assert (Scenario.store2
          = kv (snd (run (@handle Toy.lib env2 req2)
                       (kv (snd (run (@handle Toy.lib env1 req1) []))))))
    as -> by (vm_compute; reflexivity).
  apply reachable_step, reachable_step, reachable_empty.
Qed.

(** Alice dismisses, then deletes, her notification ["n-1"]: both requests
    are answered 404 and the notification is still there, undismissed. *)
Lemma bare_id_notification_never_found_witness :
  notification_at Scenario.store2 "b-1" "n-1"
  = Some (Notification.mk "n-1" "b-1" Scenario.alice "drink water" "09:00"
            false) /\
  status (fst (run (patch_api_notify_id_dismiss Scenario.alice "n-1")
                 Scenario.store2)) = 404%Z /\
  status (fst (run (delete_api_notify_id Scenario.alice "n-1")
                 Scenario.store2)) = 404%Z /\
  kv (snd (run (delete_api_notify_id Scenario.alice "n-1") Scenario.store2))
  = Scenario.store2.
Proof.
  destruct (@bare_id_notification_never_found Toy.lib Scenario.store2
              scenario_store2_reachable Scenario.alice "n-1")
    as (_ & _ & Hdis & _ & _ & Hdel & Hkv).
  split; [vm_compute; reflexivity|].
  split; [rewrite Hdis; reflexivity|].
  split; [rewrite Hdel; reflexivity | exact Hkv].
Defined.

(** Alice deletes her log ["l-1"] by its id: the handler scans the logs of
    a board whose id would be ["l-1"], finds none and answers 404; the log
    is still stored under its board and date. *)
Lemma delete_log_by_id_misses :
  let r := run (delete_api_logs_id Scenario.alice "l-1") Scenario.store3 in
  log_at Scenario.store3 "b-1" "2024-05-01"
  = Some (Log.mk "l-1" "b-1" Scenario.alice "2024-05-01"
            "2024-05-01T08:05:02.000Z" [Scenario.check_run]) /\
  calls (snd r)
  = [CallGet ["board"; Scenario.alice; ""]; CallList ["log"; "l-1"]] /\
  fst r = notFound "Log not found" /\
  kv (snd r) = Scenario.store3.
Proof. vm_compute. repeat split. Qed.

(** ** Board ids stay unique *)

Lemma In_store_delete e k s :
  In e (store_delete k s) <-> In e s /\ fst e <> k.
Proof.
  unfold store_delete. rewrite filter_In, negb_true_iff, key_eqb_neq.
  split; intros [H N]; split; congruence.
Qed.

Lemma In_store_insert e k v s :
  In e (store_insert k v s) <-> e = (k, v) \/ In e s.
Proof.
  induction s as [|[k' v'] s IH]; simpl.
  - intuition congruence.
  - destruct (key_compare k k'); simpl; rewrite ?IH; intuition congruence.
Qed.

Lemma In_store_set e k v s :
  In e (store_set k v s) <-> e = (k, v) \/ (In e s /\ fst e <> k).
Proof.
  unfold store_set. now rewrite In_store_insert, In_store_delete.
Qed.

Lemma keys_store_insert x k v s :
  In x (map fst (store_insert k v s)) <-> x = k \/ In x (map fst s).
Proof.
  rewrite !in_map_iff. split.
  - intros ([k' v'] & E & H). simpl in E; subst k'.
    apply In_store_insert in H as [H | H].
    + left. congruence.
    + right. now exists (x, v').
  - intros [-> | ([k' v'] & E & H)].
    + exists (k, v). split; [reflexivity|]. apply In_store_insert. now left.
    + exists (k', v'). split; [exact E|]. apply In_store_insert. now right.
Qed.

Lemma NoDup_store_insert k v s :
  ~ In k (map fst s) -> NoDup (map fst s) ->
  NoDup (map fst (store_insert k v s)).
Proof.
  induction s as [|[k' v'] s IH]; simpl; intros Hk Hn.
  - constructor; [tauto | constructor].
  - destruct (key_compare k k') eqn:E; simpl.
    + constructor; assumption.
    + constructor; assumption.
    + inversion Hn as [|? ? Hk' Hn']; subst. constructor.
      * rewrite keys_store_insert. intuition.
      * apply IH; tauto.
Qed.

Lemma NoDup_store_delete k s :
  NoDup (map fst s) -> NoDup (map fst (store_delete k s)).
Proof.
  unfold store_delete. induction s as [|[k' v'] s IH]; simpl; intros Hn.
  - constructor.
  - inversion Hn as [|? ? Hk' Hn']; subst.
    destruct (key_eqb k k'); simpl; [now apply IH|].
    constructor; [|now apply IH].
    rewrite in_map_iff. intros ([k2 v2] & E & H). simpl in E; subst k2.
    apply filter_In in H as [H _]. apply Hk'.
    apply in_map_iff. now exists (k', v2).
Qed.

Lemma NoDup_store_set k v s :
  NoDup (map fst s) -> NoDup (map fst (store_set k v s)).
Proof.
  intros Hn. unfold store_set. apply NoDup_store_insert.
  - rewrite in_map_iff. intros ([k' v'] & E & H). simpl in E; subst k'.
    apply In_store_delete in H as [_ N]. now apply N.
  - now apply NoDup_store_delete.
Qed.

Lemma NoDup_keys_functional k v1 v2 (s : Store) :
  NoDup (map fst s) -> In (k, v1) s -> In (k, v2) s -> v1 = v2.
Proof.
  induction s as [|[k' v'] s IH]; simpl; [tauto|].
  intros Hn H1 H2. inversion Hn as [|? ? Hk' Hn']; subst.
  assert (forall v, In (k', v) s -> False) as No.
  { intros v H. apply Hk'. apply in_map_iff. now exists (k', v). }
  destruct H1 as [E1 | H1], H2 as [E2 | H2].
  - congruence.
  - injection E1 as -> _. now apply No in H2.
  - injection E2 as -> _. now apply No in H1.
  - now apply IH.
Qed.

Lemma values_as_board_inv b es :
  In b (values_as as_board es) -> exists k, In (k, VBoard b) es.
Proof.
  induction es as [|[k v] es IH]; simpl; [tauto|].
  destruct v; simpl; try (intros H; destruct (IH H) as [k' Hk'];
                          exists k'; now right).
  intros [-> | H].
  - exists k. now left.
  - destruct (IH H) as [k' Hk']. exists k'. now right.
Qed.

Lemma stored_boards_In s b :
  In b (stored_boards s) <-> exists k, In (k, VBoard b) s /\ under_board k.
Proof.
  unfold stored_boards, under_board. split.
  - intros H. apply values_as_board_inv in H as [k H].
    apply store_list_In in H. now exists k.
  - intros (k & H & U). apply values_as_board_In with (k := k).
    apply store_list_In. now split.
Qed.

(** In a well-formed store no two stored boards share an id. *)
Lemma boards_wf_unique s : boards_wf s -> unique_board_ids s.
Proof.
  intros [Hn He Hi] b1 b2 H1 H2 E.
  apply stored_boards_In in H1 as (k1 & H1 & U1).
  apply stored_boards_In in H2 as (k2 & H2 & U2).
  assert (k1 = k2) as -> by (eapply Hi; eassumption).
  assert (VBoard b1 = VBoard b2) as X
    by (eapply NoDup_keys_functional; eassumption).
  now injection X.
Qed.

Lemma boards_wf_empty : boards_wf [].
Proof. constructor; simpl; [constructor | tauto | tauto]. Qed.

Lemma boards_wf_delete k s : boards_wf s -> boards_wf (store_delete k s).
Proof.
  intros [Hn He Hi]. constructor.
  - now apply NoDup_store_delete.
  - intros k' v H. apply In_store_delete in H as [H _]. now apply He.
  - intros k1 b1 k2 b2 H1 H2.
    apply In_store_delete in H1 as [H1 _].
    apply In_store_delete in H2 as [H2 _]. now apply Hi.
Qed.

(** Writing outside the board keyspace. *)
Lemma boards_wf_set_other k v s :
  starts_with ["board"] k = false -> boards_wf s ->
  boards_wf (store_set k v s).
Proof.
  intros F [Hn He Hi]. constructor.
  - now apply NoDup_store_set.
  - intros k' v' H U. apply In_store_set in H as [E | [H _]].
    + injection E as -> ->. unfold under_board in U. congruence.
    + now apply He.
  - intros k1 b1 k2 b2 H1 H2 U1 U2.
    apply In_store_set in H1 as [E1 | [H1 _]];
      [injection E1 as -> _; unfold under_board in U1; congruence|].
    apply In_store_set in H2 as [E2 | [H2 _]];
      [injection E2 as -> _; unfold under_board in U2; congruence|].
    now apply Hi.
Qed.

(** Writing a board under its own key, when every other stored board has
    another id. *)
Lemma boards_wf_set_board b s :
  boards_wf s ->
  (forall k' b', In (k', VBoard b') s -> under_board k' ->
                 Board.id b' = Board.id b -> k' = board_key b) ->
  boards_wf (store_set (board_key b) (VBoard b) s).
Proof.
  intros [Hn He Hi] Hother. constructor.
  - now apply NoDup_store_set.
  - intros k' v' H U. apply In_store_set in H as [E | [H _]].
    + injection E as -> ->. now exists b.
    + now apply He.
  - intros k1 b1 k2 b2 H1 H2 U1 U2 E.
    apply In_store_set in H1 as [E1 | [H1 N1]];
      apply In_store_set in H2 as [E2 | [H2 N2]]; simpl in *.
    + congruence.
    + injection E1 as -> ->. exfalso. apply N2.
      apply (Hother k2 b2 H2 U2). congruence.
    + injection E2 as -> ->. exfalso. apply N1.
      apply (Hother k1 b1 H1 U1). congruence.
    + now apply (Hi k1 b1 k2 b2).
Qed.

Ltac keep_wf :=
  repeat first
    [ assumption
    | apply boards_wf_delete
    | apply boards_wf_set_other; [reflexivity|] ].

Lemma post_api_boards_keeps_wf id now userId b s w :
  kv w = s -> boards_wf s -> fresh_board_id s id ->
  boards_wf (kv (snd (post_api_boards id now userId b w))).
Proof.
  intros <- Hwf Hfresh. unfold post_api_boards.
  destruct (present (bf_title b)) as [title|]; [|exact Hwf].
  destruct (present (bf_markdown b)) as [markdown|]; [|exact Hwf].
  cbv zeta. run_kv.
  set (newBoard := Board.mk id userId title markdown _ _ _ now now).
  change ["board"; userId; id] with (board_key newBoard).
  apply boards_wf_set_board; [exact Hwf|].
  intros k' b' Hin U E. exfalso. apply (Hfresh b'); [|exact E].
  apply stored_boards_In. now exists k'.
Qed.

Lemma put_api_boards_id_keeps_wf now userId boardId b s w :
  kv w = s -> boards_wf s ->
  boards_wf (kv (snd (put_api_boards_id now userId boardId b w))).
Proof.
  intros <- Hwf. unfold put_api_boards_id. rewrite bind_run, getBoard_run.
  cbn [fst snd kv].
  destruct (board_at (kv w) userId boardId) as [board|] eqn:Hb;
    [|exact Hwf].
  cbv zeta. run_kv.
  assert (In (["board"; userId; boardId], VBoard board) (kv w)) as Hin.
  { apply store_get_In. unfold board_at in Hb.
    destruct (store_get ["board"; userId; boardId] (kv w)) as [v|];
      [destruct v|]; try discriminate. now injection Hb as ->. }
  destruct (@wf_entries _ Hwf _ _ Hin eq_refl) as (b0 & E0 & Hk).
  injection E0 as <-. unfold board_key in Hk.
  injection Hk as -> ->.
  change ["board"; Board.userId board; Board.id board]
    with (board_key (updatedBoard board b now)).
  apply boards_wf_set_board; [exact Hwf|].
  intros k' b' Hin' U E.
  exact (@wf_ids _ Hwf _ _ _ _ Hin' Hin U eq_refl E).
Qed.

(** Every request keeps the board keyspace well formed when the id it
    draws is fresh. *)
Lemma handle_keeps_boards_wf {L : Lib} env req s :
  boards_wf s -> fresh_board_id s (new_id env) ->
  boards_wf (kv (snd (run (handle env req) s))).
Proof.
  intros H Hfresh. destruct req as [hdr e]. unfold run, handle. simpl.
  destruct e;
    try match goal with
        | |- context [authMiddleware ?n ?h ?k ?w] =>
            destruct (@authMiddleware_cases L n h k w)
              as [(m & c & ->) | (uid & uname & ->)]; [exact H|]
        end.
  - unfold post_api_register.
    destruct (present (cred_username b)) as [username|]; [|exact H].
    destruct (present (cred_password b)) as [password|]; [|exact H].
    destruct (js_length password <? 6)%nat; [exact H|].
    rewrite bind_run.
    destruct (getUserByUsername_run username (mkWorld s [])) as [-> Hkv].
    set (w' := snd (getUserByUsername username (mkWorld s []))) in *.
    simpl in Hkv.
    destruct (user_by_username _ username); cbv zeta; run_kv; rewrite Hkv;
      keep_wf.
  - unfold post_api_login.
    destruct (present (cred_username b)) as [username|]; [|exact H].
    destruct (present (cred_password b)) as [password|]; [|exact H].
    rewrite bind_run.
    destruct (getUserByUsername_run username (mkWorld s [])) as [-> Hkv].
    set (w' := snd (getUserByUsername username (mkWorld s []))) in *.
    simpl in Hkv.
    destruct (user_by_username _ username) as [user|];
      [|simpl; now rewrite Hkv].
    destruct (negb _); [simpl; now rewrite Hkv|].
    destruct (generateToken _ _ _); simpl; now rewrite Hkv.
  - unfold get_api_me. run_kv. split_matches; keep_wf.
  - exact H.
  - unfold get_api_boards. run_kv. exact H.
  - unfold get_api_boards_id. run_kv. split_matches; keep_wf.
  - now apply post_api_boards_keeps_wf with (s := s).
  - now apply put_api_boards_id_keeps_wf with (s := s).
  - unfold delete_api_boards_id. run_kv. split_matches; keep_wf.
  - unfold get_api_public_boardId. run_kv. split_matches; keep_wf.
  - unfold get_api_logs_boardId. run_kv. split_matches; keep_wf.
  - unfold get_api_logs_boardId_date. run_kv. split_matches; keep_wf.
  - unfold post_api_logs. run_kv. split_matches; keep_wf.
  - unfold delete_api_logs_id. run_kv. split_matches; keep_wf.
  - unfold get_api_notify_boardId. run_kv. split_matches; keep_wf.
  - unfold post_api_notify. run_kv. split_matches; keep_wf.
  - unfold patch_api_notify_id_dismiss. run_kv. split_matches; keep_wf.
  - unfold delete_api_notify_id. run_kv. split_matches; keep_wf.
Qed.

Lemma reachable_fresh_boards_wf {L : Lib} s : reachable_fresh s -> boards_wf s.
Proof.
  induction 1 as [|s env req _ IH Hfresh]; [apply boards_wf_empty|].
  now apply handle_keeps_boards_wf.
Qed.

(** In every store reached with fresh ids, board ids are unique. *)
Lemma reachable_fresh_unique_board_ids {L : Lib} s :
  reachable_fresh s -> unique_board_ids s.
Proof. intros H. apply boards_wf_unique. now apply reachable_fresh_boards_wf. Qed.

(** ** User objects in the answers of every route *)

(** X27. Whatever the request and the store, a user object in the answer
    of a route has no [passwordHash] field. *)
Lemma user_objects_without_password_hash {L : Lib} env req s o :
  response_user (fst (run (handle env req) s)) = Some o ->
  obj_get "passwordHash" o = None.
Proof.
  destruct req as [hdr e]. unfold run, handle. simpl.
  destruct e;
    try match goal with
        | |- context [authMiddleware ?n ?h ?k ?w] =>
            destruct (@authMiddleware_cases L n h k w)
              as [(m & c & ->) | (uid & uname & ->)]; [discriminate|]
        end.
  - unfold post_api_register.
    destruct (present (cred_username b)) as [username|]; [|discriminate].
    destruct (present (cred_password b)) as [password|]; [|discriminate].
    destruct (js_length password <? 6)%nat; [discriminate|].
    rewrite bind_run.
    destruct (getUserByUsername_run username (mkWorld s [])) as [-> _].
    destruct (user_by_username _ username); [discriminate|].
    cbv zeta. run_kv. intros [= <-]. apply obj_get_omit_same.
  - unfold post_api_login.
    destruct (present (cred_username b)) as [username|]; [|discriminate].
    destruct (present (cred_password b)) as [password|]; [|discriminate].
    rewrite bind_run.
    destruct (getUserByUsername_run username (mkWorld s [])) as [-> _].
    destruct (user_by_username _ username) as [user|]; [|discriminate].
    destruct (negb _); [discriminate|].
    destruct (generateToken _ _ _); [|discriminate].
    intros [= <-]. apply obj_get_omit_same.
  - unfold get_api_me. run_kv.
    destruct (as_user _) as [user|]; [|discriminate].
    intros [= <-]. apply obj_get_omit_same.
  - discriminate.
  - unfold get_api_boards. run_kv. discriminate.
  - unfold get_api_boards_id. run_kv. split_matches; discriminate.
  - unfold post_api_boards. run_kv. split_matches; discriminate.
  - unfold put_api_boards_id. run_kv. split_matches; discriminate.
  - unfold delete_api_boards_id. run_kv. split_matches; discriminate.
  - unfold get_api_public_boardId. run_kv. split_matches; discriminate.
  - unfold get_api_logs_boardId. run_kv. split_matches; discriminate.
  - unfold get_api_logs_boardId_date. run_kv. split_matches; discriminate.
  - unfold post_api_logs. run_kv. split_matches; discriminate.
  - unfold delete_api_logs_id. run_kv. split_matches; discriminate.
  - unfold get_api_notify_boardId. run_kv. split_matches; discriminate.
  - unfold post_api_notify. run_kv. split_matches; discriminate.
  - unfold patch_api_notify_id_dismiss. run_kv. split_matches; discriminate.
  - unfold delete_api_notify_id. run_kv. split_matches; discriminate.
Qed.

(** The answer to the login of Alice. *)
Lemma user_objects_without_password_hash_witness :
  let env := mkEnv Scenario.issued_at "" "" "" "" in
  let req := mkRequest None (POST_login Scenario.alice_credentials) in
  response_user (fst (run (@handle Toy.lib env req) Scenario.store_users))
  = Some [("id", "u-alice"); ("username", "alice");
          ("createdAt", "2024-04-30T20:00:00.000Z")] /\
  obj_get "passwordHash"
    [("id", "u-alice"); ("username", "alice");
     ("createdAt", "2024-04-30T20:00:00.000Z")] = None.
Proof.
  intros env req.
  assert (response_user
            (fst (run (@handle Toy.lib env req) Scenario.store_users))
          = Some [("id", "u-alice"); ("username", "alice");
                  ("createdAt", "2024-04-30T20:00:00.000Z")]) as E
    by (vm_compute; reflexivity).
  split; [exact E|].
  exact (@user_objects_without_password_hash Toy.lib env req
           Scenario.store_users _ E).
Defined.

(** ** A session through the routes

    Alice registers, logs in, creates a board with the token of the login
    and reads it back; the same read without the token is turned away. *)
Lemma session_through_routes :
  let hdr := Some ("Bearer " ++ Scenario.alice_token) in
  let env id := mkEnv Scenario.issued_at id "2024-05-01T08:00:00.000Z"
                  "2024-05-01T08:00:00.000Z" "salt-1" in
  let login := run (@handle Toy.lib (env "")
                      (mkRequest None
                         (POST_login Scenario.alice_credentials)))
                   Scenario.store_users in
  let make := run (@handle Toy.lib (env "b-1")
                     (mkRequest hdr (POST_boards Scenario.board_fields)))
                  (kv (snd login)) in
  let read h := run (@handle Toy.lib (env "")
                       (mkRequest h (GET_boards_id "b-1")))
                    (kv (snd make)) in
  fst login
  = success (DSession Scenario.alice_token
               (userWithoutPassword Scenario.alice_user)) /\
  fst make = created (DBoard Scenario.board1) /\
  fst (read hdr) = success (DBoard Scenario.board1) /\
  status (fst (read None)) = 401%Z.
Proof. vm_compute. repeat split. Qed.

(** * Further properties of the routes *)

(** ** Scans and writes *)

Lemma values_as_In {A} (f : option Value -> option A) es a :
  In a (values_as f es) <-> exists k v, In (k, v) es /\ f (Some v) = Some a.
Proof.
  induction es as [|[k v] es IH]; simpl.
  - split; [tauto | intros (k & v & [] & _)].
  - destruct (f (Some v)) as [a'|] eqn:E; simpl; rewrite IH; split.
    + intros [-> | (k' & v' & H & F)].
      * exists k, v. split; [now left | exact E].
      * exists k', v'. split; [now right | exact F].
    + intros (k' & v' & [X | H] & F).
      * injection X as -> ->. left. congruence.
      * right. now exists k', v'.
    + intros (k' & v' & H & F). exists k', v'. split; [now right | exact F].
    + intros (k' & v' & [X | H] & F).
      * injection X as -> ->. congruence.
      * now exists k', v'.
Qed.

Lemma filter_absorb {A} (f g : A -> bool) l :
  (forall x, g x = true -> f x = true) ->
  filter f (filter g l) = filter g l.
Proof.
  intros H. induction l as [|x l IH]; simpl; [reflexivity|].
  destruct (g x) eqn:G; simpl; [|exact IH].
  now rewrite (H x G), IH.
Qed.

(** A write under a key outside a prefix leaves the scan of the prefix as
    it was. *)
Lemma store_list_set_other p k v s :
  starts_with p k = false ->
  store_list p (store_set k v s) = store_list p s.
Proof.
  intros F. unfold store_set.
  rewrite store_list_insert_skip by exact F.
  rewrite store_list_delete. unfold store_delete, store_list.
  apply filter_absorb. intros e He.
  apply negb_true_iff, key_eqb_neq. intros ->. congruence.
Qed.

Lemma store_list_delete_other p k s :
  starts_with p k = false ->
  store_list p (store_delete k s) = store_list p s.
Proof.
  intros F. rewrite store_list_delete. unfold store_delete, store_list.
  apply filter_absorb. intros e He.
  apply negb_true_iff, key_eqb_neq. intros ->. congruence.
Qed.

Lemma store_get_of_In k v (s : Store) :
  NoDup (map fst s) -> In (k, v) s -> store_get k s = Some v.
Proof.
  induction s as [|[k' v'] s IH]; simpl; [tauto|].
  intros Hn H. inversion Hn as [|? ? Hk' Hn']; subst.
  destruct (key_eqb k k') eqn:E.
  - apply key_eqb_eq in E; subst k'. destruct H as [X | H].
    + now injection X as ->.
    + exfalso. apply Hk'. apply in_map_iff. now exists (k, v).
  - destruct H as [X | H]; [|now apply IH].
    injection X as -> _. now rewrite key_eqb_refl in E.
Qed.

Lemma starts_with_owner_scope owner k :
  starts_with ["board"; owner] k = true ->
  under_board k /\ exists rest, k = "board" :: owner :: rest.
Proof.
  unfold under_board. destruct k as [|x [|y rest]]; cbn [starts_with];
    try discriminate.
  - now rewrite andb_false_r.
  - intros H. apply andb_true_iff in H as [Hx H].
    apply andb_true_iff in H as [Hy _].
    apply String.eqb_eq in Hx, Hy. subst x y.
    split; [|now exists rest].
    cbn [starts_with]. now rewrite String.eqb_refl.
Qed.

(** ** Listing, creating and deleting boards *)

(** X1. The board list of a caller is the result of one scan of the
    caller's own key prefix and leaves the store as it was.  It holds every
    board stored under a key of the caller; in a well-formed store each
    listed board carries the caller as [userId] and is the board stored
    under the caller's key for its id. *)
Theorem board_list_is_the_callers :
  forall (s : Store) (caller : string),
    let r := run (get_api_boards caller) s in
    exists boards,
      fst r = success (DBoards boards) /\
      answers_data (fst r) 200 (DBoards boards) /\
      kv (snd r) = s /\
      calls (snd r) = [CallList ["board"; caller]] /\
      (forall id b, board_at s caller id = Some b -> In b boards) /\
      (boards_wf s ->
       forall b, In b boards ->
                 Board.userId b = caller /\
                 board_at s caller (Board.id b) = Some b).
Proof.
  intros s caller r. subst r.
  exists (values_as as_board (store_list ["board"; caller] s)).
  unfold get_api_boards. run_kv.
  split; [reflexivity|]. split; [split; reflexivity|].
  split; [reflexivity|]. split; [reflexivity|].
  split.
  - intros id b Hb. unfold board_at in Hb.
    destruct (store_get ["board"; caller; id] s) as [v|] eqn:G;
      [destruct v|]; try discriminate.
    injection Hb as ->. apply store_get_In in G.
    apply values_as_In. exists ["board"; caller; id], (VBoard b).
    split; [|reflexivity]. apply store_list_In. split; [exact G|].
    cbn [fst starts_with]. now rewrite !String.eqb_refl.
  - intros Hwf b Hb.
    apply values_as_In in Hb as (k & v & Hin & Hv).
    destruct v; try discriminate. injection Hv as ->.
    apply store_list_In in Hin as [Hin Hp]. cbn [fst] in Hp.
    destruct (starts_with_owner_scope _ _ Hp) as [Hu (rest & ->)].
    destruct (@wf_entries _ Hwf _ _ Hin Hu) as (b0 & E0 & Hk).
    injection E0 as <-. unfold board_key in Hk.
    injection Hk as -> ->. split; [reflexivity|].
    unfold board_at.
    now rewrite (@store_get_of_In _ _ _ (wf_keys Hwf) Hin).
Qed.

Lemma scenario_store1_wf : boards_wf Scenario.store1.
Proof.
  unfold Scenario.store1, run.
  apply post_api_boards_keeps_wf with (s := []);
    [reflexivity | apply boards_wf_empty | intros b []].
Qed.

Lemma scenario_store_two_wf : boards_wf Scenario.store_two.
Proof.
  unfold Scenario.store_two, run.
  apply post_api_boards_keeps_wf with (s := Scenario.store1);
    [reflexivity | apply scenario_store1_wf |].
  intros b Hb.
  assert (stored_boards Scenario.store1 = [Scenario.board1]) as E
    by (vm_compute; reflexivity).
  rewrite E in Hb. destruct Hb as [<- | []]. discriminate.
Qed.

(** With a board of Alice and one of Bob stored, the list of Alice is her
    board alone. *)
Lemma board_list_is_the_callers_witness :
  answers_data
    (fst (run (get_api_boards Scenario.alice) Scenario.store_two))
    200 (DBoards [Scenario.board1]) /\
  (forall b, In b [Scenario.board1] -> Board.userId b = Scenario.alice).
Proof.
  destruct (@board_list_is_the_callers Scenario.store_two Scenario.alice)
    as (boards & _ & Hr & _ & _ & _ & Hown).
  assert (boards = [Scenario.board1]) as ->.
  { assert (body (fst (run (get_api_boards Scenario.alice)
                         Scenario.store_two))
            = Some (mkApi true (Some (DBoards [Scenario.board1])) None))
      as E by (vm_compute; reflexivity).
    destruct Hr as [_ Hb]. rewrite E in Hb. now injection Hb. }
  split; [exact Hr|].
  intros b Hb. exact (proj1 (Hown scenario_store_two_wf b Hb)).
Defined.

Lemma starts_with_other_owner other caller id :
  other <> caller -> starts_with ["board"; other] ["board"; caller; id] = false.
Proof.
  intros N. cbn [starts_with]. apply String.eqb_neq in N.
  now rewrite N, andb_false_r.
Qed.

(** X2. A board created by a caller is in the caller's list right after,
    and the list of every other user is what it was before. *)
Theorem created_board_is_listed :
  forall (s : Store) (id now caller : string) (b : BoardFields),
    truthy (bf_title b) = true ->
    truthy (bf_markdown b) = true ->
    let made := run (post_api_boards id now caller b) s in
    exists board boards,
      fst made = created (DBoard board) /\
      answers_data (fst made) 201 (DBoard board) /\
      fst (run (get_api_boards caller) (kv (snd made)))
      = success (DBoards boards) /\
      answers_data (fst (run (get_api_boards caller) (kv (snd made))))
        200 (DBoards boards) /\
      In board boards /\
      forall other,
        other <> caller ->
        fst (run (get_api_boards other) (kv (snd made)))
        = fst (run (get_api_boards other) s).
Proof.
  intros s id now caller b Ht Hm made.
  destruct (present_truthy _ Ht) as (title & Pt & _).
  destruct (present_truthy _ Hm) as (markdown & Pm & _).
  subst made. unfold post_api_boards. rewrite Pt, Pm. cbv zeta.
  set (newBoard := Board.mk id caller title markdown _ _ _ now now).
  exists newBoard.
  exists (values_as as_board
            (store_list ["board"; caller]
               (store_set ["board"; caller; id] (VBoard newBoard) s))).
  unfold get_api_boards. run_kv.
  split; [reflexivity|]. split; [split; reflexivity|].
  split; [reflexivity|]. split; [split; reflexivity|]. split.
  - apply values_as_In. exists ["board"; caller; id], (VBoard newBoard).
    split; [|reflexivity]. apply store_list_In. split.
    + apply In_store_set. now left.
    + cbn [fst starts_with]. now rewrite !String.eqb_refl.
  - intros other N.
    now rewrite store_list_set_other
      by (apply starts_with_other_owner; exact N).
Qed.

(** Bob's new board is in his list and the list of Alice is unchanged. *)
Lemma created_board_is_listed_witness :
  answers_data (fst (run (get_api_boards Scenario.bob) Scenario.store_two))
    200 (DBoards [Scenario.board2]) /\
  fst (run (get_api_boards Scenario.alice) Scenario.store_two)
  = fst (run (get_api_boards Scenario.alice) Scenario.store1).
Proof.
  destruct (@created_board_is_listed Scenario.store1 "b-2"
              "2024-05-01T19:00:00.000Z" Scenario.bob Scenario.bob_fields
              eq_refl eq_refl)
    as (board & boards & _ & _ & _ & _ & _ & Hother).
  split; [split; vm_compute; reflexivity|].
  apply (Hother Scenario.alice). discriminate.
Defined.

(** X3. Deleting a board of the caller answers 204 and removes the board:
    reading it or deleting it again answers 404.  Nothing else is removed:
    every other key, and so every log and notification of the board, is
    still stored, while the log list of the board is now refused with
    403. *)
Theorem board_delete_leaves_logs :
  forall (s : Store) (caller boardId : string) (board : Board.t),
    board_at s caller boardId = Some board ->
    let del := run (delete_api_boards_id caller boardId) s in
    let s' := kv (snd del) in
    fst del = noContent /\
    board_at s' caller boardId = None /\
    fst (run (get_api_boards_id caller boardId) s')
    = notFound "Board not found" /\
    fst (run (delete_api_boards_id caller boardId) s')
    = notFound "Board not found" /\
    (forall k, k <> ["board"; caller; boardId] ->
               store_get k s' = store_get k s) /\
    (forall date, log_at s' boardId date = log_at s boardId date) /\
    (forall notifId,
       notification_at s' boardId notifId
       = notification_at s boardId notifId) /\
    store_list ["log"; boardId] s' = store_list ["log"; boardId] s /\
    fst (run (get_api_logs_boardId caller boardId) s')
    = forbidden "Access denied" /\
    (status (fst del) = 204%Z /\ body (fst del) = None) /\
    answers_error (fst (run (get_api_boards_id caller boardId) s'))
      404 "Board not found" /\
    answers_error (fst (run (delete_api_boards_id caller boardId) s'))
      404 "Board not found" /\
    answers_error (fst (run (get_api_logs_boardId caller boardId) s'))
      403 "Access denied".
Proof.
  intros s caller boardId board Hb del s'. subst s' del.
  unfold delete_api_boards_id, run. rewrite bind_run, getBoard_run.
  cbn [fst snd kv]. rewrite Hb. run_kv.
  assert (board_at (store_delete ["board"; caller; boardId] s) caller
            boardId = None) as Hgone
    by (unfold board_at; now rewrite store_get_delete_same).
  split; [reflexivity|]. split; [exact Hgone|].
  unfold board_at in Hgone.
  split; [unfold get_api_boards_id; run_kv; now rewrite Hgone|].
  split; [now rewrite Hgone|].
  split; [intros k Hk; apply store_get_delete_other; congruence|].
  split; [intros date; unfold log_at;
          now rewrite store_get_delete_other by discriminate|].
  split; [intros notifId; unfold notification_at;
          now rewrite store_get_delete_other by discriminate|].
  split; [apply store_list_delete_other; reflexivity|].
  unfold get_api_logs_boardId, get_api_boards_id, answers_error. run_kv.
  rewrite Hgone. repeat split.
Qed.

(** Alice deletes her board after posting a log for it: the log stays. *)
Lemma board_delete_leaves_logs_witness :
  let s' := kv (snd (run (delete_api_boards_id Scenario.alice "b-1")
                       Scenario.store3)) in
  log_at s' "b-1" "2024-05-01"
  = log_at Scenario.store3 "b-1" "2024-05-01" /\
  answers_error (fst (run (get_api_logs_boardId Scenario.alice "b-1") s'))
    403 "Access denied".
Proof.
  intros s'.
  assert (board_at Scenario.store3 Scenario.alice "b-1"
          = Some Scenario.board1) as Hb by (vm_compute; reflexivity).
  destruct (@board_delete_leaves_logs Scenario.store3 Scenario.alice "b-1"
              Scenario.board1 Hb)
    as (_ & _ & _ & _ & _ & Hlog & _ & _ & _ & _ & _ & _ & Hforbid).
  split; [apply Hlog | exact Hforbid].
Defined.

(** ** Visibility and the public lookup *)

(** With unique board ids, the public lookup by the id of a stored board is
    decided by the visibility of that board. *)
Lemma public_lookup_of_stored s board :
  unique_board_ids s ->
  In board (stored_boards s) ->
  fst (run (get_api_public_boardId (Board.id board)) s)
  = if Board.visibility board =? "public"
    then success (DBoard board)
    else notFound "Public board not found".
Proof.
  intros Huniq Hin. rewrite get_api_public_run. cbn [fst].
  destruct (find (is_public (Board.id board)) (stored_boards s))
    as [b|] eqn:F.
  - apply find_some in F as [Hin' Hp]. apply is_public_true in Hp.
    destruct Hp as [Hid Hvis].
    assert (b = board) as -> by (apply Huniq; assumption).
    now rewrite Hvis.
  - pose proof (find_none _ _ F _ Hin) as N. unfold is_public in N.
    rewrite String.eqb_refl in N. simpl in N. now rewrite N.
Qed.

Lemma board_at_entry s caller boardId board :
  board_at s caller boardId = Some board ->
  In (["board"; caller; boardId], VBoard board) s.
Proof.
  unfold board_at. intros H.
  destruct (store_get ["board"; caller; boardId] s) as [v|] eqn:G;
    [destruct v|]; try discriminate.
  injection H as ->. now apply store_get_In.
Qed.

Lemma board_at_key s caller boardId board :
  boards_wf s -> board_at s caller boardId = Some board ->
  Board.userId board = caller /\ Board.id board = boardId.
Proof.
  intros Hwf Hb. apply board_at_entry in Hb.
  destruct (@wf_entries _ Hwf _ _ Hb eq_refl) as (b0 & E0 & Hk).
  injection E0 as <-. unfold board_key in Hk. now injection Hk.
Qed.

(** X4. In a well-formed store, after the owner updates a board the public
    lookup by its id answers 200 with the updated board when the updated
    visibility is "public", and 404 otherwise: publishing a board makes it
    readable without a credential and taking "public" away hides it
    again. *)
Theorem board_update_governs_public_lookup :
  forall (s : Store) (now caller boardId : string) (b : BoardFields)
         (board : Board.t),
    boards_wf s ->
    board_at s caller boardId = Some board ->
    let s' := kv (snd (run (put_api_boards_id now caller boardId b) s)) in
    let board' := updatedBoard board b now in
    let looked := fst (run (get_api_public_boardId boardId) s') in
    (Board.visibility board' = "public" ->
     looked = success (DBoard board') /\
     answers_data looked 200 (DBoard board')) /\
    (Board.visibility board' <> "public" ->
     looked = notFound "Public board not found" /\
     answers_error looked 404 "Public board not found").
Proof.
  intros s now caller boardId b board Hwf Hb s' board' looked.
  assert (boards_wf s') as Hwf'
    by (apply put_api_boards_id_keeps_wf with (s := s);
        [reflexivity | exact Hwf]).
  assert (board_at s' caller boardId = Some board') as Hb'.
  { subst s'. unfold put_api_boards_id, run.
    rewrite bind_run, getBoard_run. cbn [fst snd kv]. rewrite Hb.
    run_kv. unfold board_at. now rewrite store_get_set_same. }
  destruct (@board_at_key _ _ _ _ Hwf Hb) as [_ Hid].
  assert (Board.id board' = boardId) as Hid' by exact Hid.
  pose proof (@public_lookup_of_stored s' board'
                (@boards_wf_unique _ Hwf')
                (@board_at_stored _ _ _ _ Hb')) as P.
  rewrite Hid' in P. fold looked in P. rewrite P. split.
  - intros ->. repeat split.
  - intros N. apply String.eqb_neq in N. rewrite N. repeat split.
Qed.

(** Alice publishes her board, then makes it private again. *)
Lemma board_update_governs_public_lookup_witness :
  answers_data
    (fst (run (get_api_public_boardId "b-1") Scenario.store1_public))
    200 (DBoard Scenario.board1_public) /\
  answers_error
    (fst (run (get_api_public_boardId "b-1")
            (kv (snd (run (put_api_boards_id "2024-05-03T10:00:00.000Z"
                             Scenario.alice "b-1"
                             (mkBoardFields None None (Some "private") None
                                None))
                        Scenario.store1_public)))))
    404 "Public board not found".
Proof.
  split.
  - destruct (@board_update_governs_public_lookup Scenario.store1
                "2024-05-02T10:00:00.000Z" Scenario.alice "b-1"
                (mkBoardFields None None (Some "public") None None)
                Scenario.board1 scenario_store1_wf eq_refl) as [Hpub _].
    apply Hpub. reflexivity.
  - assert (boards_wf Scenario.store1_public) as Hwf
      by (apply put_api_boards_id_keeps_wf with (s := Scenario.store1);
          [reflexivity | apply scenario_store1_wf]).
    destruct (@board_update_governs_public_lookup Scenario.store1_public
                "2024-05-03T10:00:00.000Z" Scenario.alice "b-1"
                (mkBoardFields None None (Some "private") None None)
                Scenario.board1_public Hwf eq_refl) as [_ Hpriv].
    apply Hpriv. discriminate.
Defined.

(** X5. In a well-formed store, once the owner has deleted a board the
    public lookup by its id answers 404, whatever its visibility was. *)
Theorem deleted_board_is_not_public :
  forall (s : Store) (caller boardId : string) (board : Board.t),
    boards_wf s ->
    board_at s caller boardId = Some board ->
    let s' := kv (snd (run (delete_api_boards_id caller boardId) s)) in
    fst (run (get_api_public_boardId boardId) s')
    = notFound "Public board not found" /\
    answers_error (fst (run (get_api_public_boardId boardId) s'))
      404 "Public board not found".
Proof.
  intros s caller boardId board Hwf Hb s'.
  assert (s' = store_delete ["board"; caller; boardId] s) as ->.
  { subst s'. unfold delete_api_boards_id, run.
    rewrite bind_run, getBoard_run. cbn [fst snd kv]. rewrite Hb.
    reflexivity. }
  rewrite get_api_public_run. cbn [fst].
  destruct (find (is_public boardId) (stored_boards _)) as [b'|] eqn:F;
    [|repeat split].
  exfalso. apply find_some in F as [Hin Hp].
  apply is_public_true in Hp as [Hid _].
  apply stored_boards_In in Hin as (k' & Hin & U).
  apply In_store_delete in Hin as [Hin N]. cbn [fst] in N.
  destruct (@board_at_key _ _ _ _ Hwf Hb) as [_ Hid0].
  apply N. apply board_at_entry in Hb.
  apply (@wf_ids _ Hwf _ _ _ _ Hin Hb U eq_refl). congruence.
Qed.

(** Bob deletes his public board. *)
Lemma deleted_board_is_not_public_witness :
  fst (run (get_api_public_boardId "b-2") Scenario.store_two)
  = success (DBoard Scenario.board2) /\
  answers_error
    (fst (run (get_api_public_boardId "b-2")
            (kv (snd (run (delete_api_boards_id Scenario.bob "b-2")
                        Scenario.store_two)))))
    404 "Public board not found".
Proof.
  split; [vm_compute; reflexivity|].
  apply (@deleted_board_is_not_public Scenario.store_two Scenario.bob "b-2"
           Scenario.board2 scenario_store_two_wf).
  vm_compute; reflexivity.
Defined.

(** ** Logs and notifications of a board *)

Lemma board_at_set_other s k v caller boardId :
  k <> ["board"; caller; boardId] ->
  board_at (store_set k v s) caller boardId = board_at s caller boardId.
Proof.
  intros N. unfold board_at. now rewrite store_get_set_other by exact N.
Qed.

Lemma starts_with_other_scope kind a b x :
  a <> b -> starts_with [kind; a] [kind; b; x] = false.
Proof.
  intros N. cbn [starts_with]. apply String.eqb_neq in N.
  now rewrite N, andb_false_r.
Qed.

(** X6. After a log upsert for a board of the caller, the log of the answer
    is what the caller reads back for that board and date and it is in the
    log list of the board; the log list of every other board is what it was
    before. *)
Theorem posted_log_is_readable :
  forall (s : Store) (id now1 now2 caller boardId : string)
         (actions : list LogAction.t) (date : option string)
         (board : Board.t),
    boardId <> "" ->
    board_at s caller boardId = Some board ->
    let d := logDate date now1 in
    let posted := run (post_api_logs id now1 now2 caller
                         (mkLogFields (Some boardId) (Some actions) date))
                      s in
    let s' := kv (snd posted) in
    exists log logs,
      api_data_of (fst posted) = Some (DLog log) /\
      fst (run (get_api_logs_boardId_date caller boardId d) s')
      = success (DLog log) /\
      answers_data
        (fst (run (get_api_logs_boardId_date caller boardId d) s'))
        200 (DLog log) /\
      fst (run (get_api_logs_boardId caller boardId) s')
      = success (DLogs logs) /\
      answers_data (fst (run (get_api_logs_boardId caller boardId) s'))
        200 (DLogs logs) /\
      In log logs /\
      forall user other,
        other <> boardId ->
        fst (run (get_api_logs_boardId user other) s')
        = fst (run (get_api_logs_boardId user other) s).
Proof.
  intros s id now1 now2 caller boardId actions date board Hne Hb d posted s'.
  destruct (@post_api_logs_store s id now1 now2 caller boardId actions date
              board Hne Hb) as [Hr Hs].
  fold d in Hr, Hs. fold posted in Hr, Hs. fold s' in Hs.
  set (written := match log_at s boardId d with
                  | Some existingLog => updatedLog existingLog actions now2
                  | None => Log.mk id boardId caller d now2 actions
                  end) in *.
  assert (board_at s' caller boardId = Some board) as Hb'
    by (rewrite Hs, board_at_set_other by discriminate; exact Hb).
  assert (store_get ["log"; boardId; d] s' = Some (VLog written)) as Hg
    by (rewrite Hs; apply store_get_set_same).
  exists written,
    (values_as as_log (store_list ["log"; boardId] s')).
  split; [rewrite Hr; now destruct (log_at s boardId d)|].
  assert (fst (run (get_api_logs_boardId_date caller boardId d) s')
          = success (DLog written)) as Hdate.
  { unfold get_api_logs_boardId_date, run.
    rewrite bind_run, getBoard_run. cbn [fst snd kv]. rewrite Hb'.
    run_kv. now rewrite Hg. }
  assert (fst (run (get_api_logs_boardId caller boardId) s')
          = success (DLogs (values_as as_log
                              (store_list ["log"; boardId] s')))) as Hlist.
  { unfold get_api_logs_boardId, run.
    rewrite bind_run, getBoard_run. cbn [fst snd kv]. rewrite Hb'.
    reflexivity. }
  split; [exact Hdate|]. split; [rewrite Hdate; split; reflexivity|].
  split; [exact Hlist|]. split; [rewrite Hlist; split; reflexivity|].
  split.
  { apply values_as_In. exists ["log"; boardId; d], (VLog written).
    split; [|reflexivity]. apply store_list_In.
    split; [now apply store_get_In|].
    cbn [fst starts_with]. now rewrite !String.eqb_refl. }
  intros user other N.
  unfold get_api_logs_boardId, run.
  rewrite !bind_run, !getBoard_run. cbn [fst snd kv].
  rewrite Hs, board_at_set_other by discriminate.
  destruct (board_at s user other); [|reflexivity].
  run_kv.
  now rewrite store_list_set_other
    by (apply starts_with_other_scope; exact N).
Qed.

(** The first log of the scenario, read back by Alice; and the same post
    without a date, which is read back under the day of the post. *)
Lemma posted_log_is_readable_witness :
  answers_data
    (fst (run (get_api_logs_boardId_date Scenario.alice "b-1" "2024-05-01")
            Scenario.store3))
    200 (DLog (Log.mk "l-1" "b-1" Scenario.alice "2024-05-01"
                 "2024-05-01T08:05:02.000Z" [Scenario.check_run])) /\
  answers_data
    (fst (run (get_api_logs_boardId_date Scenario.alice "b-1" "2024-05-01")
            (kv (snd (run (post_api_logs "l-1" "2024-05-01T08:05:01.000Z"
                             "2024-05-01T08:05:02.000Z" Scenario.alice
                             (mkLogFields (Some "b-1")
                                (Some [Scenario.check_run]) None))
                        Scenario.store2)))))
    200 (DLog (Log.mk "l-1" "b-1" Scenario.alice "2024-05-01"
                 "2024-05-01T08:05:02.000Z" [Scenario.check_run])).
Proof.
  assert ("b-1" <> "") as Hne by discriminate.
  assert (board_at Scenario.store2 Scenario.alice "b-1"
          = Some Scenario.board1) as Hb by (vm_compute; reflexivity).
  split.
  - destruct (@posted_log_is_readable Scenario.store2 "l-1"
                "2024-05-01T08:05:01.000Z" "2024-05-01T08:05:02.000Z"
                Scenario.alice "b-1" [Scenario.check_run]
                (Some "2024-05-01") Scenario.board1 Hne Hb)
      as (log & logs & Hd & _ & Hget & _).
    assert (log = Log.mk "l-1" "b-1" Scenario.alice "2024-05-01"
                    "2024-05-01T08:05:02.000Z" [Scenario.check_run]) as <-.
    { vm_compute in Hd. now injection Hd. }
    exact Hget.
  - destruct (@posted_log_is_readable Scenario.store2 "l-1"
                "2024-05-01T08:05:01.000Z" "2024-05-01T08:05:02.000Z"
                Scenario.alice "b-1" [Scenario.check_run]
                None Scenario.board1 Hne Hb)
      as (log & logs & Hd & _ & Hget & _).
    assert (log = Log.mk "l-1" "b-1" Scenario.alice "2024-05-01"
                    "2024-05-01T08:05:02.000Z" [Scenario.check_run]) as <-.
    { vm_compute in Hd. now injection Hd. }
    assert (logDate None "2024-05-01T08:05:01.000Z" = "2024-05-01") as E
      by reflexivity.
    rewrite E in Hget. exact Hget.
Defined.

(** X7. A notification created for a board of the caller is stored
    undismissed under the board and its id and is in the notification list
    of the board right after; that list never holds a dismissed
    notification. *)
Theorem created_notification_is_listed :
  forall (s : Store) (id caller boardId message time : string)
         (board : Board.t),
    boardId <> "" -> message <> "" -> time <> "" ->
    board_at s caller boardId = Some board ->
    let n := Notification.mk id boardId caller message time false in
    let made := run (post_api_notify id caller
                       (mkNotifyFields (Some boardId) (Some message)
                          (Some time))) s in
    let s' := kv (snd made) in
    fst made = created (DNotification n) /\
    answers_data (fst made) 201 (DNotification n) /\
    notification_at s' boardId id = Some n /\
    exists listed,
      fst (run (get_api_notify_boardId caller boardId) s')
      = success (DNotifications listed) /\
      answers_data (fst (run (get_api_notify_boardId caller boardId) s'))
        200 (DNotifications listed) /\
      In n listed /\
      forall x, In x listed -> Notification.dismissed x = false.
Proof.
  intros s id caller boardId message time board Hb0 Hm Ht Hb n made s'.
  apply String.eqb_neq in Hb0, Hm, Ht.
  assert (fst made = created (DNotification n) /\
          s' = store_set ["notif"; boardId; id] (VNotification n) s)
    as [Hr Hs].
  { subst s' made. unfold post_api_notify, run.
    cbn [nf_boardId nf_message nf_time present]. rewrite Hb0, Hm, Ht.
    rewrite bind_run, getBoard_run. cbn [fst snd kv]. rewrite Hb.
    split; reflexivity. }
  split; [exact Hr|]. split; [rewrite Hr; split; reflexivity|].
  assert (store_get ["notif"; boardId; id] s' = Some (VNotification n))
    as Hg by (rewrite Hs; apply store_get_set_same).
  split; [unfold notification_at; now rewrite Hg|].
  assert (board_at s' caller boardId = Some board) as Hb'
    by (rewrite Hs, board_at_set_other by discriminate; exact Hb).
  exists (filter (fun x => negb (Notification.dismissed x))
            (values_as as_notification (store_list ["notif"; boardId] s'))).
  assert (fst (run (get_api_notify_boardId caller boardId) s')
          = success
              (DNotifications
                 (filter (fun x => negb (Notification.dismissed x))
                    (values_as as_notification
                       (store_list ["notif"; boardId] s'))))) as Hlist.
  { unfold get_api_notify_boardId, run.
    rewrite bind_run, getBoard_run. cbn [fst snd kv]. rewrite Hb'.
    reflexivity. }
  split; [exact Hlist|]. split; [rewrite Hlist; split; reflexivity|].
  split.
  - apply filter_In. split; [|reflexivity].
    apply values_as_In. exists ["notif"; boardId; id], (VNotification n).
    split; [|reflexivity]. apply store_list_In.
    split; [now apply store_get_In|].
    cbn [fst starts_with]. now rewrite !String.eqb_refl.
  - intros x Hx. apply filter_In in Hx as [_ Hx].
    now apply negb_true_iff in Hx.
Qed.

(** The notification of the scenario. *)
Lemma created_notification_is_listed_witness :
  let n := Notification.mk "n-1" "b-1" Scenario.alice "drink water" "09:00"
             false in
  notification_at Scenario.store2 "b-1" "n-1" = Some n /\
  exists listed,
    answers_data
      (fst (run (get_api_notify_boardId Scenario.alice "b-1")
              Scenario.store2))
      200 (DNotifications listed) /\
    In n listed.
Proof.
  intros n.
  assert ("b-1" <> "" /\ "drink water" <> "" /\ "09:00" <> "")
    as (H1 & H2 & H3) by (repeat split; discriminate).
  destruct (@created_notification_is_listed Scenario.store1 "n-1"
              Scenario.alice "b-1" "drink water" "09:00" Scenario.board1
              H1 H2 H3 eq_refl) as (_ & _ & Hat & listed & _ & Hl & Hin & _).
  split; [exact Hat|]. exists listed. split; [exact Hl | exact Hin].
Defined.

(** X8. Deleting a log by id either leaves the store as it was or removes
    exactly one key, the log key of a board the caller owns: the handler
    never removes a log of a board of another user. *)
Theorem log_delete_only_on_own_board :
  forall (s : Store) (caller logId : string),
    let r := run (delete_api_logs_id caller logId) s in
    (kv (snd r) = s /\ fst r <> noContent /\ status (fst r) <> 204%Z)
    \/ (exists log board,
          (fst r = noContent /\ status (fst r) = 204%Z) /\
          Log.id log = logId /\
          board_at s caller (Log.boardId log) = Some board /\
          kv (snd r)
          = store_delete ["log"; Log.boardId log; Log.date log] s).
Proof.
  intros s caller logId r. subst r.
  unfold delete_api_logs_id, run.
  rewrite bind_run, getBoard_run. cbn [fst snd kv].
  rewrite bind_run. run_kv.
  destruct (find (fun log => Log.id log =? logId)
              (values_as as_log (store_list ["log"; logId] s)))
    as [log|] eqn:F;
    [|left; split; [reflexivity | split; discriminate]].
  apply find_some in F as [_ Hid]. apply String.eqb_eq in Hid.
  cbn [kv]. unfold board_at.
  destruct (as_board (store_get ["board"; caller; Log.boardId log] s))
    as [board|] eqn:Hb;
    [|left; split; [reflexivity | split; discriminate]].
  right. exists log, board. repeat split; assumption.
Qed.

(** ** What the routes never do *)

Lemma getUserByUsername_reads username w :
  exists cs,
    calls (snd (getUserByUsername username w)) = (calls w ++ cs)%list /\
    forallb is_read_call cs = true.
Proof.
  unfold getUserByUsername, bind, kv_get; simpl.
  destruct (store_get ["user_by_username"; username] (kv w)) as [v|];
    [destruct v|];
    try (exists [CallGet ["user_by_username"; username]]; now split).
  destruct (s =? "").
  - exists [CallGet ["user_by_username"; username]]; now split.
  - exists [CallGet ["user_by_username"; username]; CallGet ["user"; s]].
    unfold getUserById, bind, ret, kv_get; simpl.
    now rewrite <- app_assoc.
Qed.

(** The middleware answers 401 or 500 by itself, or runs the handler. *)
Lemma authMiddleware_answers {L : Lib} now authHeader next w :
  (exists message code,
     (code = 401 \/ code = 500)%Z /\
     authMiddleware now authHeader next w = (error_with message code, w))
  \/ (exists userId username,
        authMiddleware now authHeader next w = next userId username w).
Proof.
  unfold authMiddleware, ret.
  destruct (present authHeader) as [h|];
    [|left; do 2 eexists; split; [left|]; reflexivity].
  destruct (negb (String.prefix "Bearer " h));
    [left; do 2 eexists; split; [left|]; reflexivity|].
  destruct (verifyToken now _) as [[p|]|m].
  - right. now exists (userId p), (username p).
  - left; do 2 eexists; split; [left|]; reflexivity.
  - left; do 2 eexists; split; [right|]; reflexivity.
Qed.

(** X9. A request to a reading endpoint (the GET routes, login, logout)
    leaves the store as it was, and every store call it issues is a get or
    a scan. *)
Theorem reading_endpoints_never_write :
  forall (L : Lib) (env : Env) (req : Request) (s : Store),
    read_only (endpoint req) = true ->
    let r := run (handle env req) s in
    kv (snd r) = s /\ forallb is_read_call (calls (snd r)) = true.
Proof.
  intros L env [hdr e] s Hro r. subst r. simpl in Hro.
  unfold run, handle. simpl.
  destruct e; try discriminate Hro;
    try match goal with
        | |- context [authMiddleware ?n ?h ?k ?w] =>
            destruct (@authMiddleware_cases L n h k w)
              as [(m & c & ->) | (uid & uname & ->)]; [now split|]
        end.
  - unfold post_api_login.
    destruct (present (cred_username b)) as [username|]; [|now split].
    destruct (present (cred_password b)) as [password|]; [|now split].
    rewrite bind_run.
    destruct (getUserByUsername_run username (mkWorld s [])) as [-> Hkv].
    destruct (getUserByUsername_reads username (mkWorld s []))
      as (cs & Hcs & Hread).
    set (w' := snd (getUserByUsername username (mkWorld s []))) in *.
    simpl in Hkv, Hcs.
    assert (kv w' = s /\ forallb is_read_call (calls w') = true) as Hw
      by (rewrite Hcs; now split).
    destruct (user_by_username _ username) as [user|]; [|exact Hw].
    destruct (negb _); [exact Hw|].
    destruct (generateToken _ _ _); exact Hw.
  - unfold get_api_me. run_kv. split_matches; now split.
  - now split.
  - unfold get_api_boards. run_kv. now split.
  - unfold get_api_boards_id. run_kv. split_matches; now split.
  - unfold get_api_public_boardId. run_kv. split_matches; now split.
  - unfold get_api_logs_boardId. run_kv. split_matches; now split.
  - unfold get_api_logs_boardId_date. run_kv. split_matches; now split.
  - unfold get_api_notify_boardId. run_kv. split_matches; now split.
Qed.

(** Alice lists her boards with her token: the store is untouched. *)
Lemma reading_endpoints_never_write_witness :
  let env := mkEnv (Scenario.issued_at + 3600000) "" "" "" "" in
  let r := run (@handle Toy.lib env
                  (mkRequest (Some ("Bearer " ++ Scenario.alice_token))
                     GET_boards)) Scenario.store_two in
  fst r = success (DBoards [Scenario.board1]) /\
  kv (snd r) = Scenario.store_two /\
  calls (snd r) = [CallList ["board"; Scenario.alice]].
Proof.
  intros env r.
  destruct (@reading_endpoints_never_write Toy.lib env
              (mkRequest (Some ("Bearer " ++ Scenario.alice_token))
                 GET_boards) Scenario.store_two eq_refl) as [Hkv _].
  split; [vm_compute; reflexivity|].
  split; [exact Hkv | vm_compute; reflexivity].
Defined.

(** X10. The routes of the auth, boards, logs and notify routers (the
    eighteen endpoints of [handle], with the answers [authMiddleware] gives
    in their place) answer with an envelope that agrees with the status:
    204 comes without a body, 200 and 201 with [success: true] and data, and
    every error with [success: false], a message and a status of 400 or
    more.  The routes of the export router are not among them: what they
    answer with 200 is a file, not an envelope. *)
Theorem json_routes_answer_a_consistent_envelope :
  forall (L : Lib) (env : Env) (req : Request) (s : Store),
    envelope_ok (fst (run (handle env req) s)) = true.
Proof.
  intros L env [hdr e] s. unfold run, handle. simpl.
  destruct e;
    try match goal with
        | |- context [authMiddleware ?n ?h ?k ?w] =>
            destruct (@authMiddleware_answers L n h k w)
              as [(m & c & [-> | ->] & ->) | (uid & uname & ->)];
            [reflexivity | reflexivity |]
        end.
  - unfold post_api_register.
    destruct (present (cred_username b)) as [username|]; [|reflexivity].
    destruct (present (cred_password b)) as [password|]; [|reflexivity].
    destruct (js_length password <? 6)%nat; [reflexivity|].
    rewrite bind_run.
    destruct (getUserByUsername_run username (mkWorld s [])) as [-> _].
    destruct (user_by_username _ username); reflexivity.
  - unfold post_api_login.
    destruct (present (cred_username b)) as [username|]; [|reflexivity].
    destruct (present (cred_password b)) as [password|]; [|reflexivity].
    rewrite bind_run.
    destruct (getUserByUsername_run username (mkWorld s [])) as [-> _].
    destruct (user_by_username _ username) as [user|]; [|reflexivity].
    destruct (negb _); [reflexivity|].
    destruct (generateToken _ _ _); reflexivity.
  - unfold get_api_me. run_kv. split_matches; reflexivity.
  - reflexivity.
  - unfold get_api_boards. run_kv. reflexivity.
  - unfold get_api_boards_id. run_kv. split_matches; reflexivity.
  - unfold post_api_boards. run_kv. split_matches; reflexivity.
  - unfold put_api_boards_id. run_kv. split_matches; reflexivity.
  - unfold delete_api_boards_id. run_kv. split_matches; reflexivity.
  - unfold get_api_public_boardId. run_kv. split_matches; reflexivity.
  - unfold get_api_logs_boardId. run_kv. split_matches; reflexivity.
  - unfold get_api_logs_boardId_date. run_kv. split_matches; reflexivity.
  - unfold post_api_logs. run_kv. split_matches; reflexivity.
  - unfold delete_api_logs_id. run_kv. split_matches; reflexivity.
  - unfold get_api_notify_boardId. run_kv. split_matches; reflexivity.
  - unfold post_api_notify. run_kv. split_matches; reflexivity.
  - unfold patch_api_notify_id_dismiss. run_kv. split_matches; reflexivity.
  - unfold delete_api_notify_id. run_kv. split_matches; reflexivity.
Qed.

(** ** Credentials *)

(** X11. A login with an unknown username and a login with a wrong
    password are answered alike, 401 with the same message, and neither
    changes the store: the answer does not tell whether the username
    exists. *)
Theorem login_failures_look_alike :
  forall (L : Lib) (s : Store) (now : Z) (username password : string),
    username <> "" -> password <> "" ->
    (user_by_username s username = None
     \/ exists user,
          user_by_username s username = Some user /\
          verifyPassword password (User.passwordHash user) = false) ->
    let r := run (post_api_login now
                    (mkCredentials (Some username) (Some password))) s in
    fst r = error_with "Invalid username or password" 401 /\
    kv (snd r) = s /\
    answers_error (fst r) 401 "Invalid username or password".
Proof.
  intros L s now username password Hu Hp Hcase r. subst r.
  apply String.eqb_neq in Hu, Hp.
  unfold post_api_login, run.
  cbn [cred_username cred_password present]. rewrite Hu, Hp.
  rewrite bind_run.
  destruct (getUserByUsername_run username (mkWorld s [])) as [-> Hkv].
  set (w' := snd (getUserByUsername username (mkWorld s []))) in *.
  simpl in Hkv. cbn [kv].
  destruct Hcase as [-> | (user & -> & Hv)].
  - now repeat split.
  - rewrite Hv. now repeat split.
Qed.

(** An unknown name, and the name of Alice with a wrong password. *)
Lemma login_failures_look_alike_witness :
  fst (run (@post_api_login Toy.lib Scenario.issued_at
              (mkCredentials (Some "mallory") (Some "guess")))
         Scenario.store_users)
  = fst (run (@post_api_login Toy.lib Scenario.issued_at
                (mkCredentials (Some "alice") (Some "guess")))
           Scenario.store_users) /\
  answers_error
    (fst (run (@post_api_login Toy.lib Scenario.issued_at
                 (mkCredentials (Some "alice") (Some "guess")))
            Scenario.store_users))
    401 "Invalid username or password".
Proof.
  assert ("mallory" <> "" /\ "alice" <> "" /\ "guess" <> "")
    as (H1 & H2 & H3) by (repeat split; discriminate).
  destruct (@login_failures_look_alike Toy.lib Scenario.store_users
              Scenario.issued_at "mallory" "guess" H1 H3
              (or_introl eq_refl)) as [-> _].
  destruct (@login_failures_look_alike Toy.lib Scenario.store_users
              Scenario.issued_at "alice" "guess" H2 H3
              (or_intror (ex_intro _ Scenario.alice_user
                            (conj eq_refl eq_refl)))) as (E & _ & A).
  split; [now rewrite E | exact A].
Defined.

(** X12. A body that fails validation is answered 400 before any store
    call: registration and login without a username or password,
    registration with a password of fewer than 6 characters (UTF-16 code
    units, the [length] of the string), board creation
    without title or markdown, a log post without board id or actions, a
    notification without board id, message or time. *)
Theorem invalid_bodies_touch_no_store :
  forall (L : Lib) (s : Store),
    let rejected (r : Response * World) :=
      status (fst r) = 400%Z /\ calls (snd r) = [] /\ kv (snd r) = s in
    (forall id salt now b,
       present (cred_username b) = None \/
       present (cred_password b) = None \/
       (exists p, cred_password b = Some p /\ (js_length p < 6)%nat) ->
       rejected (run (post_api_register id salt now b) s)) /\
    (forall now b,
       present (cred_username b) = None \/ present (cred_password b) = None ->
       rejected (run (post_api_login now b) s)) /\
    (forall id now caller b,
       present (bf_title b) = None \/ present (bf_markdown b) = None ->
       rejected (run (post_api_boards id now caller b) s)) /\
    (forall id now1 now2 caller b,
       present (lf_boardId b) = None \/ lf_actions b = None ->
       rejected (run (post_api_logs id now1 now2 caller b) s)) /\
    (forall id caller b,
       present (nf_boardId b) = None \/ present (nf_message b) = None \/
       present (nf_time b) = None ->
       rejected (run (post_api_notify id caller b) s)).
Proof.
  intros L s rejected. subst rejected. cbv beta.
  split; [|split; [|split; [|split]]].
  - intros id salt now b H. unfold post_api_register, run.
    destruct (present (cred_username b)) as [u|] eqn:Eu; [|now repeat split].
    destruct (present (cred_password b)) as [p|] eqn:Ep; [|now repeat split].
    destruct H as [H | [H | (p' & Hp' & Hlen)]]; try discriminate.
    assert (p' = p) as ->.
    { rewrite Hp' in Ep. cbn [present] in Ep.
      destruct (p' =? ""); [discriminate | now injection Ep]. }
    apply Nat.ltb_lt in Hlen. rewrite Hlen. now repeat split.
  - intros now b H. unfold post_api_login, run.
    destruct (present (cred_username b)) as [u|] eqn:Eu; [|now repeat split].
    destruct (present (cred_password b)) as [p|] eqn:Ep; [|now repeat split].
    destruct H; discriminate.
  - intros id now caller b H. unfold post_api_boards, run.
    destruct (present (bf_title b)) as [t|]; [|now repeat split].
    destruct (present (bf_markdown b)) as [m|]; [|now repeat split].
    destruct H; discriminate.
  - intros id now1 now2 caller b H. unfold post_api_logs, run.
    destruct (present (lf_boardId b)) as [t|]; [|now repeat split].
    destruct (lf_actions b) as [a|]; [|now repeat split].
    destruct H; discriminate.
  - intros id caller b H. unfold post_api_notify, run.
    destruct (present (nf_boardId b)) as [t|]; [|now repeat split].
    destruct (present (nf_message b)) as [m|]; [|now repeat split].
    destruct (present (nf_time b)) as [x|]; [|now repeat split].
    destruct H as [H | [H | H]]; discriminate.
Qed.

(** A registration with a password of five characters, and one with a
    password of three characters that take nine bytes. *)
Lemma invalid_bodies_touch_no_store_witness :
  let attempt p :=
    run (@post_api_register Toy.lib "u-x" "salt" "2024-05-03"
           (mkCredentials (Some "carol") (Some p))) Scenario.store_users in
  (status (fst (attempt "12345")) = 400%Z /\
   calls (snd (attempt "12345")) = [] /\
   kv (snd (attempt "12345")) = Scenario.store_users) /\
  (String.length "日本語" = 9%nat /\
   status (fst (attempt "日本語")) = 400%Z /\
   calls (snd (attempt "日本語")) = [] /\
   kv (snd (attempt "日本語")) = Scenario.store_users).
Proof.
  intros attempt.
  destruct (@invalid_bodies_touch_no_store Toy.lib Scenario.store_users)
    as (Hreg & _).
  split; [|split; [reflexivity|]].
  - apply Hreg. right; right. exists "12345". split; [reflexivity|].
    vm_compute; lia.
  - apply Hreg. right; right. exists "日本語". split; [reflexivity|].
    vm_compute; lia.
Defined.

(** ** Sessions *)

(** A token issued by [generateToken] carries the payload of the issue and
    verifies under the server key. *)
Lemma generateToken_decodes {L : Lib} (C : DjwtContract L) t uid uname token :
  generateToken t uid uname = Returned token ->
  exists key,
    getKey = Returned key /\
    djwt_decode token = Returned (mkPayload uid uname (t / 1000 + 86400)) /\
    signature_ok token key = true.
Proof.
  unfold generateToken. intros H.
  destruct getKey as [key|m]; [|discriminate].
  cbv zeta in H. apply create_valid in H as [Hd Hs].
  change (60 * 60 * 24)%Z with 86400%Z in Hd. now exists key.
Qed.

(** X13. The token of a login made at time [t] (in milliseconds) is
    accepted by [verifyToken], with the payload of the issue, at every time
    up to [t + 86399001], and is rejected at every time after
    [t + 86400000]: a session lasts one day, less at most 999 ms. *)
Theorem token_lives_one_day :
  forall (L : Lib) (C : DjwtContract L) (t : Z) (uid uname token : string),
    generateToken t uid uname = Returned token ->
    (forall now,
       (now <= t + 86399001)%Z ->
       verifyToken now token
       = Returned (Some (mkPayload uid uname (t / 1000 + 86400)))) /\
    (forall now,
       (t + 86400000 < now)%Z ->
       verifyToken now token = Returned None).
Proof.
  intros L C t uid uname token Hgen.
  destruct (generateToken_decodes C _ _ _ Hgen) as (key & Hk & Hd & Hs).
  pose proof (Z.div_mod t 1000 ltac:(lia)) as Hdm.
  pose proof (Z.mod_pos_bound t 1000 ltac:(lia)) as Hmod.
  split; intros now Hnow.
  - apply verifyToken_payload_iff. unfold verifyToken_try. rewrite Hk.
    eapply verify_valid; [exact Hd | exact Hs |]. cbn [exp]. lia.
  - apply verifyToken_null_iff. unfold verifyToken_try. rewrite Hk.
    eapply verify_expired; [exact Hd|]. cbn [exp]. lia.
Qed.

(** The token of Alice one second before and one second after its day. *)
Lemma token_lives_one_day_witness :
  @verifyToken Toy.lib (Scenario.issued_at + 86399000) Scenario.alice_token
  = Returned (Some (mkPayload Scenario.alice "alice" 1714636800)) /\
  @verifyToken Toy.lib (Scenario.issued_at + 86401000) Scenario.alice_token
  = Returned None.
Proof.
  assert (@generateToken Toy.lib Scenario.issued_at Scenario.alice "alice"
          = Returned Scenario.alice_token) as Hgen
    by (vm_compute; reflexivity).
  destruct (@token_lives_one_day Toy.lib toy_contract Scenario.issued_at
              Scenario.alice "alice" Scenario.alice_token Hgen)
    as [Hin Hout].
  split.
  - apply Hin. unfold Scenario.issued_at. lia.
  - apply Hout. unfold Scenario.issued_at. lia.
Defined.

(** X14. With a bcrypt whose [compareSync] accepts the password a hash was
    made from and a token library that meets its contract: a registration
    with a free username and a password of six or more UTF-16 code units
    answers 201 with the user without its password hash; a login with the
    same credentials then answers 200 with the issued token and that user,
    and a request for the current user that carries the token within its
    lifetime is answered 200 with the same user. *)
Theorem registered_user_session :
  forall (L : Lib) (C : DjwtContract L) (s : Store)
         (id salt created username password token : string) (t : Z),
    (forall sa p, bcrypt_compareSync p (bcrypt_hashSync sa p) = true) ->
    id <> "" -> username <> "" -> (6 <= js_length password)%nat ->
    user_by_username s username = None ->
    generateToken t id username = Returned token ->
    let creds := mkCredentials (Some username) (Some password) in
    let s1 := kv (snd (run (post_api_register id salt created creds) s)) in
    let user := [("id", id); ("username", username);
                 ("createdAt", created)] in
    answers_data (fst (run (post_api_register id salt created creds) s))
      201 (DRegistered "User created successfully" user) /\
    fst (run (post_api_login t creds) s1)
    = success (DSession token user) /\
    answers_data (fst (run (post_api_login t creds) s1))
      200 (DSession token user) /\
    forall env,
      (date_now env <= t + 86399001)%Z ->
      fst (run (handle env (mkRequest (Some ("Bearer " ++ token)) GET_me))
             s1)
      = success (DUser user) /\
      answers_data
        (fst (run (handle env
                     (mkRequest (Some ("Bearer " ++ token)) GET_me)) s1))
        200 (DUser user).
Proof.
  intros L C s id salt created username password token t Hbcrypt Hid Hu Hp
    Hfree Hgen creds s1 user.
  destruct (@register_stores_user L s id salt created username password
              Hid Hu Hp Hfree) as (_ & Hstored & _ & Hby & Hreg).
  fold creds in Hstored, Hby, Hreg. fold s1 in Hstored, Hby.
  set (newUser := User.mk id username (hashPassword salt password) created)
    in *.
  assert ((password =? "") = false) as Hpw.
  { apply String.eqb_neq. intros ->. vm_compute in Hp. lia. }
  apply String.eqb_neq in Hu.
  split; [rewrite Hreg; split; reflexivity|].
  assert (fst (run (post_api_login t creds) s1)
          = success (DSession token user)) as Hlogin.
  { unfold post_api_login, run, creds.
    cbn [cred_username cred_password present]. rewrite Hu, Hpw.
    rewrite bind_run.
    destruct (getUserByUsername_run username (mkWorld s1 [])) as [-> _].
    cbn [kv]. rewrite Hby.
    unfold verifyPassword, newUser, hashPassword. cbn [User.passwordHash].
    rewrite Hbcrypt. cbn [negb User.id User.username]. rewrite Hgen.
    reflexivity. }
  split; [exact Hlogin|]. split; [rewrite Hlogin; split; reflexivity|].
  - intros env Hnow.
    destruct (generateToken_decodes C _ _ _ Hgen) as (key & Hk & Hd & Hs).
    assert (verifyToken (date_now env) token
            = Returned (Some (mkPayload id username (t / 1000 + 86400))))
      as Hv.
    { apply verifyToken_payload_iff. unfold verifyToken_try. rewrite Hk.
      eapply verify_valid; [exact Hd | exact Hs |]. cbn [exp].
      pose proof (Z.div_mod t 1000 ltac:(lia)).
      pose proof (Z.mod_pos_bound t 1000 ltac:(lia)). lia. }
    unfold run, handle. cbn [endpoint authorization].
    erewrite authMiddleware_accepts by exact Hv. cbn [userId].
    unfold get_api_me, answers_data. run_kv. rewrite Hstored.
    repeat split.
Qed.

(** Alice registers, logs in and asks who she is. *)
Lemma registered_user_session_witness :
  answers_data
    (fst (run (@post_api_login Toy.lib Scenario.issued_at
                 Scenario.alice_credentials) Scenario.store_users))
    200 (DSession Scenario.alice_token
           [("id", "u-alice"); ("username", "alice");
            ("createdAt", "2024-04-30T20:00:00.000Z")]).
Proof.
  assert (Scenario.alice <> "" /\ "alice" <> "") as [H1 H2]
    by (split; discriminate).
  assert (6 <= js_length "correct horse")%nat as H3 by (vm_compute; lia).
  assert (@generateToken Toy.lib Scenario.issued_at Scenario.alice "alice"
          = Returned Scenario.alice_token) as Hgen
    by (vm_compute; reflexivity).
  assert (forall sa p,
            @bcrypt_compareSync Toy.lib p (@bcrypt_hashSync Toy.lib sa p)
            = true) as Hb by (intros sa p; apply String.eqb_refl).
  destruct (@registered_user_session Toy.lib toy_contract [] Scenario.alice
              "salt-1" "2024-04-30T20:00:00.000Z" "alice" "correct horse"
              Scenario.alice_token Scenario.issued_at Hb H1 H2 H3 eq_refl
              Hgen) as (_ & _ & Hlogin & _).
  exact Hlogin.
Defined.

(** ** The writes of a request *)

Lemma authMiddleware_identity {L : Lib} now authHeader next w :
  (identity now authHeader = None /\
   exists message code,
     authMiddleware now authHeader next w = (error_with message code, w))
  \/ (exists userId username,
        identity now authHeader = Some userId /\
        authMiddleware now authHeader next w = next userId username w).
Proof.
  unfold authMiddleware, identity, ret.
  destruct (present authHeader) as [h|];
    [|left; split; [reflexivity | do 2 eexists; reflexivity]].
  destruct (String.prefix "Bearer " h); cbn [negb];
    [|left; split; [reflexivity | do 2 eexists; reflexivity]].
  destruct (verifyToken now _) as [[p|]|m].
  - right. exists (userId p), (username p). now split.
  - left; split; [reflexivity | do 2 eexists; reflexivity].
  - left; split; [reflexivity | do 2 eexists; reflexivity].
Qed.

Lemma find_notification_some notifId caller l n :
  find_notification notifId caller l = Some n ->
  In n l /\ Notification.id n = notifId /\ Notification.userId n = caller.
Proof.
  unfold find_notification. intros F. apply find_some in F as [Hin Hp].
  apply andb_true_iff in Hp as [Hi Hu].
  apply String.eqb_eq in Hi, Hu. tauto.
Qed.

(** Every request changes the store by at most one of the writes of
    [effect], made for the identity of its token. *)
Lemma handle_effect {L : Lib} (env : Env) (req : Request) (s : Store) :
  effect (actor_of env req) (new_id env) s
    (kv (snd (run (handle env req) s))).
Proof.
  destruct req as [hdr e]. unfold actor_of, run, handle.
  cbn [endpoint authorization].
  destruct e; cbn [owner_scoped];
    try match goal with
        | |- context [authMiddleware ?n ?h ?k ?w] =>
            destruct (@authMiddleware_identity L n h k w)
              as [[Hid (m & c & ->)] | (uid & uname & Hid & ->)];
            [apply eff_none | rewrite Hid]
        end.
  - (* register *)
    unfold post_api_register.
    destruct (present (cred_username b)) as [username|] eqn:Eu;
      [|apply eff_none].
    destruct (present (cred_password b)) as [password|]; [|apply eff_none].
    destruct (js_length password <? 6)%nat; [apply eff_none|].
    rewrite bind_run.
    destruct (getUserByUsername_run username (mkWorld s [])) as [-> Hkv].
    set (w' := snd (getUserByUsername username (mkWorld s []))) in *.
    simpl in Hkv. cbn [kv].
    destruct (user_by_username s username) eqn:E.
    + cbn [snd ret]. rewrite Hkv. apply eff_none.
    + cbv zeta. run_kv. rewrite Hkv.
      set (u := User.mk (new_id env) username _ (iso_now1 env)).
      apply (@eff_register None (new_id env) s u);
        [reflexivity | exact (present_nonempty _ Eu) | exact E].
  - (* login *)
    unfold post_api_login.
    destruct (present (cred_username b)) as [username|]; [|apply eff_none].
    destruct (present (cred_password b)) as [password|]; [|apply eff_none].
    rewrite bind_run.
    destruct (getUserByUsername_run username (mkWorld s [])) as [-> Hkv].
    set (w' := snd (getUserByUsername username (mkWorld s []))) in *.
    simpl in Hkv.
    assert (effect None (new_id env) s (kv w')) as Hw
      by (rewrite Hkv; apply eff_none).
    destruct (user_by_username _ username) as [user|]; [|exact Hw].
    destruct (negb _); [exact Hw|].
    destruct (generateToken _ _ _); exact Hw.
  - unfold get_api_me. run_kv. split_matches; apply eff_none.
  - apply eff_none.
  - unfold get_api_boards. run_kv. apply eff_none.
  - unfold get_api_boards_id. run_kv. split_matches; apply eff_none.
  - (* create board *)
    unfold post_api_boards.
    destruct (present (bf_title b)); [|apply eff_none].
    destruct (present (bf_markdown b)); [|apply eff_none].
    cbv zeta. run_kv. now apply eff_board_create.
  - (* update board *)
    unfold put_api_boards_id. rewrite bind_run, getBoard_run.
    cbn [fst snd kv].
    destruct (board_at s uid id) as [old|] eqn:Hb; [|apply eff_none].
    cbv zeta. run_kv.
    now apply eff_board_update with (old := old).
  - (* delete board *)
    unfold delete_api_boards_id. rewrite bind_run, getBoard_run.
    cbn [fst snd kv].
    destruct (board_at s uid id) as [old|] eqn:Hb; [|apply eff_none].
    run_kv. now apply eff_board_delete with (old := old).
  - unfold get_api_public_boardId. run_kv. split_matches; apply eff_none.
  - unfold get_api_logs_boardId. run_kv. split_matches; apply eff_none.
  - unfold get_api_logs_boardId_date. run_kv. split_matches; apply eff_none.
  - (* post log *)
    unfold post_api_logs.
    destruct (present (lf_boardId b)) as [boardId|] eqn:Eb;
      [|apply eff_none].
    destruct (lf_actions b) as [actions|]; [|apply eff_none].
    rewrite bind_run, getBoard_run. cbn [fst snd kv].
    destruct (board_at s uid boardId) as [board|] eqn:Hb; [|apply eff_none].
    cbv zeta. run_kv.
    fold (log_at s boardId (logDate (lf_date b) (iso_now1 env))).
    destruct (log_at s boardId (logDate (lf_date b) (iso_now1 env)))
      as [old|] eqn:Hl.
    + apply eff_log_update with (owner := uid) (board := board) (old := old);
        try reflexivity; try assumption.
      exact (present_nonempty _ Eb).
    + apply eff_log_create with (owner := uid) (board := board);
        try reflexivity; try assumption.
      exact (present_nonempty _ Eb).
  - (* delete log *)
    unfold delete_api_logs_id. rewrite bind_run, getBoard_run.
    cbn [fst snd kv]. rewrite bind_run. run_kv.
    destruct (find _ _) as [log|]; [|apply eff_none].
    cbn [kv].
    destruct (as_board (store_get ["board"; uid; Log.boardId log] s))
      as [board|] eqn:Hb; [|apply eff_none].
    apply eff_log_delete with (owner := uid) (board := board);
      [reflexivity | exact Hb].
  - unfold get_api_notify_boardId. run_kv. split_matches; apply eff_none.
  - (* create notification *)
    unfold post_api_notify.
    destruct (present (nf_boardId b)) as [boardId|] eqn:Eb;
      [|apply eff_none].
    destruct (present (nf_message b)); [|apply eff_none].
    destruct (present (nf_time b)); [|apply eff_none].
    rewrite bind_run, getBoard_run. cbn [fst snd kv].
    destruct (board_at s uid boardId) as [board|] eqn:Hb; [|apply eff_none].
    cbv zeta. run_kv.
    apply eff_notif_create with (owner := uid) (board := board);
      try reflexivity; try assumption.
    exact (present_nonempty _ Eb).
  - (* dismiss *)
    unfold patch_api_notify_id_dismiss. rewrite bind_run. run_kv.
    fold (searched_notifications s).
    destruct (find_notification id uid (searched_notifications s))
      as [n|] eqn:F; [|apply eff_none].
    apply find_notification_some in F as (Hin & <- & Hu).
    now apply eff_notif_dismiss with (owner := uid).
  - (* delete notification *)
    unfold delete_api_notify_id. rewrite bind_run. run_kv.
    fold (searched_notifications s).
    destruct (find_notification id uid (searched_notifications s))
      as [n|] eqn:F; [|apply eff_none].
    apply find_notification_some in F as (Hin & <- & Hu).
    now apply eff_notif_delete with (owner := uid).
Qed.

(** X15. A request leaves the store as it was, registers a user (the new
    user and its username index entry, for a username that was free) or
    makes one write to a board, a log or a notification, and each such
    write is made for the identity of the token of the request: a board is
    created, updated or deleted under the key of that identity, a log or
    notification is written or removed under a board that identity owns,
    and a notification is dismissed or removed only when it carries that
    identity as [userId].  An update keeps
    [id], [userId] and [createdAt] of a board and [id], [boardId], [userId]
    and [date] of a log. *)
Theorem every_write_is_for_the_caller :
  forall (L : Lib) (env : Env) (req : Request) (s : Store),
    effect (actor_of env req) (new_id env) s
      (kv (snd (run (handle env req) s))).
Proof. intros L env req s. apply handle_effect. Qed.

Ltac other_key :=
  let X := fresh "X" in
  intros X; first [discriminate X | injection X; intros; congruence].

Lemma effect_isolation actor nid s s' :
  effect actor nid s s' ->
  searched_notifications s = [] ->
  (forall owner id,
     actor <> Some owner -> board_at s' owner id = board_at s owner id) /\
  (forall b,
     (forall a, actor = Some a -> board_at s a b = None) ->
     (forall d, log_at s' b d = log_at s b d) /\
     (forall i, notification_at s' b i = notification_at s b i)).
Proof.
  intros E Hs. split.
  - intros owner id Hne. unfold board_at.
    destruct E; try reflexivity;
      rewrite ?store_get_set_other, ?store_get_delete_other
        by other_key; reflexivity.
  - intros b Hnot.
    destruct E; try (split; reflexivity);
      try match goal with
          | H : In _ (searched_notifications s) |- _ =>
              rewrite Hs in H; destruct H
          end;
      (split; [intros d0; unfold log_at | intros i0; unfold notification_at]);
      rewrite ?store_get_set_other, ?store_get_delete_other
        by (let X := fresh "X" in
            intros X;
            first [ discriminate X
                  | injection X; intros;
                    match goal with
                    | Ha : actor = Some ?a |- _ =>
                        pose proof (Hnot a Ha); congruence
                    end ]);
      reflexivity.
Qed.

(** X16. In every store the server can be in, a request changes nothing
    that belongs to others: a board of a user other than the identity of
    the request is as it was, and so is every log and every notification of
    a board that identity does not own. *)
Theorem requests_leave_what_is_not_the_callers :
  forall (L : Lib) (env : Env) (req : Request) (s : Store),
    reachable s ->
    let s' := kv (snd (run (handle env req) s)) in
    (forall owner id,
       actor_of env req <> Some owner ->
       board_at s' owner id = board_at s owner id) /\
    (forall b,
       (forall a, actor_of env req = Some a -> board_at s a b = None) ->
       (forall d, log_at s' b d = log_at s b d) /\
       (forall i, notification_at s' b i = notification_at s b i)).
Proof.
  intros L env req s Hreach s'.
  apply effect_isolation with (nid := new_id env).
  - apply handle_effect.
  - unfold searched_notifications.
    now rewrite (reachable_no_empty_scope Hreach).
Qed.

(** The two boards of the scenario are reached by a request of Alice and
    one of Bob. *)
Lemma scenario_store_two_reachable : @reachable Toy.lib Scenario.store_two.
Proof.
  pose (env1 := mkEnv (Scenario.issued_at + 3600000) "b-1"
                  "2024-05-01T08:00:00.000Z" "" "").
  pose (env2 := mkEnv (Scenario.issued_at + 3600000) "b-2"
                  "2024-05-01T19:00:00.000Z" "" "").
  pose (req1 := mkRequest (Some ("Bearer " ++ Scenario.alice_token))
                  (POST_boards Scenario.board_fields)).
  pose (req2 := mkRequest (Some ("Bearer " ++ Scenario.bob_token))
                  (POST_boards Scenario.bob_fields)).
  assert (Scenario.store_two
          = kv (snd (run (@handle Toy.lib env2 req2)
                       (kv (snd (run (@handle Toy.lib env1 req1) []))))))
    as -> by (vm_compute; reflexivity).
  apply reachable_step, reachable_step, reachable_empty.
Qed.

(** Alice sends an update for the board of Bob: it stays as it was. *)
Lemma requests_leave_what_is_not_the_callers_witness :
  let env := mkEnv (Scenario.issued_at + 3600000) ""
               "2024-05-02T09:00:00.000Z" "" "" in
  let req := mkRequest (Some ("Bearer " ++ Scenario.alice_token))
               (PUT_boards_id "b-2"
                  (mkBoardFields (Some "Mine now") None (Some "private")
                     None None)) in
  board_at (kv (snd (run (@handle Toy.lib env req) Scenario.store_two)))
    Scenario.bob "b-2"
  = Some Scenario.board2.
Proof.
  intros env req.
  destruct (@requests_leave_what_is_not_the_callers Toy.lib env req
              Scenario.store_two scenario_store_two_reachable)
    as [Hboards _].
  rewrite (Hboards Scenario.bob "b-2");
    [vm_compute; reflexivity | vm_compute; discriminate].
Defined.

(** ** Users and the username index *)

Lemma effect_keeps_users actor nid s s' :
  effect actor nid s s' ->
  fresh_user_id s nid ->
  forall id v,
    store_get ["user"; id] s = Some v -> store_get ["user"; id] s' = Some v.
Proof.
  intros E [_ Hfresh] id v Hv.
  destruct E;
    rewrite ?store_get_set_other, ?store_get_delete_other
      by (let X := fresh "X" in
          intros X; first [discriminate X | injection X; intros; congruence]);
    exact Hv.
Qed.

Lemma user_by_username_of_index s name u :
  store_get ["user_by_username"; name] s = Some (VString (User.id u)) ->
  User.id u <> "" ->
  store_get ["user"; User.id u] s = Some (VUser u) ->
  user_by_username s name = Some u.
Proof.
  intros Hi Hne Hu. unfold user_by_username, user_at. rewrite Hi.
  apply String.eqb_neq in Hne. now rewrite Hne, Hu.
Qed.

Lemma effect_keeps_users_wf actor nid s s' :
  effect actor nid s s' ->
  fresh_user_id s nid ->
  users_wf s -> users_wf s'.
Proof.
  intros E [Hne Hfresh] [Hidx Husr].
  destruct E;
    try (constructor; intros ? ? Hget;
         rewrite ?store_get_set_other, ?store_get_delete_other in Hget
           by discriminate;
         [destruct (Hidx _ _ Hget) as (u0 & ? & ? & ? & ?)
         |destruct (Husr _ _ Hget) as (u0 & ? & ? & ?)];
         exists u0;
         rewrite ?store_get_set_other, ?store_get_delete_other
           by discriminate;
         tauto).
  (* registration *)
  rename H into Hid, H0 into Hname, H1 into Hfree. subst nid.
  constructor.
  - intros name v Hget.
    destruct (String.eqb_spec name (User.username u)) as [-> | N].
    + rewrite store_get_set_same in Hget. injection Hget as <-.
      exists u. split; [reflexivity|]. split; [exact Hne|].
      split; [|reflexivity].
      rewrite store_get_set_other by discriminate.
      apply store_get_set_same.
    + rewrite store_get_set_other in Hget by congruence.
      rewrite store_get_set_other in Hget by discriminate.
      destruct (Hidx _ _ Hget) as (u0 & E0 & N0 & G0 & U0).
      exists u0. split; [exact E0|]. split; [exact N0|].
      split; [|exact U0].
      rewrite store_get_set_other by discriminate.
      rewrite store_get_set_other by congruence. exact G0.
  - intros id v Hget.
    rewrite store_get_set_other in Hget by discriminate.
    destruct (String.eqb_spec id (User.id u)) as [-> | N].
    + rewrite store_get_set_same in Hget. injection Hget as <-.
      exists u. split; [reflexivity|]. split; [reflexivity|].
      apply store_get_set_same.
    + rewrite store_get_set_other in Hget by congruence.
      destruct (Husr _ _ Hget) as (u0 & E0 & I0 & G0).
      exists u0. split; [exact E0|]. split; [exact I0|].
      assert (User.username u0 <> User.username u) as Nn.
      { intros Eq. rewrite Eq in G0.
        destruct (Hidx _ _ G0) as (u1 & E1 & N1 & G1 & U1).
        rewrite (@user_by_username_of_index s (User.username u) u1) in Hfree;
          [discriminate | congruence | exact N1 | exact G1]. }
      rewrite store_get_set_other by congruence.
      rewrite store_get_set_other by discriminate. exact G0.
Qed.

Lemma reachable_users_wf {L : Lib} s : reachable_users s -> users_wf s.
Proof.
  induction 1 as [|s env req _ IH Hfresh].
  - constructor; simpl; discriminate.
  - eapply effect_keeps_users_wf; [apply handle_effect | exact Hfresh | exact IH].
Qed.

(** X17. A stored user is never changed or removed: whatever the request,
    when the id it draws is fresh, every user stored before it is stored
    unchanged after it. *)
Theorem users_are_never_changed :
  forall (L : Lib) (env : Env) (req : Request) (s : Store),
    fresh_user_id s (new_id env) ->
    forall id user,
      user_at s id = Some user ->
      user_at (kv (snd (run (handle env req) s))) id = Some user.
Proof.
  intros L env req s Hfresh id user Hu. unfold user_at in *.
  destruct (store_get ["user"; id] s) as [v|] eqn:G; [|discriminate].
  now rewrite (effect_keeps_users (handle_effect env req s) Hfresh _ G).
Qed.

(** Eve registers after Alice; the record of Alice is as it was. *)
Lemma users_are_never_changed_witness :
  let env := mkEnv Scenario.issued_at "u-eve" "2024-05-03T07:00:00.000Z" ""
               "salt-2" in
  let req := mkRequest None
               (POST_register (mkCredentials (Some "eve")
                                 (Some "hunter22"))) in
  let s' := kv (snd (run (@handle Toy.lib env req) Scenario.store_users)) in
  user_at s' Scenario.alice = Some Scenario.alice_user /\
  user_at s' "u-eve"
  = Some (User.mk "u-eve" "eve" "$2a$hunter22" "2024-05-03T07:00:00.000Z").
Proof.
  intros env req s'.
  assert (fresh_user_id Scenario.store_users (new_id env)) as Hfresh
    by (split; [discriminate | vm_compute; reflexivity]).
  split; [|vm_compute; reflexivity].
  apply (@users_are_never_changed Toy.lib env req Scenario.store_users
           Hfresh).
  vm_compute; reflexivity.
Defined.

(** X18. When the requests are handled one after the other (no handler
    starts before the one before it has ended) and the user ids drawn are
    fresh, the username index is consistent in every store reached: the
    user found by a username carries that username and is stored under its
    own id, every stored user is the one found by its username, and no two
    stored users share a username.  Registrations that overlap, the second
    looking the name up before the first has written, are not covered. *)
Theorem username_index_is_consistent :
  forall (L : Lib) (s : Store),
    reachable_users s ->
    (forall name u,
       user_by_username s name = Some u ->
       User.username u = name /\ user_at s (User.id u) = Some u) /\
    (forall id u,
       user_at s id = Some u ->
       User.id u = id /\ user_by_username s (User.username u) = Some u) /\
    (forall id1 id2 u1 u2,
       user_at s id1 = Some u1 -> user_at s id2 = Some u2 ->
       User.username u1 = User.username u2 -> id1 = id2).
Proof.
  intros L s Hreach.
  destruct (reachable_users_wf Hreach) as [Hidx Husr].
  assert (forall id u,
            user_at s id = Some u ->
            User.id u = id /\ user_by_username s (User.username u) = Some u)
    as Second.
  { intros id u Hu. unfold user_at in Hu.
    destruct (store_get ["user"; id] s) as [v|] eqn:G; [|discriminate].
    destruct (Husr _ _ G) as (u0 & -> & I0 & G0).
    injection Hu as ->. split; [exact I0|].
    destruct (Hidx _ _ G0) as (u1 & E1 & N1 & _ & _).
    injection E1 as E1.
    apply user_by_username_of_index; congruence. }
  split; [|split; [exact Second|]].
  - intros name u Hu. unfold user_by_username in Hu.
    destruct (store_get ["user_by_username"; name] s) as [v|] eqn:G;
      [|discriminate].
    destruct (Hidx _ _ G) as (u0 & -> & N0 & G0 & U0).
    apply String.eqb_neq in N0. rewrite N0 in Hu.
    unfold user_at in *. rewrite G0 in Hu. injection Hu as <-.
    split; [exact U0 | now rewrite G0].
  - intros id1 id2 u1 u2 H1 H2 E.
    destruct (Second _ _ H1) as [I1 B1].
    destruct (Second _ _ H2) as [I2 B2].
    rewrite E in B1. congruence.
Qed.

Lemma scenario_store_users_reachable :
  @reachable_users Toy.lib Scenario.store_users.
Proof.
  pose (env := mkEnv 0 Scenario.alice "2024-04-30T20:00:00.000Z" ""
                 "salt-1").
  pose (req := mkRequest None (POST_register Scenario.alice_credentials)).
  assert (Scenario.store_users
          = kv (snd (run (@handle Toy.lib env req) [])))
    as -> by (vm_compute; reflexivity).
  apply reachable_users_step; [apply reachable_users_empty|].
  split; [discriminate | reflexivity].
Qed.

(** The user found under the name of Alice. *)
Lemma username_index_is_consistent_witness :
  user_by_username Scenario.store_users "alice" = Some Scenario.alice_user /\
  User.username Scenario.alice_user = "alice" /\
  user_at Scenario.store_users (User.id Scenario.alice_user)
  = Some Scenario.alice_user.
Proof.
  destruct (@username_index_is_consistent Toy.lib Scenario.store_users
              scenario_store_users_reachable) as (Hfirst & _ & _).
  assert (user_by_username Scenario.store_users "alice"
          = Some Scenario.alice_user) as E by (vm_compute; reflexivity).
  split; [exact E|]. exact (Hfirst "alice" Scenario.alice_user E).
Defined.

(** ** Keys and the values under them *)

Lemma log_at_set s k v b d :
  log_at (store_set k v s) b d
  = if key_eqb k ["log"; b; d] then as_log (Some v) else log_at s b d.
Proof.
  unfold log_at. destruct (key_eqb k ["log"; b; d]) eqn:K.
  - apply key_eqb_eq in K. subst k. now rewrite store_get_set_same.
  - apply key_eqb_neq in K. now rewrite store_get_set_other.
Qed.

Lemma log_at_delete s k b d :
  log_at (store_delete k s) b d
  = if key_eqb k ["log"; b; d] then None else log_at s b d.
Proof.
  unfold log_at. destruct (key_eqb k ["log"; b; d]) eqn:K.
  - apply key_eqb_eq in K. subst k. now rewrite store_get_delete_same.
  - apply key_eqb_neq in K. now rewrite store_get_delete_other.
Qed.

Lemma notification_at_set s k v b i :
  notification_at (store_set k v s) b i
  = if key_eqb k ["notif"; b; i] then as_notification (Some v)
    else notification_at s b i.
Proof.
  unfold notification_at. destruct (key_eqb k ["notif"; b; i]) eqn:K.
  - apply key_eqb_eq in K. subst k. now rewrite store_get_set_same.
  - apply key_eqb_neq in K. now rewrite store_get_set_other.
Qed.

Lemma notification_at_delete s k b i :
  notification_at (store_delete k s) b i
  = if key_eqb k ["notif"; b; i] then None else notification_at s b i.
Proof.
  unfold notification_at. destruct (key_eqb k ["notif"; b; i]) eqn:K.
  - apply key_eqb_eq in K. subst k. now rewrite store_get_delete_same.
  - apply key_eqb_neq in K. now rewrite store_get_delete_other.
Qed.

Lemma effect_keeps_entries_keyed actor nid s s' :
  effect actor nid s s' ->
  entries_keyed s -> entries_keyed s'.
Proof.
  intros E [Hlog Hnot].
  destruct E; try (split; assumption); split;
    intros x y z Hz;
    rewrite ?log_at_set, ?log_at_delete, ?notification_at_set,
      ?notification_at_delete in Hz;
    repeat match type of Hz with
           | (if key_eqb ?k ?k' then _ else _) = _ =>
               let K := fresh "K" in
               destruct (key_eqb k k') eqn:K;
               [apply key_eqb_eq in K;
                first [discriminate K | injection K as ? ?; subst]|]
           end;
    try discriminate Hz;
    try (cbn [as_log as_notification] in Hz; injection Hz as <-);
    try (now apply Hlog); try (now apply Hnot);
    try (split; congruence); try (now split).
  (* a log rewritten under its key keeps the fields of the log before *)
  destruct (Hlog _ _ _ H2) as [Hb Hd]. split; congruence.
Qed.

Lemma reachable_entries_keyed {L : Lib} s : reachable s -> entries_keyed s.
Proof.
  induction 1 as [|s env req _ IH].
  - split; intros ? ? ? H; discriminate H.
  - eapply effect_keeps_entries_keyed; [apply handle_effect | exact IH].
Qed.

(** X19. In every store the server can be in, a log is stored under the
    board id and the date it carries, and a notification under the board id
    and the id it carries. *)
Theorem stored_entries_match_their_keys :
  forall (L : Lib) (s : Store),
    reachable s ->
    (forall boardId date log,
       log_at s boardId date = Some log ->
       Log.boardId log = boardId /\ Log.date log = date) /\
    (forall boardId notifId n,
       notification_at s boardId notifId = Some n ->
       Notification.boardId n = boardId /\ Notification.id n = notifId).
Proof. intros L s Hreach. exact (reachable_entries_keyed Hreach). Qed.

Lemma scenario_store3_reachable : @reachable Toy.lib Scenario.store3.
Proof.
  pose (env3 := mkEnv (Scenario.issued_at + 3600000) "l-1"
                  "2024-05-01T08:05:01.000Z" "2024-05-01T08:05:02.000Z" "").
  pose (req3 := mkRequest (Some ("Bearer " ++ Scenario.alice_token))
                  (POST_logs (mkLogFields (Some "b-1")
                                (Some [Scenario.check_run])
                                (Some "2024-05-01")))).
  assert (Scenario.store3
          = kv (snd (run (@handle Toy.lib env3 req3) Scenario.store2)))
    as -> by (vm_compute; reflexivity).
  apply reachable_step, scenario_store2_reachable.
Qed.

(** The log and the notification of the scenario. *)
Lemma stored_entries_match_their_keys_witness :
  (exists log,
     log_at Scenario.store3 "b-1" "2024-05-01" = Some log /\
     Log.boardId log = "b-1" /\ Log.date log = "2024-05-01") /\
  (exists n,
     notification_at Scenario.store3 "b-1" "n-1" = Some n /\
     Notification.boardId n = "b-1" /\ Notification.id n = "n-1").
Proof.
  destruct (@stored_entries_match_their_keys Toy.lib Scenario.store3
              scenario_store3_reachable) as [Hlog Hnot].
  split.
  - eexists. split; [vm_compute; reflexivity|].
    apply Hlog. vm_compute; reflexivity.
  - eexists. split; [vm_compute; reflexivity|].
    apply Hnot. vm_compute; reflexivity.
Defined.

(** X20. In every store reached with fresh board ids, a board is stored
    under its own [userId] and [id], and no two stored boards share an
    id. *)
Theorem board_keyspace_is_well_formed :
  forall (L : Lib) (s : Store),
    reachable_fresh s ->
    (forall owner id board,
       board_at s owner id = Some board ->
       Board.userId board = owner /\ Board.id board = id) /\
    unique_board_ids s.
Proof.
  intros L s Hreach.
  pose proof (reachable_fresh_boards_wf Hreach) as Hwf.
  split.
  - intros owner id board Hb. exact (@board_at_key _ _ _ _ Hwf Hb).
  - now apply boards_wf_unique.
Qed.

Lemma scenario_store_two_reachable_fresh :
  @reachable_fresh Toy.lib Scenario.store_two.
Proof.
  pose (env1 := mkEnv (Scenario.issued_at + 3600000) "b-1"
                  "2024-05-01T08:00:00.000Z" "" "").
  pose (env2 := mkEnv (Scenario.issued_at + 3600000) "b-2"
                  "2024-05-01T19:00:00.000Z" "" "").
  pose (req1 := mkRequest (Some ("Bearer " ++ Scenario.alice_token))
                  (POST_boards Scenario.board_fields)).
  pose (req2 := mkRequest (Some ("Bearer " ++ Scenario.bob_token))
                  (POST_boards Scenario.bob_fields)).
  assert (Scenario.store1 = kv (snd (run (@handle Toy.lib env1 req1) [])))
    as E1 by (vm_compute; reflexivity).
  assert (Scenario.store_two
          = kv (snd (run (@handle Toy.lib env2 req2) Scenario.store1)))
    as -> by (vm_compute; reflexivity).
  apply reachable_fresh_step.
  - rewrite E1. apply reachable_fresh_step; [apply reachable_fresh_empty|].
    intros b [].
  - intros b Hb.
    assert (stored_boards Scenario.store1 = [Scenario.board1]) as E
      by (vm_compute; reflexivity).
    rewrite E in Hb. destruct Hb as [<- | []]. discriminate.
Qed.

(** The boards of Alice and Bob. *)
Lemma board_keyspace_is_well_formed_witness :
  board_at Scenario.store_two Scenario.bob "b-2" = Some Scenario.board2 /\
  Board.userId Scenario.board2 = Scenario.bob /\
  unique_board_ids Scenario.store_two.
Proof.
  destruct (@board_keyspace_is_well_formed Toy.lib Scenario.store_two
              scenario_store_two_reachable_fresh) as [Hkey Huniq].
  assert (board_at Scenario.store_two Scenario.bob "b-2"
          = Some Scenario.board2) as E by (vm_compute; reflexivity).
  split; [exact E|]. split; [|exact Huniq].
  exact (proj1 (Hkey Scenario.bob "b-2" Scenario.board2 E)).
Defined.

(** * Rate limiting *)

Lemma map_get_set_same key e m : map_get key (map_set key e m) = Some e.
Proof.
  induction m as [|[k e'] m IH]; simpl.
  - now rewrite String.eqb_refl.
  - destruct (k =? key) eqn:E; simpl; [now rewrite String.eqb_refl|].
    now rewrite E.
Qed.

Lemma map_get_set_other key key' e m :
  key <> key' -> map_get key' (map_set key e m) = map_get key' m.
Proof.
  intros N. induction m as [|[k e'] m IH]; simpl.
  - apply String.eqb_neq in N. now rewrite N.
  - destruct (k =? key) eqn:E; simpl.
    + apply String.eqb_eq in E. subst k.
      apply String.eqb_neq in N. now rewrite N.
    + now rewrite IH.
Qed.

(** Inside a window the count alone decides: with [c] requests counted and
    the window open at all the given times, the request number [k] passes
    exactly when [c + 1 + k] is within the limit, and none throws. *)
Lemma serve_in_window options c times :
  forall store counted reset,
    valid_time reset = true ->
    map_get ("ratelimit:" ++ clientId c) store
    = Some (RateLimitEntry.mk counted reset) ->
    Forall (fun now => (now <= reset)%Z) times ->
    map is_passed (fst (serve options store c times))
    = map (fun k => (counted + 1 + Z.of_nat k <=? maxRequests options)%Z)
        (seq 0 (List.length times)) /\
    map_get ("ratelimit:" ++ clientId c) (snd (serve options store c times))
    = Some (RateLimitEntry.mk (counted + Z.of_nat (List.length times))
              reset) /\
    Forall (fun v => forall m, v <> RangeError m)
      (fst (serve options store c times)).
Proof.
  induction times as [|now later IH];
    intros store counted reset Hvalid Hget Hin.
  - cbn [serve fst snd map seq List.length Z.of_nat]. rewrite Z.add_0_r.
    split; [reflexivity | split; [exact Hget | constructor]].
  - inversion Hin as [|? ? Hnow Hlater]; subst.
    cbn [serve].
    set (a := rateLimitMiddleware options store now c).
    assert (rl_store a
            = map_set ("ratelimit:" ++ clientId c)
                (RateLimitEntry.mk (counted + 1) reset) store /\
            is_passed (rl_verdict a)
            = (counted + 1 <=? maxRequests options)%Z /\
            (forall m, rl_verdict a <> RangeError m)) as (Hs & Hv & Hn).
    { subst a. unfold rateLimitMiddleware. rewrite Hget.
      cbn [RateLimitEntry.resetTime RateLimitEntry.count].
      assert ((reset <? now)%Z = false) as R by (apply Z.ltb_ge; lia).
      rewrite R. cbn [RateLimitEntry.resetTime RateLimitEntry.count rl_store
                        rl_verdict].
      rewrite Hvalid. split; [reflexivity|].
      destruct (maxRequests options <? counted + 1)%Z eqn:M; simpl;
        (split; [|discriminate]);
        symmetry; [apply Z.leb_gt | apply Z.leb_le];
        [apply Z.ltb_lt in M | apply Z.ltb_ge in M]; lia. }
    destruct (IH (rl_store a) (counted + 1)%Z reset) as (IH1 & IH2 & IH3);
      [exact Hvalid | rewrite Hs; apply map_get_set_same | exact Hlater |].
    destruct (serve options (rl_store a) c later) as [vs store'].
    cbn [fst snd] in *. split; [|split].
    + cbn [map List.length seq]. rewrite Hv, IH1, <- seq_shift, map_map.
      f_equal; [f_equal; lia|].
      apply map_ext. intros k. f_equal. lia.
    + rewrite IH2. do 2 f_equal. cbn [List.length]. lia.
    + constructor; assumption.
Qed.

(** The first request of a window counts as one. *)
Lemma rateLimit_opens_window options store now c :
  match map_get ("ratelimit:" ++ clientId c) store with
  | Some e => (RateLimitEntry.resetTime e < now)%Z
  | None => True
  end ->
  valid_time (now + windowMs options) = true ->
  let a := rateLimitMiddleware options store now c in
  map_get ("ratelimit:" ++ clientId c) (rl_store a)
  = Some (RateLimitEntry.mk 1 (now + windowMs options)) /\
  is_passed (rl_verdict a) = (1 <=? maxRequests options)%Z /\
  (forall m, rl_verdict a <> RangeError m).
Proof.
  intros Hopen Hvalid a. subst a. unfold rateLimitMiddleware.
  assert (match map_get ("ratelimit:" ++ clientId c) store with
          | Some entry =>
              if (RateLimitEntry.resetTime entry <? now)%Z
              then RateLimitEntry.mk 0 (now + windowMs options)
              else entry
          | None => RateLimitEntry.mk 0 (now + windowMs options)
          end = RateLimitEntry.mk 0 (now + windowMs options)) as ->.
  { destruct (map_get _ store) as [e|]; [|reflexivity].
    apply Z.ltb_lt in Hopen. now rewrite Hopen. }
  cbn [RateLimitEntry.resetTime RateLimitEntry.count rl_store rl_verdict].
  rewrite Hvalid. split; [apply map_get_set_same|].
  change (0 + 1)%Z with 1%Z.
  destruct (maxRequests options <? 1)%Z eqn:M; simpl;
    (split; [|discriminate]); symmetry;
    [apply Z.leb_gt | apply Z.leb_le];
    [apply Z.ltb_lt in M | apply Z.ltb_ge in M]; lia.
Qed.

(** With a reset time that is no time of a [Date], every request of the
    window ends in the exception. *)
Lemma serve_invalid_window options c times :
  forall store counted reset,
    valid_time reset = false ->
    map_get ("ratelimit:" ++ clientId c) store
    = Some (RateLimitEntry.mk counted reset) ->
    Forall (fun now => (now <= reset)%Z) times ->
    Forall (fun v => v = RangeError "Invalid time value")
      (fst (serve options store c times)).
Proof.
  induction times as [|now later IH];
    intros store counted reset Hinvalid Hget Hin.
  - constructor.
  - inversion Hin as [|? ? Hnow Hlater]; subst.
    cbn [serve].
    set (a := rateLimitMiddleware options store now c).
    assert (rl_store a
            = map_set ("ratelimit:" ++ clientId c)
                (RateLimitEntry.mk (counted + 1) reset) store /\
            rl_verdict a = RangeError "Invalid time value") as (Hs & Hv).
    { subst a. unfold rateLimitMiddleware. rewrite Hget.
      cbn [RateLimitEntry.resetTime RateLimitEntry.count].
      assert ((reset <? now)%Z = false) as R by (apply Z.ltb_ge; lia).
      rewrite R. cbn [RateLimitEntry.resetTime RateLimitEntry.count rl_store
                        rl_verdict].
      rewrite Hinvalid. split; reflexivity. }
    pose proof (IH (rl_store a) (counted + 1)%Z reset Hinvalid) as IH'.
    destruct (serve options (rl_store a) c later) as [vs store'].
    cbn [fst] in *. constructor; [exact Hv|].
    apply IH'; [rewrite Hs; apply map_get_set_same | exact Hlater].
Qed.

(** X21. Of the requests of one client in one window, exactly the first
    [maxRequests] pass: when a request at [t0] opens a window (the client
    has no entry, or one whose window is over) and the later requests come
    no later than the end [t0 + windowMs] of the window, then, that end
    being a time a [Date] holds, the request number [k], counted from 0, is
    passed on exactly when [k < maxRequests], every other one is answered
    429 and none ends in an exception.  When the end of the window is no
    time of a [Date], every request of the window ends in the [RangeError]
    of the reset header and none is passed on. *)
Theorem at_most_max_requests_per_window :
  forall (options : option RateLimitOptions) (store : RateLimitStore)
         (c : Client) (t0 : Z) (later : list Z),
    match map_get ("ratelimit:" ++ clientId c) store with
    | Some e => (RateLimitEntry.resetTime e < t0)%Z
    | None => True
    end ->
    Forall (fun now => (now <= t0 + windowMs options)%Z) later ->
    let verdicts := fst (serve options store c (t0 :: later)) in
    (valid_time (t0 + windowMs options) = true ->
     map is_passed verdicts
     = map (fun k => (Z.of_nat k <? maxRequests options)%Z)
         (seq 0 (S (List.length later))) /\
     Forall (fun v => forall m, v <> RangeError m) verdicts) /\
    (valid_time (t0 + windowMs options) = false ->
     Forall (fun v => v = RangeError "Invalid time value") verdicts).
Proof.
  intros options store c t0 later Hopen Hin verdicts.
  subst verdicts. split.
  - intros Hvalid.
    destruct (@rateLimit_opens_window options store t0 c Hopen Hvalid)
      as (Hget & Hv & Hn).
    cbn [serve].
    destruct (@serve_in_window options c later _ _ _ Hvalid Hget Hin)
      as (Hrest & _ & Hnone).
    destruct (serve options _ c later) as [vs store'].
    cbn [fst] in *. split; [|constructor; assumption].
    cbn [map seq]. rewrite Hv, Hrest, <- seq_shift, map_map.
    assert (forall a m, (a + 1 <=? m)%Z = (a <? m)%Z) as Step.
    { intros a m. destruct (Z.leb_spec (a + 1) m), (Z.ltb_spec a m);
        try reflexivity; lia. }
    f_equal.
    + exact (Step 0%Z _).
    + apply map_ext. intros k.
      replace (Z.of_nat (S k)) with (Z.of_nat k + 1)%Z by lia.
      rewrite <- Step. f_equal. lia.
  - intros Hinvalid. cbn [serve].
    set (a := rateLimitMiddleware options store t0 c).
    assert (rl_store a
            = map_set ("ratelimit:" ++ clientId c)
                (RateLimitEntry.mk 1 (t0 + windowMs options)) store /\
            rl_verdict a = RangeError "Invalid time value") as (Hs & Hv).
    { subst a. unfold rateLimitMiddleware.
      assert (match map_get ("ratelimit:" ++ clientId c) store with
              | Some entry =>
                  if (RateLimitEntry.resetTime entry <? t0)%Z
                  then RateLimitEntry.mk 0 (t0 + windowMs options)
                  else entry
              | None => RateLimitEntry.mk 0 (t0 + windowMs options)
              end = RateLimitEntry.mk 0 (t0 + windowMs options)) as ->.
      { destruct (map_get _ store) as [e|]; [|reflexivity].
        apply Z.ltb_lt in Hopen. now rewrite Hopen. }
      cbn [RateLimitEntry.resetTime RateLimitEntry.count rl_store
             rl_verdict].
      rewrite Hinvalid. split; reflexivity. }
    pose proof (@serve_invalid_window options c later (rl_store a) 1%Z
                  (t0 + windowMs options) Hinvalid) as Rest.
    destruct (serve options (rl_store a) c later) as [vs store'].
    cbn [fst] in *. constructor; [exact Hv|].
    apply Rest; [rewrite Hs; apply map_get_set_same | exact Hin].
Qed.

(** Seven login attempts of one address within a minute: five pass.  With
    a window as long as the range of [Date], a request ends in the
    exception. *)
Lemma at_most_max_requests_per_window_witness :
  let c := mkClient (Some "203.0.113.7") None None in
  let login_limit :=
    Some (mkRateLimitOptions (Some 900000%Z) (Some 5%Z) None) in
  let endless :=
    Some (mkRateLimitOptions (Some 8640000000000000%Z) None None) in
  map is_passed
    (fst (serve login_limit [] c
            [1000; 2000; 3000; 4000; 5000; 6000; 61000]%Z))
  = [true; true; true; true; true; false; false] /\
  fst (serve endless [] c [1000]%Z) = [RangeError "Invalid time value"].
Proof.
  intros c login_limit endless. split.
  - destruct (@at_most_max_requests_per_window login_limit [] c 1000%Z
                [2000; 3000; 4000; 5000; 6000; 61000]%Z I) as [H _].
    + repeat constructor; vm_compute; discriminate.
    + destruct (H eq_refl) as [Hp _]. exact Hp.
  - destruct (@at_most_max_requests_per_window endless [] c 1000%Z [] I)
      as [_ H]; [constructor|].
    specialize (H eq_refl). inversion H as [|v vs Hv Hvs E]; subst.
    inversion Hvs. reflexivity.
Defined.

Lemma ratelimit_key_inj a b :
  a <> b -> "ratelimit:" ++ a <> "ratelimit:" ++ b.
Proof. intros N E. apply N. simpl in E. now injection E. Qed.

(** What the limiter answers is decided by the entry of the client. *)
Lemma rateLimit_answer_of_entry options store store' now c :
  map_get ("ratelimit:" ++ clientId c) store'
  = map_get ("ratelimit:" ++ clientId c) store ->
  let a := rateLimitMiddleware options store now c in
  let a' := rateLimitMiddleware options store' now c in
  rl_verdict a' = rl_verdict a /\ rl_limit a' = rl_limit a /\
  rl_remaining a' = rl_remaining a /\ rl_reset a' = rl_reset a.
Proof.
  intros E a a'. subst a a'. unfold rateLimitMiddleware. rewrite E.
  repeat split.
Qed.

(** X22. Clients are counted apart: a request of one client changes
    nothing in what the limiter answers to a client with another id. *)
Theorem clients_are_counted_apart :
  forall (o1 o2 : option RateLimitOptions) (store : RateLimitStore)
         (t1 t2 : Z) (c1 c2 : Client),
    clientId c1 <> clientId c2 ->
    let store' := rl_store (rateLimitMiddleware o2 store t2 c2) in
    let a := rateLimitMiddleware o1 store t1 c1 in
    let a' := rateLimitMiddleware o1 store' t1 c1 in
    rl_verdict a' = rl_verdict a /\ rl_limit a' = rl_limit a /\
    rl_remaining a' = rl_remaining a /\ rl_reset a' = rl_reset a.
Proof.
  intros o1 o2 store t1 t2 c1 c2 N store'.
  apply rateLimit_answer_of_entry. subst store'.
  unfold rateLimitMiddleware. cbn [rl_store].
  apply map_get_set_other. apply ratelimit_key_inj. congruence.
Qed.

(** One address uses up a limit of one; another address still passes. *)
Lemma clients_are_counted_apart_witness :
  let one := Some (mkRateLimitOptions None (Some 1%Z) None) in
  let c1 := mkClient (Some "203.0.113.7") None None in
  let c2 := mkClient None (Some "198.51.100.2") None in
  let store' := rl_store (rateLimitMiddleware one [] 1000 c2) in
  rl_verdict (rateLimitMiddleware one store' 2000 c2)
  = Limited "Too many requests, please try again later" 899 /\
  rl_verdict (rateLimitMiddleware one store' 2000 c1) = Passed.
Proof.
  intros one c1 c2 store'. split; [vm_compute; reflexivity|].
  assert (clientId c1 <> clientId c2) as N by (vm_compute; discriminate).
  destruct (@clients_are_counted_apart one one [] 2000%Z 1000%Z c1 c2 N)
    as [Hv _].
  fold store' in Hv. rewrite Hv. vm_compute; reflexivity.
Defined.

(** X23. The limiters built by [rateLimitMiddleware] share one counter per
    client: after the requests of a window have gone through one limiter,
    a request of the same client through another limiter, while that
    window is open, passes exactly when the number of the earlier requests
    is below the limit of the other limiter, and is answered 429 otherwise.
    The end of the window is a time a [Date] holds. *)
Theorem limiters_share_one_counter :
  forall (oA oB : option RateLimitOptions) (store : RateLimitStore)
         (c : Client) (t0 : Z) (later : list Z) (now : Z),
    match map_get ("ratelimit:" ++ clientId c) store with
    | Some e => (RateLimitEntry.resetTime e < t0)%Z
    | None => True
    end ->
    valid_time (t0 + windowMs oA) = true ->
    Forall (fun t => (t <= t0 + windowMs oA)%Z) later ->
    (now <= t0 + windowMs oA)%Z ->
    let store' := snd (serve oA store c (t0 :: later)) in
    let a := rateLimitMiddleware oB store' now c in
    is_passed (rl_verdict a)
    = (Z.of_nat (S (List.length later)) <? maxRequests oB)%Z /\
    (forall m, rl_verdict a <> RangeError m).
Proof.
  intros oA oB store c t0 later now Hopen Hvalid Hin Hnow store' a.
  destruct (@rateLimit_opens_window oA store t0 c Hopen Hvalid)
    as (Hget & _).
  destruct (@serve_in_window oA c later _ _ _ Hvalid Hget Hin)
    as (_ & Hend & _).
  assert (map_get ("ratelimit:" ++ clientId c) store'
          = Some (RateLimitEntry.mk (1 + Z.of_nat (List.length later))
                    (t0 + windowMs oA))) as Hs.
  { subst store'. cbn [serve].
    destruct (serve oA _ c later) as [vs st]. exact Hend. }
  subst a. unfold rateLimitMiddleware. rewrite Hs.
  cbn [RateLimitEntry.resetTime RateLimitEntry.count].
  assert ((t0 + windowMs oA <? now)%Z = false) as R
    by (apply Z.ltb_ge; lia).
  rewrite R. cbn [RateLimitEntry.resetTime RateLimitEntry.count rl_verdict].
  rewrite Hvalid.
  destruct (maxRequests oB <? 1 + Z.of_nat (List.length later) + 1)%Z eqn:M;
    simpl; (split; [|discriminate]); symmetry;
    [apply Z.ltb_ge; apply Z.ltb_lt in M
    |apply Z.ltb_lt; apply Z.ltb_ge in M]; lia.
Qed.

(** Five requests counted by the general limiter, then a first login
    attempt of the same address: the login limiter turns it away. *)
Lemma limiters_share_one_counter_witness :
  let c := mkClient (Some "203.0.113.7") None None in
  let store' := snd (serve None [] c [1000; 2000; 3000; 4000; 5000]%Z) in
  is_passed (rl_verdict (authRateLimitMiddleware store' 6000 c)) = false.
Proof.
  intros c store'.
  unfold authRateLimitMiddleware.
  destruct (@limiters_share_one_counter None
              (Some (mkRateLimitOptions (Some (15 * 60 * 1000)%Z)
                       (Some 5%Z)
                       (Some "Too many authentication attempts, please try again later")))
              [] c 1000%Z [2000; 3000; 4000; 5000]%Z 6000%Z I) as [H _].
  - reflexivity.
  - repeat constructor; vm_compute; discriminate.
  - vm_compute; discriminate.
  - fold store' in H. rewrite H. reflexivity.
Defined.

Lemma map_get_absent key (m : RateLimitStore) :
  ~ In key (map fst m) -> map_get key m = None.
Proof.
  induction m as [|[k e] m IH]; simpl; [reflexivity|].
  intros H. destruct (k =? key) eqn:E.
  - apply String.eqb_eq in E. tauto.
  - apply IH. tauto.
Qed.

Lemma map_get_cleanup key t (m : RateLimitStore) :
  NoDup (map fst m) ->
  map_get key (cleanup t m)
  = match map_get key m with
    | Some e => if (RateLimitEntry.resetTime e <? t)%Z then None else Some e
    | None => None
    end.
Proof.
  unfold cleanup. induction m as [|[k e] m IH]; simpl; [reflexivity|].
  intros Hn. inversion Hn as [|? ? Hk Hn']; subst.
  destruct (k =? key) eqn:E.
  - apply String.eqb_eq in E. subst k.
    destruct (RateLimitEntry.resetTime e <? t)%Z; simpl.
    + apply map_get_absent. rewrite in_map_iff.
      intros ([k' e'] & Ek & Hin). simpl in Ek; subst k'.
      apply filter_In in Hin as [Hin _]. apply Hk.
      apply in_map_iff. now exists (key, e').
    + now rewrite String.eqb_refl.
  - destruct (RateLimitEntry.resetTime e <? t)%Z; simpl;
      [|rewrite E]; now apply IH.
Qed.

Lemma map_set_keys key e (m : RateLimitStore) k :
  In k (map fst (map_set key e m)) <-> k = key \/ In k (map fst m).
Proof.
  induction m as [|[k0 e0] m IH]; simpl.
  - intuition.
  - destruct (k0 =? key) eqn:E; simpl.
    + apply String.eqb_eq in E. subst k0. intuition.
    + rewrite IH. intuition.
Qed.

(** The map keeps one entry per key. *)
Lemma NoDup_map_set key e (m : RateLimitStore) :
  NoDup (map fst m) -> NoDup (map fst (map_set key e m)).
Proof.
  induction m as [|[k0 e0] m IH]; simpl; intros Hn.
  - constructor; [tauto | constructor].
  - inversion Hn as [|? ? Hk Hn']; subst.
    destruct (k0 =? key) eqn:E; simpl.
    + apply String.eqb_eq in E. subst k0. now constructor.
    + constructor; [|now apply IH].
      rewrite map_set_keys. apply String.eqb_neq in E. intuition.
Qed.

(** X24. The periodic sweep is not seen by the clients: with one entry per
    key in the map, what the limiter answers to a request is the same
    whether or not the sweep has run at an earlier time, and the map keeps
    one entry per key through requests. *)
Theorem cleanup_changes_no_answer :
  forall (options : option RateLimitOptions) (store : RateLimitStore)
         (swept now : Z) (c : Client),
    NoDup (map fst store) ->
    (swept <= now)%Z ->
    let a := rateLimitMiddleware options store now c in
    let a' := rateLimitMiddleware options (cleanup swept store) now c in
    rl_verdict a' = rl_verdict a /\ rl_limit a' = rl_limit a /\
    rl_remaining a' = rl_remaining a /\ rl_reset a' = rl_reset a /\
    NoDup (map fst (rl_store a)).
Proof.
  intros options store swept now c Hn Hle a a'. subst a a'.
  unfold rateLimitMiddleware. cbn [rl_store rl_verdict rl_limit rl_remaining
                                     rl_reset].
  rewrite (@map_get_cleanup _ swept _ Hn).
  destruct (map_get ("ratelimit:" ++ clientId c) store) as [e|].
  - destruct (RateLimitEntry.resetTime e <? swept)%Z eqn:S.
    + apply Z.ltb_lt in S.
      assert ((RateLimitEntry.resetTime e <? now)%Z = true) as R
        by (apply Z.ltb_lt; lia).
      rewrite R. repeat split. now apply NoDup_map_set.
    + repeat split. now apply NoDup_map_set.
  - repeat split. now apply NoDup_map_set.
Qed.

(** A sweep between two requests of an address. *)
Lemma cleanup_changes_no_answer_witness :
  let c := mkClient (Some "203.0.113.7") None None in
  let one := Some (mkRateLimitOptions (Some 60000%Z) (Some 1%Z) None) in
  let store := rl_store (rateLimitMiddleware one [] 1000 c) in
  rl_verdict (rateLimitMiddleware one (cleanup 30000 store) 40000 c)
  = rl_verdict (rateLimitMiddleware one store 40000 c) /\
  rl_verdict (rateLimitMiddleware one (cleanup 70000 store) 80000 c)
  = Passed.
Proof.
  intros c one store.
  assert (NoDup (map fst store)) as Hn
    by (apply NoDup_map_set; constructor).
  split.
  - destruct (@cleanup_changes_no_answer one store 30000%Z 40000%Z c Hn)
      as [Hv _]; [vm_compute; discriminate | exact Hv].
  - destruct (@cleanup_changes_no_answer one store 70000%Z 80000%Z c Hn)
      as [Hv _]; [vm_compute; discriminate|].
    rewrite Hv. vm_compute; reflexivity.
Defined.

(** * The names of the downloads *)

Lemma replace_non_alnum_chars title :
  Forall (fun c => is_alnum c = true \/ c = "_"%char)
    (list_ascii_of_string (replace_non_alnum title)).
Proof.
  unfold replace_non_alnum. rewrite list_ascii_of_string_of_list_ascii.
  apply Forall_forall. intros c Hc. apply in_map_iff in Hc as (u & <- & _).
  destruct u as [c|]; simpl; [|now right].
  destruct (is_alnum c) eqn:E; [left; exact E | now right].
Qed.

Lemma list_ascii_of_string_app a b :
  list_ascii_of_string (a ++ b)
  = (list_ascii_of_string a ++ list_ascii_of_string b)%list.
Proof. induction a as [|c a IH]; simpl; [reflexivity | now rewrite IH]. Qed.

(** A string of bytes below 128 is the sequence of its own code units. *)
Lemma code_units_basic s :
  forallb (fun c => (nat_of_ascii c <? 128)%nat) (list_ascii_of_string s)
  = true ->
  forall pending,
    code_units_from pending s = map Basic (list_ascii_of_string s).
Proof.
  induction s as [|c rest IH]; intros H pending; [reflexivity|].
  cbn [list_ascii_of_string forallb] in H.
  apply andb_true_iff in H as [Hc Hr].
  cbn [code_units_from list_ascii_of_string map]. cbv zeta.
  rewrite Hc. now rewrite (IH Hr).
Qed.

Lemma is_alnum_basic c :
  is_alnum c = true -> (nat_of_ascii c <? 128)%nat = true.
Proof.
  unfold is_alnum. cbv zeta. intros H. apply Nat.ltb_lt.
  repeat (apply orb_true_iff in H as [H | H]);
    apply andb_true_iff in H as [_ H]; apply Nat.leb_le in H; lia.
Qed.

(** Cleaning leaves a string of letters, digits and underscores as it
    is. *)
Lemma replace_non_alnum_fixed s :
  forallb (fun c => is_alnum c || (c =? "_")%char) (list_ascii_of_string s)
  = true ->
  replace_non_alnum s = s.
Proof.
  intros H. unfold replace_non_alnum, code_units.
  rewrite code_units_basic.
  - rewrite map_map.
    rewrite <- (string_of_list_ascii_of_string s) at 2.
    f_equal. rewrite <- (map_id (list_ascii_of_string s)) at 2.
    apply map_ext_in. intros c Hc.
    rewrite forallb_forall in H. specialize (H c Hc). simpl.
    destruct (is_alnum c); [reflexivity|].
    simpl in H. apply Ascii.eqb_eq in H. now subst.
  - apply forallb_forall. intros c Hc.
    rewrite forallb_forall in H. specialize (H c Hc).
    apply orb_true_iff in H as [H | H]; [now apply is_alnum_basic|].
    apply Ascii.eqb_eq in H. now subst.
Qed.

(** X28. The file names of the Markdown and CSV downloads are the title
    with every character other than a letter or a digit of ASCII replaced by
    an underscore, followed by [.md] or [_logs.csv]: whatever the title,
    every character of the name is such a letter or digit, an underscore or
    a dot, so none is a quote, a slash, a backslash or a line break; a title
    of letters and digits is kept as it is, and cleaning a cleaned title
    changes nothing.  The cleaned title has one character for each UTF-16
    code unit of the title. *)
Theorem download_names_are_plain :
  forall title : string,
    let plain c := is_alnum c = true \/ c = "_"%char \/ c = "."%char in
    Forall plain (list_ascii_of_string (markdown_filename title)) /\
    Forall plain (list_ascii_of_string (csv_filename title)) /\
    (forall c, plain c ->
       ~ In (nat_of_ascii c) [10; 13; 34; 47; 92]%nat) /\
    (forallb is_alnum (list_ascii_of_string title) = true ->
     replace_non_alnum title = title) /\
    replace_non_alnum (replace_non_alnum title) = replace_non_alnum title /\
    String.length (replace_non_alnum title) = js_length title.
Proof.
  intros title plain.
  assert (Forall plain (list_ascii_of_string (replace_non_alnum title)))
    as Stem.
  { eapply Forall_impl; [|apply replace_non_alnum_chars].
    intros c [H | H]; [left; exact H | right; left; exact H]. }
  split; [|split; [|split; [|split; [|split]]]].
  - unfold markdown_filename. rewrite list_ascii_of_string_app.
    apply Forall_app. split; [exact Stem|].
    repeat constructor; solve [left; reflexivity | right; right; reflexivity].
  - unfold csv_filename. rewrite list_ascii_of_string_app.
    apply Forall_app. split; [exact Stem|].
    repeat constructor;
      solve [left; reflexivity | right; left; reflexivity
            | right; right; reflexivity].
  - intros c [H | [-> | ->]].
    + unfold is_alnum in H. cbv zeta in H. simpl In.
      intros [E | [E | [E | [E | [E | []]]]]]; rewrite <- E in H;
        discriminate H.
    + simpl. intuition discriminate.
    + simpl. intuition discriminate.
  - intros H. apply replace_non_alnum_fixed.
    apply forallb_forall. intros c Hc.
    rewrite forallb_forall in H. now rewrite (H c Hc).
  - apply replace_non_alnum_fixed. apply forallb_forall. intros c Hc.
    pose proof (replace_non_alnum_chars title) as P.
    rewrite Forall_forall in P. destruct (P c Hc) as [E | ->].
    + now rewrite E.
    + apply orb_true_r.
  - unfold replace_non_alnum, js_length.
    generalize (code_units title). intros us.
    induction us as [|u us IH]; simpl; [reflexivity | now rewrite IH].
Qed.

(** A title with a space, a slash and a dot; one with two characters of
    three bytes each; one with a character of four bytes, which is two
    code units. *)
Lemma download_names_are_plain_witness :
  markdown_filename "Morning run/v1.2" = "Morning_run_v1_2.md" /\
  csv_filename "Morning run/v1.2" = "Morning_run_v1_2_logs.csv" /\
  csv_filename "日本 v2" = "___v2_logs.csv" /\
  markdown_filename "go 🚀" = "go___.md" /\
  replace_non_alnum "Morning7" = "Morning7".
Proof.
  split; [reflexivity|]. split; [reflexivity|].
  split; [reflexivity|]. split; [reflexivity|].
  destruct (download_names_are_plain "Morning7") as (_ & _ & _ & H & _).
  apply H. reflexivity.
Defined.
